(** * watermark.py: a shallow embedding and its verified properties

    The script stamps a text watermark on PDF files.  Its functions are
    [create_watermark], [correct_pdf_path], [duplicate_watermark],
    [ensure_new_file], [add_watermark], [setup_logging] and [main].

    Everything the script does goes through the file system, so the
    embedding is a state-and-exception monad over a [World]: a finite map
    from [pathlib] paths to file-system entries, a journal of the system
    calls made, the source of randomness used by [uuid] and [tempfile],
    and the records emitted through [logging].  The library calls the
    script makes ([pathlib], [tempfile], [uuid], [reportlab], [PyPDF2],
    [logging]) are modelled by their documented behaviour on POSIX. *)

From Stdlib Require Import String Ascii List ZArith Lia DecimalString QArith.
From stdpp Require Import base gmap strings list.

Open Scope string_scope.

(** Concatenation of a literal computes. *)
#[global] Arguments String.append !_ _ / : simpl nomatch.

(** ** Python strings *)

Module Str.

(** [s[:n]] *)
Fixpoint take (n : nat) (s : string) : string :=
  match n, s with
  | S n', String a s' => String a (take n' s')
  | _, _ => EmptyString
  end.

(** [s[n:]] *)
Fixpoint drop (n : nat) (s : string) : string :=
  match n, s with
  | S n', String _ s' => drop n' s'
  | _, _ => s
  end.

(** [s.rfind(c)]; [None] stands for Python's [-1]. *)
Fixpoint rfind (c : ascii) (s : string) : option nat :=
  match s with
  | EmptyString => None
  | String a s' =>
      match rfind c s' with
      | Some i => Some (S i)
      | None => if Ascii.eqb a c then Some 0 else None
      end
  end.

(** [c in s] *)
Fixpoint mem (c : ascii) (s : string) : bool :=
  match s with
  | EmptyString => false
  | String a s' => Ascii.eqb a c || mem c s'
  end.

(** [s.split(c)] *)
Fixpoint split (c : ascii) (s : string) : list string :=
  match s with
  | EmptyString => [EmptyString]
  | String a s' =>
      if Ascii.eqb a c then EmptyString :: split c s'
      else match split c s' with
           | x :: xs => String a x :: xs
           | [] => [String a EmptyString]
           end
  end.

(** [s.lstrip(c)] *)
Fixpoint lstrip (c : ascii) (s : string) : string :=
  match s with
  | EmptyString => EmptyString
  | String a s' => if Ascii.eqb a c then lstrip c s' else s
  end.

(** [s.endswith(t)] *)
Definition endswith (s t : string) : bool :=
  String.eqb (drop (String.length s - String.length t) s) t.

(** [str(n)] for a non-negative integer. *)
Definition of_nat (n : nat) : string := NilZero.string_of_uint (Nat.to_uint n).

End Str.

(** ** pathlib.PurePosixPath *)

(** A path is its root ([""], ["/"] or ["//"]) and its components; the
    components never contain a separator, and are never empty or ["."]. *)
Record Path := { root : string; parts : list string }.

Global Instance Path_eq_dec : EqDecision Path.
Proof. solve_decision. Defined.

Global Instance Path_countable : Countable Path.
Proof.
  refine (inj_countable' (fun p => (root p, parts p))
            (fun t => {| root := t.1; parts := t.2 |}) _).
  by intros [].
Defined.

(** [_PosixFlavour.splitroot] *)
Definition splitroot (part : string) : string * string :=
  match part with
  | String a _ =>
      if Ascii.eqb a "/" then
        let stripped_part := Str.lstrip "/" part in
        if (String.length part - String.length stripped_part =? 2)%nat
        then ("//", stripped_part)
        else ("/", stripped_part)
      else ("", part)
  | EmptyString => ("", part)
  end.

(** [x and x != "."] *)
Definition is_component (x : string) : bool :=
  negb (String.eqb x "") && negb (String.eqb x ".").

(** The components of the relative part: [x for x in rel.split("/") if x
    and x != "."]. *)
Definition rel_parts (rel : string) : list string :=
  List.filter is_component (Str.split "/" rel).

(** [Path(s)] *)
Definition Path_of_string (s : string) : Path :=
  let '(r, rel) := splitroot s in {| root := r; parts := rel_parts rel |}.

(** [Path(p, s)]: an absolute [s] replaces [p]. *)
Definition Path_join (p : Path) (s : string) : Path :=
  let '(r, rel) := splitroot s in
  if String.eqb r "" then {| root := root p; parts := parts p ++ rel_parts rel |}
  else {| root := r; parts := rel_parts rel |}.

(** [p.name] *)
Definition name (p : Path) : string := List.last (parts p) "".

(** [p.parent] *)
Definition parent (p : Path) : Path :=
  {| root := root p; parts := List.removelast (parts p) |}.

(** [i = name.rfind("."); 0 < i < len(name) - 1] *)
Definition suffix_index (nm : string) : option nat :=
  match Str.rfind "." nm with
  | Some i => if ((0 <? i) && (i <? String.length nm - 1))%nat then Some i else None
  | None => None
  end.

(** [p.suffix] *)
Definition name_suffix (nm : string) : string :=
  match suffix_index nm with
  | Some i => Str.drop i nm
  | None => ""
  end.

Definition suffix (p : Path) : string := name_suffix (name p).

(** [p.stem] *)
Definition name_stem (nm : string) : string :=
  match suffix_index nm with
  | Some i => Str.take i nm
  | None => nm
  end.

Definition stem (p : Path) : string := name_stem (name p).

(** What the script passes where Python accepts [str] or [Path]. *)
Inductive PathLike := AsStr (s : string) | AsPath (p : Path).

(** [Path(x)] *)
Definition Path_of (x : PathLike) : Path :=
  match x with
  | AsStr s => Path_of_string s
  | AsPath p => p
  end.

(** Paths as [pathlib] builds them. *)
Definition wf_part (x : string) : bool :=
  is_component x && negb (Str.mem "/" x).

Definition wf_path (p : Path) : bool := forallb wf_part (parts p).

(** ** PDF documents, as far as the script sees them *)

(** [reportlab.lib.colors.gray] and [reportlab.lib.pagesizes.A4] are the
    only colour and page size the script names. *)
Inductive Color := gray.
Inductive PageSize := A4.

(** The drawing operations of a page's content stream. *)
Inductive Op :=
| OpFillColor (c : Color) (alpha : Q)
| OpFont (psfontname : string) (size : Z)
| OpRotate (theta : Z)
| OpCentredString (x y : Z) (text : string).

Record Page := { mediabox : PageSize; contents : list Op }.

(** [page.merge_page(page2)]: the content stream of [page2] is drawn after
    the page's own. *)
Definition merge_page (page page2 : Page) : Page :=
  {| mediabox := mediabox page; contents := contents page ++ contents page2 |}.

(** A regular file holds a PDF document or bytes that are not one. *)
Inductive Content := PdfDoc (pages : list Page) | RawBytes (data : string).

Inductive Entry := Directory | Regular (c : Content).

(** ** The world *)

(** System calls, most recent first in the journal.  The two calls that
    can create a file record whether they did: [created] is [false] when
    [open(p, "wb")] found a file to truncate or failed, and when
    [O_EXCL] refused a path that exists. *)
Inductive Event :=
| EvStat (p : Path)                       (* [os.stat], from [Path.exists] *)
| EvScandir (p : Path)                    (* [os.scandir], from [Path.glob] *)
| EvOpenRead (p : Path)                   (* [open(p, "rb")] *)
| EvOpenWrite (p : Path) (created : bool) (* [open(p, "wb")] *)
| EvOpenExcl (p : Path) (created : bool). (* [os.open(p, O_RDWR | O_CREAT | O_EXCL)] *)

(** The path a call opens for writing. *)
Definition written (ev : Event) : option Path :=
  match ev with
  | EvOpenWrite p _ => Some p
  | EvOpenExcl p true => Some p
  | _ => None
  end.

(** [logging.LogRecord]: level, message and arguments. *)
Record LogRecord := { levelno : nat; msg : string; args : list PathLike }.

Definition INFO : nat := 20.
Definition WARNING : nat := 30.

(** What the process finds and does not change. *)
Record Env := {
  tempdir : Path;          (* [tempfile.gettempdir()] *)
  cwd : Path;              (* [Path.cwd()] *)
  TMP_MAX : nat;           (* [tempfile.TMP_MAX] *)
  entropy : nat → N        (* the values the random sources will return *)
}.

Record World := {
  env : Env;
  fs : gmap Path Entry;
  journal : list Event;
  cursor : nat;            (* how much of [entropy] has been used *)
  has_handlers : bool;     (* [len(logging.root.handlers) > 0] *)
  root_level : nat;        (* [logging.root.level] *)
  emitted : list LogRecord (* most recent first *)
}.

Definition set_fs (f : gmap Path Entry) (w : World) : World :=
  {| env := env w; fs := f; journal := journal w; cursor := cursor w;
     has_handlers := has_handlers w; root_level := root_level w;
     emitted := emitted w |}.

Definition set_journal (j : list Event) (w : World) : World :=
  {| env := env w; fs := fs w; journal := j; cursor := cursor w;
     has_handlers := has_handlers w; root_level := root_level w;
     emitted := emitted w |}.

Definition set_cursor (c : nat) (w : World) : World :=
  {| env := env w; fs := fs w; journal := journal w; cursor := c;
     has_handlers := has_handlers w; root_level := root_level w;
     emitted := emitted w |}.

Definition set_logging (h : bool) (l : nat) (r : list LogRecord) (w : World) : World :=
  {| env := env w; fs := fs w; journal := journal w; cursor := cursor w;
     has_handlers := h; root_level := l; emitted := r |}.

(** ** Exceptions and the monad *)

Inductive Exception :=
| AssertionError
| ValueError
| IndexError
| FileNotFoundError
| FileExistsError
| IsADirectoryError
| NotADirectoryError
| PdfReadError.

(** A call returns, raises, or runs for ever. *)
Inductive Outcome (A : Type) :=
| Ok (a : A)
| Raise (e : Exception)
| Diverge.
Arguments Ok {A} a.
Arguments Raise {A} e.
Arguments Diverge {A}.

Definition M (A : Type) : Type := World → Outcome A * World.

Global Instance M_ret : MRet M := λ A a w, (Ok a, w).

Global Instance M_bind : MBind M := λ A B k m w,
  match m w with
  | (Ok a, w') => k a w'
  | (Raise e, w') => (Raise e, w')
  | (Diverge, w') => (Diverge, w')
  end.

Definition raise {A} (e : Exception) : M A := λ w, (Raise e, w).
Definition diverge {A} : M A := λ w, (Diverge, w).
Definition get_world : M World := λ w, (Ok w, w).
Definition modify (f : World → World) : M unit := λ w, (Ok tt, f w).
Definition syscall (ev : Event) : M unit := modify (λ w, set_journal (ev :: journal w) w).

(** [assert b] *)
Definition py_assert (b : bool) : M unit :=
  if b then mret tt else raise AssertionError.

(** [for x in l: s = body(x, s)] *)
Fixpoint for_each {A S} (l : list A) (body : A → S → M S) (s : S) : M S :=
  match l with
  | [] => mret s
  | x :: l' => s' ← body x s; for_each l' body s'
  end.

(** [range(n)]: empty when [n <= 0]. *)
Definition range (n : Z) : list nat := seq 0 (Z.to_nat n).

(** ** The file system calls *)

(** [p.exists()] *)
Definition Path_exists (p : Path) : M bool :=
  syscall (EvStat p);;
  w ← get_world;
  mret (bool_decide (is_Some (fs w !! p))).

(** [open(p, "rb")]: what is read from the file. *)
Definition open_rb (p : Path) : M Content :=
  syscall (EvOpenRead p);;
  w ← get_world;
  match fs w !! p with
  | Some (Regular c) => mret c
  | Some Directory => raise IsADirectoryError
  | None => raise FileNotFoundError
  end.

Definition is_directory (e : option Entry) : bool :=
  match e with
  | Some Directory => true
  | _ => false
  end.

(** Creating a file needs its directory. *)
Definition check_parent (p : Path) : M unit :=
  w ← get_world;
  match fs w !! parent p with
  | Some Directory => mret tt
  | Some (Regular _) => raise NotADirectoryError
  | None => raise FileNotFoundError
  end.

(** [open(p, "wb")]: the file is created or truncated; the handle is the
    path. *)
Definition open_wb (p : Path) : M Path :=
  w ← get_world;
  match fs w !! p with
  | Some Directory => syscall (EvOpenWrite p false);; raise IsADirectoryError
  | Some (Regular _) =>
      syscall (EvOpenWrite p false);;
      modify (λ w, set_fs (<[p := Regular (RawBytes "")]> (fs w)) w);;
      mret p
  | None =>
      syscall (EvOpenWrite p (is_directory (fs w !! parent p)));;
      check_parent p;;
      modify (λ w, set_fs (<[p := Regular (RawBytes "")]> (fs w)) w);;
      mret p
  end.

(** Writing a whole document through a handle. *)
Definition write_file (handle : Path) (c : Content) : M unit :=
  modify (λ w, set_fs (<[handle := Regular c]> (fs w)) w).

(** [os.open(p, O_RDWR | O_CREAT | O_EXCL)]: [false] for [FileExistsError]. *)
Definition open_excl (p : Path) : M bool :=
  w ← get_world;
  match fs w !! p with
  | Some _ => syscall (EvOpenExcl p false);; mret false
  | None =>
      syscall (EvOpenExcl p (is_directory (fs w !! parent p)));;
      check_parent p;;
      modify (λ w, set_fs (<[p := Regular (RawBytes "")]> (fs w)) w);;
      mret true
  end.

(** The next value of the random source. *)
Definition draw : M N :=
  w ← get_world;
  modify (set_cursor (S (cursor w)));;
  mret (entropy (env w) (cursor w)).

(** ** uuid and tempfile *)

Definition hexdigit (d : N) : ascii :=
  nth (N.to_nat d)
    ["0"; "1"; "2"; "3"; "4"; "5"; "6"; "7"; "8"; "9"; "a"; "b"; "c"; "d"; "e"; "f"]%char
    "0"%char.

(** ['%0kx' % x], for [x < 16 ^ k]. *)
Fixpoint hex_of (k : nat) (x : N) : string :=
  match k with
  | 0 => ""
  | S k' => String (hexdigit ((x / 16 ^ N.of_nat k') mod 16)) (hex_of k' x)
  end.

(** [uuid.UUID(bytes=os.urandom(16), version=4).int]: 128 random bits
    with the variant and version set. *)
Definition uuid_of_random (n : N) : N :=
  let int := (n mod 2 ^ 128)%N in
  let int := N.ldiff int (N.shiftl 0xc000 48) in
  let int := N.lor int (N.shiftl 0x8000 48) in
  let int := N.ldiff int (N.shiftl 0xf000 64) in
  let int := N.lor int (N.shiftl 4 76) in
  int.

(** [uuid.uuid4()] *)
Definition uuid4 : M N :=
  n ← draw;
  mret (uuid_of_random n).

(** [u.hex] *)
Definition uuid_hex (u : N) : string := hex_of 32 u.

Definition name_char (d : N) : ascii :=
  nth (N.to_nat d)
    ["a"; "b"; "c"; "d"; "e"; "f"; "g"; "h"; "i"; "j"; "k"; "l"; "m";
     "n"; "o"; "p"; "q"; "r"; "s"; "t"; "u"; "v"; "w"; "x"; "y"; "z";
     "0"; "1"; "2"; "3"; "4"; "5"; "6"; "7"; "8"; "9"; "_"]%char
    "a"%char.

Fixpoint name_of (k : nat) (x : N) : string :=
  match k with
  | 0 => ""
  | S k' => String (name_char ((x / 37 ^ N.of_nat k') mod 37)) (name_of k' x)
  end.

(** [next(tempfile._get_candidate_names())]: eight characters. *)
Definition candidate_name : M string :=
  n ← draw;
  mret (name_of 8 n).

(** [tempfile._mkstemp_inner]: candidates are tried until one is new. *)
Fixpoint mkstemp_inner (tries : nat) (dir : Path) (pre suf : string) : M Path :=
  match tries with
  | 0 => raise FileExistsError
  | S tries' =>
      nm ← candidate_name;
      let file := Path_join dir (pre ++ nm ++ suf) in
      created ← open_excl file;
      if created : bool then mret file else mkstemp_inner tries' dir pre suf
  end.

(** [tempfile.mkstemp(suffix=, prefix=, dir=)]; the descriptor it also
    returns is dropped by the script. *)
Definition mkstemp (suffix prefix : string) (dir : Path) : M Path :=
  w ← get_world;
  mkstemp_inner (TMP_MAX (env w)) dir prefix suffix.

(** [tempfile.gettempdir()] and [Path.cwd()] *)
Definition gettempdir : M Path := w ← get_world; mret (tempdir (env w)).
Definition Path_cwd : M Path := w ← get_world; mret (cwd (env w)).

(** [d.glob("*.pdf")]: the entries of [d] whose name ends in [.pdf]; a
    [d] that is not a directory has none. *)
Definition is_child_of (d p : Path) : bool :=
  bool_decide (parent p = d) && negb (bool_decide (p = d)).

Definition pdf_entries (d : Path) (f : gmap Path Entry) : list Path :=
  match f !! d with
  | Some Directory =>
      List.filter (λ p, is_child_of d p && Str.endswith (name p) ".pdf")
        (map fst (map_to_list f))
  | _ => []
  end.

Definition glob_pdf (d : Path) : M (list Path) :=
  syscall (EvScandir d);;
  w ← get_world;
  mret (pdf_entries d (fs w)).

(** ** reportlab and PyPDF2 *)

(** [canvas.Canvas]: the file name, the page size and the operations drawn
    on the current page. *)
Record Canvas := { filename : Path; pagesize : PageSize; code : list Op }.

Definition Canvas_new (filename : Path) (pagesize : PageSize) : Canvas :=
  {| filename := filename; pagesize := pagesize; code := [] |}.

Definition draw_op (o : Op) (c : Canvas) : Canvas :=
  {| filename := filename c; pagesize := pagesize c; code := code c ++ [o] |}.

(** [pdf.save()]: the page in progress is closed and the document is
    written. *)
Definition Canvas_save (c : Canvas) : M unit :=
  let pages :=
    match code c with
    | [] => []
    | _ => [{| mediabox := pagesize c; contents := code c |}]
    end in
  f ← open_wb (filename c);
  write_file f (PdfDoc pages).

(** [PdfFileReader(stream)] *)
Definition PdfFileReader (stream : Content) : M (list Page) :=
  match stream with
  | PdfDoc pages => mret pages
  | RawBytes _ => raise PdfReadError
  end.

(** [reader.getPage(i)] *)
Definition getPage (reader : list Page) (i : nat) : M Page :=
  match nth_error reader i with
  | Some page => mret page
  | None => raise IndexError
  end.

(** [reader.getNumPages()] *)
Definition getNumPages (reader : list Page) : Z := Z.of_nat (List.length reader).

(** [PdfFileWriter()], [writer.addPage(page)], [writer.write(stream)] *)
Definition PdfFileWriter : list Page := [].
Definition addPage (page : Page) (writer : list Page) : list Page := writer ++ [page].
Definition PdfFileWriter_write (writer : list Page) (stream : Path) : M unit :=
  write_file stream (PdfDoc writer).

(** ** logging *)

(** [logging.basicConfig(level=...)]: nothing when the root logger is
    already configured. *)
Definition basicConfig (level : option nat) : M unit :=
  modify (λ w,
    if has_handlers w then w
    else set_logging true (default (root_level w) level) (emitted w) w).

(** [logging.info(msg, *args)] *)
Definition logging_info (msg : string) (args : list PathLike) : M unit :=
  basicConfig None;;
  modify (λ w,
    if (root_level w <=? INFO)%nat
    then set_logging (has_handlers w) (root_level w)
           ({| levelno := INFO; msg := msg; args := args |} :: emitted w) w
    else w).

(** ** watermark.py *)

Definition MAX_TEXT_LENGTH : nat := 28.

(** [p.with_suffix(suffix)], for a suffix that is valid (as [".pdf"] is). *)
Definition with_suffix (p : Path) (new_suffix : string) : M Path :=
  let nm := name p in
  if String.eqb nm "" then raise ValueError
  else
    let old_suffix := suffix p in
    let nm :=
      if String.eqb old_suffix "" then nm ++ new_suffix
      else Str.take (String.length nm - String.length old_suffix) nm ++ new_suffix in
    mret {| root := root p; parts := List.removelast (parts p) ++ [nm] |}.

Definition correct_pdf_path (file_path : Path) : M Path :=
  if String.eqb (suffix file_path) ".pdf" then mret file_path
  else with_suffix file_path ".pdf".

(** The three lines both writers of temporary files share: a name from
    [uuid] and [tempfile] unless the caller gave one. *)
Definition temp_or_given (prefix : string) (output_file_path : option PathLike) : M Path :=
  match output_file_path with
  | None =>
      u ← uuid4;
      let unique_id := Str.take 8 (uuid_hex u) in
      dir ← gettempdir;
      mkstemp ("_" ++ unique_id ++ ".pdf") prefix dir
  | Some given => mret (Path_of given)
  end.

Definition create_watermark (text : string) (output_file_path : option PathLike) : M Path :=
  py_assert (String.length text <? MAX_TEXT_LENGTH)%nat;;
  output_file_path ← temp_or_given ("watermark_" ++ text) output_file_path;
  output_file_path ← correct_pdf_path output_file_path;
  let pdf := Canvas_new output_file_path A4 in
  let pdf := draw_op (OpFillColor gray 0.6) pdf in
  let pdf := draw_op (OpFont "Helvetica" 50) pdf in
  let pdf := draw_op (OpRotate 45) pdf in
  let pdf := draw_op (OpCentredString 500 100 text) pdf in
  Canvas_save pdf;;
  mret output_file_path.

Definition duplicate_watermark (watermark_path : PathLike) (page_count : Z)
    (output_file_path : option PathLike) : M Path :=
  output_file_path ← temp_or_given "watermark_tmp" output_file_path;
  output_file_path ← correct_pdf_path output_file_path;
  let tmp_output := PdfFileWriter in
  watermark_file ← open_rb (Path_of watermark_path);
  watermark_pdf ← PdfFileReader watermark_file;
  watermark_page ← getPage watermark_pdf 0;
  tmp_output ← for_each (range page_count)
                  (λ _ tmp_output, mret (addPage watermark_page tmp_output))
                  tmp_output;
  tmp_output_file ← open_wb output_file_path;
  PdfFileWriter_write tmp_output tmp_output_file;;
  mret output_file_path.

(** The [while] loop of [ensure_new_file]; it runs for ever when it is
    out of [fuel]. *)
Fixpoint ensure_new_file_loop (fuel : nat) (file_path : Path) (index : nat) : M Path :=
  match fuel with
  | 0 => diverge
  | S fuel' =>
      taken ← Path_exists file_path;
      if taken : bool then
        ensure_new_file_loop fuel'
          (Path_join (parent file_path)
             (stem file_path ++ "_" ++ Str.of_nat index ++ suffix file_path))
          (index + 1)
      else mret file_path
  end.

(** One more test than there are entries is all the loop can need. *)
Definition ensure_new_file (file_path : Path) : M Path :=
  w ← get_world;
  ensure_new_file_loop (S (size (fs w))) file_path 1.

Definition add_watermark (input_file_path watermark_file_path : PathLike) : M unit :=
  let input_file_path := Path_of input_file_path in
  let new_file_path :=
    Path_join (parent input_file_path) (stem input_file_path ++ "_watermarked.pdf") in
  new_file_path ← ensure_new_file new_file_path;
  input_file ← open_rb input_file_path;
  input_pdf ← PdfFileReader input_file;
  let page_count := getNumPages input_pdf in
  tmp_watermark_file_path ← duplicate_watermark watermark_file_path page_count None;
  let output := PdfFileWriter in
  tmp_watermark_file ← open_rb tmp_watermark_file_path;
  tmp_watermark_pdf ← PdfFileReader tmp_watermark_file;
  output ← for_each (range page_count)
              (λ i output,
                 pdf_page ← getPage input_pdf i;
                 page2 ← getPage tmp_watermark_pdf i;
                 let pdf_page := merge_page pdf_page page2 in
                 mret (addPage pdf_page output))
              output;
  new_file ← open_wb new_file_path;
  PdfFileWriter_write output new_file.

Definition setup_logging : M unit := basicConfig (Some INFO).

(** What [argparse] hands to [main]: [None] for an option that was not
    given. *)
Record Args := {
  watermark_text : string;
  input_files : option (list string);
  exclude : option (list string)
}.

(** [x not in l] *)
Definition not_in (x : string) (l : list string) : bool :=
  negb (existsb (String.eqb x) l).

(** Lines 148 to 154 of [main]: the files to process. *)
Definition select_files (args : Args) : M (list PathLike) :=
  let exclude_list := match exclude args with None => [] | Some l => l end in
  let file_list := match input_files args with None => [] | Some l => l end in
  cwd ← Path_cwd;
  match file_list with
  | [] =>
      found ← glob_pdf cwd;
      mret (map AsPath (List.filter (λ f, not_in (name f) exclude_list) found))
  | _ =>
      mret (map AsStr
              (List.filter (λ f, not_in (name (Path_of_string f)) exclude_list)
                 (default [] (input_files args))))
  end.

Definition main (args : Args) : M unit :=
  file_list ← select_files args;
  watermark_file_path ← create_watermark (watermark_text args) None;
  setup_logging;;
  for_each file_list
    (λ input_file _,
       logging_info "Processing file: %s" [input_file];;
       add_watermark input_file (AsPath watermark_file_path))
    tt;;
  logging_info "All done!" [].

(** * The vocabulary of the statements

    Names for the expressions of the script that the lemmas and theorems
    below speak about, and the predicates they are stated with. *)

(** A decimal digit. *)
Definition is_digit (c : ascii) : bool :=
  existsb (Ascii.eqb c) ["0"; "1"; "2"; "3"; "4"; "5"; "6"; "7"; "8"; "9"]%char.

(** The last piece of a string cut at the separators. *)
Definition last_piece (a : string) : string := List.last (Str.split "/" a) "".

(** An extension: a dot and at least one character, none of them a dot. *)
Definition is_ext (e : string) : bool :=
  match e with
  | String "." r => negb (String.eqb r "") && negb (Str.mem "." r)
  | _ => false
  end.

Ltac exec :=
  repeat progress
    (unfold mbind, M_bind, mret, M_ret, get_world, syscall, modify, raise, diverge;
     cbn beta iota;
     cbn [fs env journal cursor has_handlers root_level emitted
          set_fs set_journal set_cursor set_logging fst snd]).

(** The next path the loop of [ensure_new_file] tries. *)
Definition candidate (file_path : Path) (index : nat) : Path :=
  Path_join (parent file_path)
    (stem file_path ++ "_" ++ Str.of_nat index ++ suffix file_path).

(** A call of [Path.exists]. *)
Definition is_stat (ev : Event) : Prop := ∃ p, ev = EvStat p.

(** What is at a path, contents apart: nothing, a directory or a file. *)
Definition kind (e : option Entry) : option bool :=
  match e with
  | None => None
  | Some Directory => Some true
  | Some (Regular _) => Some false
  end.

(** A digit of [uuid.hex]. *)
Definition is_hex (c : ascii) : bool :=
  existsb (Ascii.eqb c)
    ["0"; "1"; "2"; "3"; "4"; "5"; "6"; "7"; "8"; "9";
     "a"; "b"; "c"; "d"; "e"; "f"]%char.

Fixpoint all_hex (s : string) : bool :=
  match s with
  | EmptyString => true
  | String c s' => is_hex c && all_hex s'
  end.

(** [uuid.uuid4().hex[:8]] *)
Definition unique_id (u : N) : string := Str.take 8 (uuid_hex u).

(** The suffix both writers pass to [mkstemp]. *)
Definition tail (u : N) : string := "_" ++ unique_id u ++ ".pdf".

(** A prefix that does not start at the root. *)
Definition relative (pre : string) : bool :=
  match pre with
  | String c _ => negb (Ascii.eqb c "/")
  | EmptyString => false
  end.

(** The path of a temporary file: in or below [dir], with a name that
    ends in an underscore, eight hexadecimal digits and [.pdf]. *)
Definition temp_path (dir : Path) (pre : string) (n u : N) : Path :=
  Path_join dir (pre ++ name_of 8 n ++ tail u).

(** Its name without [.pdf]. *)
Definition temp_stem (pre : string) (n u : N) : string :=
  last_piece (pre ++ name_of 8 n) ++ "_" ++ unique_id u.

(** [m] maintains the invariant [I] whatever its outcome, and a value it
    returns satisfies [φ]. *)
Definition keeps {A} (I : World → Prop) (m : M A) (φ : A → Prop) : Prop :=
  ∀ w, I w → I (m w).2 ∧ ∀ a, (m w).1 = Ok a → φ a.

(** An event is harmless for a file system if it opens for writing only
    paths at which that file system has nothing. *)
Definition harmless (f0 : gmap Path Entry) (ev : Event) : Prop :=
  ∀ q, written ev = Some q → f0 !! q = None.

(** [w] is a world reached from [w0] without touching what [w0] held. *)
Definition Inv (w0 w : World) : Prop :=
  fs w0 ⊆ fs w ∧
  ∃ evs, journal w = (evs ++ journal w0)%list ∧ Forall (harmless (fs w0)) evs.

(** The state of [logging] is the one given. *)
Definition logs (h : bool) (l : nat) (r : list LogRecord) (w : World) : Prop :=
  has_handlers w = h ∧ root_level w = l ∧ emitted w = r.

(** What the stems of the paths tried by [ensure_new_file] look like
    when it starts from [<s0>_watermarked.pdf]: they extend [s0 ++ "_"],
    they grow by two characters or more each round, and for the first
    ten rounds they end in something that is not hexadecimal. *)
Definition shape (s0 : string) (idx : nat) (x : string) : Prop :=
  (∃ r, x = (s0 ++ "_" ++ r)%string) ∧
  (2 * idx + 10 ≤ String.length x)%nat ∧
  ((idx ≤ 10)%nat → ∃ y t, x = (y ++ t)%string ∧ (String.length t ≤ 8)%nat ∧ all_hex t = false).

(** The path [add_watermark] asks [ensure_new_file] about. *)
Definition wanted (input_file_path : Path) : Path :=
  Path_join (parent input_file_path) (stem input_file_path ++ "_watermarked.pdf").

(** The page [create_watermark] draws. *)
Definition watermark_page (text : string) : Page :=
  {| mediabox := A4;
     contents := [OpFillColor gray 0.6; OpFont "Helvetica" 50; OpRotate 45;
                  OpCentredString 500 100 text] |}.

(** The calls of [mkstemp] that end with the creation of [p]. *)
Definition excl_for (p : Path) (ev : Event) : Prop :=
  ∃ q b, ev = EvOpenExcl q b ∧ (b = true → q = p).

(** A temporary file with this prefix can be created in this world. *)
Definition allocates (pre : string) (w : World) : Prop :=
  ∃ p, (temp_or_given pre None w).1 = Ok p.

(** The list [main] filters: the arguments of [-f] when there are any,
    the [*.pdf] entries of the current directory otherwise. *)
Definition candidates (args : Args) (w : World) : list PathLike :=
  match input_files args with
  | Some (f :: l) => map AsStr (f :: l)
  | _ => map AsPath (pdf_entries (cwd (env w)) (fs w))
  end.

(** Those whose base name is not excluded. *)
Definition selected (args : Args) (w : World) : list PathLike :=
  List.filter (λ x, not_in (name (Path_of x)) (default [] (exclude args)))
    (candidates args w).

(** The record [main] logs before it processes [x]. *)
Definition processing (x : PathLike) : LogRecord :=
  {| levelno := INFO; msg := "Processing file: %s"; args := [x] |}.

(** The files announced as processed, oldest first. *)
Definition processed (w : World) : list PathLike :=
  flat_map args
    (List.filter (λ r, String.eqb (msg r) "Processing file: %s") (rev (emitted w))).

(** The second path [ensure_new_file] tries for [add_watermark]. *)
Definition second (p : Path) : Path :=
  Path_join (parent p) (stem p ++ "_watermarked_1.pdf").

(** A run of [main] on one file given with [-f]. *)
Definition one_file (text s : string) : Args :=
  {| watermark_text := text; input_files := Some [s]; exclude := None |}.

(** The pages of a document with the watermark for [text] merged onto
    each. *)
Definition merged (text : string) (pages : list Page) : list Page :=
  map (λ page, merge_page page (watermark_page text)) pages.

(** The record [main] logs last. *)
Definition all_done : LogRecord :=
  {| levelno := INFO; msg := "All done!"; args := [] |}.

(** The indices the loop of [ensure_new_file] has appended after
    [count] rounds that began at [start]: ["_1_2_3"] for [index_chain 1 3]. *)
Fixpoint index_chain (start count : nat) : string :=
  match count with
  | 0 => ""
  | S count' => "_" ++ Str.of_nat start ++ index_chain (S start) count'
  end.

(** The path the loop of [ensure_new_file] tests in round [j], counted
    from 0, when it is called on a path with an extension. *)
Definition tried (p : Path) (j : nat) : Path :=
  match j with
  | 0 => p
  | S _ => Path_join (parent p) (stem p ++ index_chain 1 j ++ suffix p)
  end.

(** What [PdfFileReader(open(p, "rb"))] raises, by what is at [p]. *)
Definition read_error (e : option Entry) : option Exception :=
  match e with
  | None => Some FileNotFoundError
  | Some Directory => Some IsADirectoryError
  | Some (Regular (RawBytes _)) => Some PdfReadError
  | Some (Regular (PdfDoc _)) => None
  end.

(** What reading the first page of the document at [p] raises. *)
Definition first_page_error (e : option Entry) : option Exception :=
  match e with
  | Some (Regular (PdfDoc [])) => Some IndexError
  | _ => read_error e
  end.

(** [open(p, "wb")] succeeds: a regular file is at [p], or nothing is and
    the directory of [p] exists. *)
Definition writable (f : gmap Path Entry) (p : Path) : bool :=
  match f !! p with
  | Some (Regular _) => true
  | Some Directory => false
  | None => is_directory (f !! parent p)
  end.

(** The root logger has a handler and is at level [l]; if that is above
    [INFO], the records are [r]. *)
Definition configured (l : nat) (r : list LogRecord) (w : World) : Prop :=
  has_handlers w = true ∧ root_level w = l ∧ ((INFO < l)%nat → emitted w = r).

(** * A small world to run the script in *)

Module Demo.

(** A page with one line of text. *)
Definition page (t : string) : Page :=
  {| mediabox := A4; contents := [OpCentredString 72 720 t] |}.

(** A process environment with a fixed random source. *)
Definition demo_env : Env :=
  {| tempdir := Path_of_string "/tmp";
     cwd := Path_of_string "/home/u";
     TMP_MAX := 100;
     entropy := λ i, (N.of_nat i * 0x9e3779b97f4a7c15f39cc0605cedc835
                      + 0x243f6a8885a308d313198a2e03707344)%N |}.

(** [/home/u] holds a three-page [name.pdf], a zero-page [empty.pdf] and
    a text file; [/tmp] holds a watermark document of two pages. *)
Definition demo_fs : gmap Path Entry :=
  list_to_map
    [(Path_of_string "/", Directory);
     (Path_of_string "/tmp", Directory);
     (Path_of_string "/home", Directory);
     (Path_of_string "/home/u", Directory);
     (Path_of_string "/home/u/name.pdf",
      Regular (PdfDoc [page "one"; page "two"; page "three"]));
     (Path_of_string "/home/u/empty.pdf", Regular (PdfDoc []));
     (Path_of_string "/home/u/notes.txt", Regular (RawBytes "notes"));
     (Path_of_string "/tmp/mark.pdf",
      Regular (PdfDoc [page "DRAFT"; page "second page of the watermark"]))].

(** A process that has just started there. *)
Definition demo : World :=
  {| env := demo_env; fs := demo_fs; journal := []; cursor := 0;
     has_handlers := false; root_level := WARNING; emitted := [] |}.

(** The same directory after two runs on [name.pdf]: both
    [name_watermarked.pdf] and [name_watermarked_1.pdf] are there. *)
Definition taken_twice : World :=
  set_fs (<[Path_of_string "/home/u/name_watermarked.pdf" := Regular (PdfDoc [])]>
            (<[Path_of_string "/home/u/name_watermarked_1.pdf" := Regular (PdfDoc [])]>
               demo_fs)) demo.

(** A new process that finds the files [w] left. *)
Definition restart (w : World) : World :=
  {| env := demo_env; fs := fs w; journal := []; cursor := 40;
     has_handlers := false; root_level := WARNING; emitted := [] |}.

End Demo.

(** * Facts about strings *)

Module StrFacts.

Lemma length_app (a b : string) :
  String.length (a ++ b) = String.length a + String.length b.
Proof. induction a as [|c a IH]; simpl; [done | by rewrite IH]. Qed.

Lemma app_assoc (a b c : string) : ((a ++ b) ++ c = a ++ (b ++ c))%string.
Proof. induction a as [|x a IH]; simpl; [done | by rewrite IH]. Qed.

Lemma app_nil_r (a : string) : (a ++ "" = a)%string.
Proof. induction a as [|x a IH]; simpl; [done | by rewrite IH]. Qed.

Lemma length_zero (a : string) : String.length a = 0 → a = "".
Proof. by destruct a. Qed.

Lemma take_app_length (a b : string) : Str.take (String.length a) (a ++ b) = a.
Proof. induction a as [|x a IH]; simpl; [by destruct b | by rewrite IH]. Qed.

Lemma drop_app_length (a b : string) : Str.drop (String.length a) (a ++ b) = b.
Proof. induction a as [|x a IH]; simpl; [by destruct b | done]. Qed.

Lemma take_drop (n : nat) (s : string) : (Str.take n s ++ Str.drop n s = s)%string.
Proof.
  revert s; induction n as [|n IH]; intros [|c s]; simpl; try done.
  by rewrite IH.
Qed.

Lemma length_take_drop (n : nat) (s : string) :
  String.length (Str.take n s) + String.length (Str.drop n s) = String.length s.
Proof. by rewrite <- length_app, take_drop. Qed.

Lemma mem_app (c : ascii) (a b : string) :
  Str.mem c (a ++ b) = Str.mem c a || Str.mem c b.
Proof.
  induction a as [|x a IH]; simpl; [done|].
  by rewrite IH, orb_assoc.
Qed.

Lemma mem_take (c : ascii) (n : nat) (s : string) :
  Str.mem c s = false → Str.mem c (Str.take n s) = false.
Proof.
  intros H. rewrite <- (take_drop n s), mem_app in H.
  by apply orb_false_iff in H as [? _].
Qed.

Lemma mem_drop (c : ascii) (n : nat) (s : string) :
  Str.mem c s = false → Str.mem c (Str.drop n s) = false.
Proof.
  intros H. rewrite <- (take_drop n s), mem_app in H.
  by apply orb_false_iff in H as [_ ?].
Qed.

Lemma rfind_not_mem (c : ascii) (s : string) :
  Str.mem c s = false → Str.rfind c s = None.
Proof.
  induction s as [|x s IH]; simpl; [done|].
  intros [Hx Hs]%orb_false_iff. by rewrite IH, Hx.
Qed.

Lemma rfind_app (c : ascii) (a b : string) :
  Str.rfind c (a ++ b) =
    match Str.rfind c b with
    | Some j => Some (String.length a + j)
    | None => Str.rfind c a
    end.
Proof.
  induction a as [|x a IH]; simpl.
  - by destruct (Str.rfind c b).
  - rewrite IH. by destruct (Str.rfind c b).
Qed.

Lemma rfind_lt (c : ascii) (s : string) (i : nat) :
  Str.rfind c s = Some i → i < String.length s.
Proof.
  revert i; induction s as [|x s IH]; simpl; intros i; [done|].
  destruct (Str.rfind c s) as [j|].
  - intros [= <-]. specialize (IH j eq_refl). lia.
  - destruct (Ascii.eqb x c); intros [= <-]. lia.
Qed.

(** ** [split] *)

Lemma split_not_nil (c : ascii) (s : string) : Str.split c s ≠ [].
Proof.
  induction s as [|x s IH]; simpl; [done|].
  destruct (Ascii.eqb x c); [done|]. by destruct (Str.split c s).
Qed.

Lemma split_not_mem (c : ascii) (s : string) :
  Str.mem c s = false → Str.split c s = [s].
Proof.
  induction s as [|x s IH]; simpl; [done|].
  intros [Hx Hs]%orb_false_iff. by rewrite Hx, IH.
Qed.

Lemma split_pieces (c : ascii) (s : string) :
  Forall (λ x, Str.mem c x = false) (Str.split c s).
Proof.
  induction s as [|x s IH]; simpl; [by constructor|].
  destruct (Ascii.eqb x c) eqn:Hx; [by constructor|].
  destruct (Str.split c s) as [|y ys]; [by constructor; simpl; rewrite ?Hx|].
  inversion IH; subst. constructor; [|done]. simpl. by rewrite Hx.
Qed.

(** A tail without separators extends the last piece. *)
Lemma split_app_tail (c : ascii) (a t : string) :
  Str.mem c t = false →
  Str.split c (a ++ t) =
    (removelast (Str.split c a) ++ [List.last (Str.split c a) "" ++ t]%string)%list.
Proof.
  intros Ht. induction a as [|x a IH]; simpl.
  - by apply split_not_mem.
  - destruct (Ascii.eqb x c).
    + rewrite IH. pose proof (split_not_nil c a).
      destruct (Str.split c a) eqn:E; [done|]. done.
    + rewrite IH. pose proof (split_not_nil c a).
      destruct (Str.split c a) as [|y ys] eqn:E; [done|].
      destruct ys as [|z zs]; simpl; [done|]. done.
Qed.

(** ** Decimal numerals *)

Lemma mem_string_of_uint (c : ascii) (d : Decimal.uint) :
  is_digit c = false → Str.mem c (NilEmpty.string_of_uint d) = false.
Proof.
  unfold is_digit. simpl. intros Hc.
  repeat (apply orb_false_iff in Hc as [?%Ascii.eqb_neq Hc]).
  induction d; cbn [Str.mem NilEmpty.string_of_uint]; [done|..];
    rewrite IHd, orb_false_r; apply Ascii.eqb_neq; congruence.
Qed.

Lemma mem_of_nat (c : ascii) (n : nat) :
  is_digit c = false → Str.mem c (Str.of_nat n) = false.
Proof.
  intros Hc. unfold Str.of_nat, NilZero.string_of_uint.
  destruct (Nat.to_uint n) eqn:E; try (rewrite <- E); try by apply mem_string_of_uint.
  cbn [Str.mem]. rewrite orb_false_r. apply Ascii.eqb_neq. by intros <-.
Qed.

Lemma of_nat_not_empty (n : nat) : Str.of_nat n ≠ "".
Proof.
  unfold Str.of_nat, NilZero.string_of_uint.
  by destruct (Nat.to_uint n).
Qed.

End StrFacts.

(** * Facts about paths *)

Module PathFacts.
Import StrFacts.

Lemma splitroot_relative (s : string) :
  Str.mem "/" s = false → splitroot s = ("", s).
Proof.
  destruct s as [|c s]; [done|]. cbn [Str.mem splitroot].
  intros [-> _]%orb_false_iff. done.
Qed.

Lemma is_component_long (x : string) : (2 ≤ String.length x)%nat → is_component x = true.
Proof.
  destruct x as [|a [|b x]]; cbn [String.length]; [lia | lia |].
  intros _. unfold is_component. cbn [String.eqb negb andb].
  by destruct (Ascii.eqb a ".").
Qed.

Lemma wf_part_component (x : string) : wf_part x = true → is_component x = true.
Proof. unfold wf_part. by intros [? _]%andb_true_iff. Qed.

Lemma rel_parts_single (s : string) :
  Str.mem "/" s = false → is_component s = true → rel_parts s = [s].
Proof.
  intros Hs Hk. unfold rel_parts. rewrite split_not_mem by done.
  cbn [List.filter]. by rewrite Hk.
Qed.

Lemma mem_last_piece (a : string) : Str.mem "/" (last_piece a) = false.
Proof.
  unfold last_piece. pose proof (split_pieces "/" a) as H.
  pose proof (split_not_nil "/" a) as Hn.
  induction (Str.split "/" a) as [|x l IH]; [done|].
  inversion H; subst. destruct l; [done|]. apply IH; done.
Qed.

Lemma rel_parts_app_tail (a t : string) :
  Str.mem "/" t = false → (2 ≤ String.length t)%nat →
  ∃ l, rel_parts (a ++ t) = (l ++ [last_piece a ++ t]%string)%list ∧
       Forall (λ x, wf_part x = true) l.
Proof.
  intros Ht Hl. unfold rel_parts. rewrite split_app_tail by done.
  rewrite List.filter_app. cbn [List.filter]. fold (last_piece a).
  rewrite (is_component_long (last_piece a ++ t)) by (rewrite length_app; lia).
  eexists; split; [reflexivity|].
  pose proof (split_pieces "/" a) as H.
  induction (Str.split "/" a) as [|x l IH]; [by constructor|].
  inversion H; subst. destruct l as [|y l]; [by constructor|].
  cbn [removelast List.filter].
  destruct (is_component x) eqn:E.
  - constructor; [|by apply IH]. unfold wf_part. by rewrite E, H2.
  - by apply IH.
Qed.

Lemma Path_join_single (d : Path) (s : string) :
  Str.mem "/" s = false → is_component s = true →
  Path_join d s = {| root := root d; parts := parts d ++ [s] |}.
Proof.
  intros Hs Hk. unfold Path_join.
  by rewrite splitroot_relative, rel_parts_single.
Qed.

Lemma name_snoc (r : string) (l : list string) (x : string) :
  name {| root := r; parts := l ++ [x] |} = x.
Proof. unfold name. cbn [parts]. apply List.last_last. Qed.

Lemma parent_snoc (r : string) (l : list string) (x : string) :
  parent {| root := r; parts := l ++ [x] |} = {| root := r; parts := l |}.
Proof. unfold parent. cbn [parts root]. by rewrite List.removelast_last. Qed.

Lemma Path_eta (p : Path) : {| root := root p; parts := parts p |} = p.
Proof. by destruct p. Qed.

(** A relative string with a long tail free of separators: the name of
    the joined path ends in the tail. *)
Lemma name_Path_join_tail (d : Path) (a t : string) :
  splitroot (a ++ t) = ("", a ++ t)%string →
  Str.mem "/" t = false → (2 ≤ String.length t)%nat →
  name (Path_join d (a ++ t)) = (last_piece a ++ t)%string.
Proof.
  intros Hr Ht Hl. unfold Path_join. rewrite Hr. cbn [String.eqb].
  destruct (rel_parts_app_tail a t Ht Hl) as (l & -> & _).
  rewrite List.app_assoc. apply name_snoc.
Qed.

(** ** Stem and suffix *)

Lemma stem_suffix (nm : string) : (name_stem nm ++ name_suffix nm = nm)%string.
Proof.
  unfold name_stem, name_suffix. destruct (suffix_index nm).
  - apply take_drop.
  - apply app_nil_r.
Qed.

Lemma length_stem_suffix (nm : string) :
  String.length (name_stem nm) + String.length (name_suffix nm) = String.length nm.
Proof. by rewrite <- length_app, stem_suffix. Qed.

Lemma suffix_index_ext (x e : string) :
  x ≠ "" → is_ext e = true →
  suffix_index (x ++ e) = Some (String.length x).
Proof.
  intros Hx He. destruct e as [|c r]; [done|].
  unfold is_ext in He. destruct (Ascii.eqb_spec c ".") as [->|Hc].
  2:{ destruct c as [[] [] [] [] [] [] [] []]; done. }
  apply andb_true_iff in He as [Hr Hm].
  apply negb_true_iff in Hm. apply negb_true_iff, String.eqb_neq in Hr.
  unfold suffix_index. rewrite rfind_app. cbn [Str.rfind].
  rewrite (rfind_not_mem _ _ Hm). cbn [Ascii.eqb Bool.eqb].
  rewrite Nat.add_0_r, length_app. cbn [String.length].
  destruct x as [|a x]; [done|]. destruct r as [|b r]; [done|].
  cbn [String.length].
  replace (0 <? S (String.length x))%nat with true by (symmetry; apply Nat.ltb_lt; lia).
  replace (S (String.length x) <? _)%nat with true by (symmetry; apply Nat.ltb_lt; lia).
  done.
Qed.

Lemma name_stem_ext (x e : string) :
  x ≠ "" → is_ext e = true → name_stem (x ++ e) = x.
Proof.
  intros. unfold name_stem. rewrite suffix_index_ext by done.
  apply take_app_length.
Qed.

Lemma name_suffix_ext (x e : string) :
  x ≠ "" → is_ext e = true → name_suffix (x ++ e) = e.
Proof.
  intros. unfold name_suffix. rewrite suffix_index_ext by done.
  apply drop_app_length.
Qed.

Lemma mem_stem (c : ascii) (nm : string) :
  Str.mem c nm = false → Str.mem c (name_stem nm) = false.
Proof. unfold name_stem. destruct (suffix_index nm); [apply mem_take | done]. Qed.

Lemma mem_suffix (c : ascii) (nm : string) :
  Str.mem c nm = false → Str.mem c (name_suffix nm) = false.
Proof. unfold name_suffix. destruct (suffix_index nm); [apply mem_drop | done]. Qed.

(** ** Well-formed paths *)

Lemma wf_path_Forall (p : Path) :
  wf_path p = true ↔ Forall (λ x, wf_part x = true) (parts p).
Proof. unfold wf_path. rewrite forallb_forall, List.Forall_forall. done. Qed.

Lemma rel_parts_wf (s : string) : Forall (λ x, wf_part x = true) (rel_parts s).
Proof.
  unfold rel_parts. pose proof (split_pieces "/" s) as H.
  induction (Str.split "/" s) as [|x l IH]; [by constructor|].
  inversion H; subst. cbn [List.filter].
  destruct (is_component x) eqn:E; [|by apply IH].
  constructor; [|by apply IH]. unfold wf_part. by rewrite E, H2.
Qed.

Lemma wf_Path_of_string (s : string) : wf_path (Path_of_string s) = true.
Proof.
  apply wf_path_Forall. unfold Path_of_string.
  destruct (splitroot s). apply rel_parts_wf.
Qed.

Lemma wf_parent (p : Path) : wf_path p = true → wf_path (parent p) = true.
Proof.
  rewrite !wf_path_Forall. unfold parent. cbn [parts].
  induction 1 as [|x l Hx Hl IH]; [by constructor|].
  destruct l; [by constructor|]. by constructor.
Qed.

Lemma mem_name (p : Path) : wf_path p = true → Str.mem "/" (name p) = false.
Proof.
  rewrite wf_path_Forall. unfold name.
  induction 1 as [|x l Hx Hl IH]; [done|].
  destruct l; [|done]. cbn [List.last].
  unfold wf_part in Hx. apply andb_true_iff in Hx as [_ Hx].
  by apply negb_true_iff in Hx.
Qed.

Lemma wf_path_join_single (d : Path) (s : string) :
  wf_path d = true → Str.mem "/" s = false → is_component s = true →
  wf_path (Path_join d s) = true.
Proof.
  intros Hd Hs Hk. rewrite Path_join_single by done.
  apply wf_path_Forall. cbn [parts]. apply Forall_app. split.
  - by apply wf_path_Forall.
  - constructor; [|by constructor]. unfold wf_part. by rewrite Hk, Hs.
Qed.

Lemma parent_join_single (p : Path) (s : string) :
  Str.mem "/" s = false → is_component s = true →
  parent (Path_join (parent p) s) = parent p.
Proof.
  intros. rewrite Path_join_single by done. by rewrite parent_snoc.
Qed.

Lemma name_join_single (d : Path) (s : string) :
  Str.mem "/" s = false → is_component s = true → name (Path_join d s) = s.
Proof. intros. rewrite Path_join_single by done. apply name_snoc. Qed.

End PathFacts.

(** * Running the primitives *)

Module Run.

Lemma bind_run {A B} (m : M A) (k : A → M B) (w : World) :
  (m ≫= k) w =
    match m w with
    | (Ok a, w') => k a w'
    | (Raise e, w') => (Raise e, w')
    | (Diverge, w') => (Diverge, w')
    end.
Proof. reflexivity. Qed.

Lemma ret_run {A} (a : A) (w : World) : (mret a : M A) w = (Ok a, w).
Proof. reflexivity. Qed.

Lemma Path_exists_run (p : Path) (w : World) :
  Path_exists p w =
    (Ok (bool_decide (is_Some (fs w !! p))), set_journal (EvStat p :: journal w) w).
Proof. reflexivity. Qed.

Lemma open_rb_run (p : Path) (w : World) :
  open_rb p w =
    (match fs w !! p with
     | Some (Regular c) => Ok c
     | Some Directory => Raise IsADirectoryError
     | None => Raise FileNotFoundError
     end, set_journal (EvOpenRead p :: journal w) w).
Proof. unfold open_rb. exec. by destruct (fs w !! p) as [[|c]|]. Qed.

Lemma open_wb_new (p : Path) (w : World) :
  fs w !! p = None → fs w !! parent p = Some Directory →
  open_wb p w =
    (Ok p, set_fs (<[p := Regular (RawBytes "")]> (fs w))
             (set_journal (EvOpenWrite p true :: journal w) w)).
Proof.
  intros Hp Hd. unfold open_wb, check_parent. exec. rewrite Hp. exec.
  by rewrite Hd.
Qed.

Lemma open_wb_old (p : Path) (c : Content) (w : World) :
  fs w !! p = Some (Regular c) →
  open_wb p w =
    (Ok p, set_fs (<[p := Regular (RawBytes "")]> (fs w))
             (set_journal (EvOpenWrite p false :: journal w) w)).
Proof. intros Hp. unfold open_wb. exec. by rewrite Hp. Qed.

Lemma write_file_run (h : Path) (c : Content) (w : World) :
  write_file h c w = (Ok tt, set_fs (<[h := Regular c]> (fs w)) w).
Proof. reflexivity. Qed.

Lemma open_excl_taken (p : Path) (e : Entry) (w : World) :
  fs w !! p = Some e →
  open_excl p w = (Ok false, set_journal (EvOpenExcl p false :: journal w) w).
Proof. intros Hp. unfold open_excl. exec. by rewrite Hp. Qed.

Lemma open_excl_new (p : Path) (w : World) :
  fs w !! p = None → fs w !! parent p = Some Directory →
  open_excl p w =
    (Ok true, set_fs (<[p := Regular (RawBytes "")]> (fs w))
                (set_journal (EvOpenExcl p true :: journal w) w)).
Proof.
  intros Hp Hd. unfold open_excl, check_parent. exec. rewrite Hp. exec.
  by rewrite Hd.
Qed.

Lemma open_excl_no_dir (p : Path) (w : World) :
  fs w !! p = None → is_directory (fs w !! parent p) = false →
  ∃ e, open_excl p w =
    (Raise e, set_journal (EvOpenExcl p false :: journal w) w).
Proof.
  intros Hp Hd. unfold open_excl, check_parent. exec. rewrite Hp. exec.
  rewrite Hd. destruct (fs w !! parent p) as [[|c]|]; [done|..]; eauto.
Qed.

Lemma draw_run (w : World) :
  draw w = (Ok (entropy (env w) (cursor w)), set_cursor (S (cursor w)) w).
Proof. reflexivity. Qed.

Lemma for_each_pure {A S} (l : list A) (f : A → S → S) (s : S) (w : World) :
  for_each l (λ x s, mret (f x s)) s w = (Ok (fold_left (λ s x, f x s) l s), w).
Proof.
  revert s; induction l as [|x l IH]; intros s; [done|].
  cbn [for_each]. rewrite bind_run. cbn [fold_left]. apply IH.
Qed.

End Run.

(** * The output path resolver *)

Module Resolver.
Import StrFacts PathFacts Run.

Lemma loop_step (fuel : nat) (c : Path) (idx : nat) (w : World) :
  ensure_new_file_loop (S fuel) c idx w =
    if bool_decide (is_Some (fs w !! c))
    then ensure_new_file_loop fuel (candidate c idx) (idx + 1)
           (set_journal (EvStat c :: journal w) w)
    else (Ok c, set_journal (EvStat c :: journal w) w).
Proof.
  cbn [ensure_new_file_loop]. rewrite bind_run, Path_exists_run.
  by destruct (bool_decide _).
Qed.

Lemma set_journal_id (w : World) : set_journal (journal w) w = w.
Proof. by destruct w. Qed.

(** The loop only looks: it changes nothing but the journal, it never
    raises, and what it returns is not there. *)
Lemma loop_spec (fuel : nat) (c : Path) (idx : nat) (w : World) :
  ∃ evs,
    (ensure_new_file_loop fuel c idx w).2 = set_journal (evs ++ journal w) w ∧
    Forall is_stat evs ∧
    match (ensure_new_file_loop fuel c idx w).1 with
    | Ok q => fs w !! q = None
    | Raise _ => False
    | Diverge => True
    end.
Proof.
  revert c idx w; induction fuel as [|fuel IH]; intros c idx w.
  - exists []. cbn. by rewrite set_journal_id.
  - rewrite loop_step. destruct (bool_decide _) eqn:E.
    + destruct (IH (candidate c idx) (idx + 1) (set_journal (EvStat c :: journal w) w))
        as (evs & Hw & Hevs & Hr).
      exists (evs ++ [EvStat c])%list. rewrite Hw. cbn [journal set_journal fs] in *.
      rewrite <- List.app_assoc. split; [done|]. split; [|done].
      apply Forall_app. split; [done|]. constructor; [by eexists | constructor].
    + exists [EvStat c]. cbn. split; [done|]. split.
      * constructor; [by eexists | constructor].
      * apply bool_decide_eq_false in E. by apply eq_None_not_Some.
Qed.

(** ** The candidates *)

Lemma candidate_string (c : Path) (idx : nat) :
  wf_path c = true →
  let s := (stem c ++ "_" ++ Str.of_nat idx ++ suffix c)%string in
  Str.mem "/" s = false ∧ is_component s = true.
Proof.
  intros Hc s. pose proof (mem_name c Hc) as Hn. split.
  - unfold s, stem, suffix. rewrite !mem_app.
    rewrite (mem_stem _ _ Hn), (mem_suffix _ _ Hn), mem_of_nat by done. done.
  - apply is_component_long. unfold s. rewrite !length_app.
    pose proof (of_nat_not_empty idx).
    destruct (Str.of_nat idx); [done|]. cbn [String.length]. lia.
Qed.

Lemma candidate_wf (c : Path) (idx : nat) :
  wf_path c = true → wf_path (candidate c idx) = true.
Proof.
  intros Hc. destruct (candidate_string c idx Hc).
  apply wf_path_join_single; [by apply wf_parent | done | done].
Qed.

Lemma name_candidate (c : Path) (idx : nat) :
  wf_path c = true →
  name (candidate c idx) = (stem c ++ "_" ++ Str.of_nat idx ++ suffix c)%string.
Proof.
  intros Hc. destruct (candidate_string c idx Hc).
  by apply name_join_single.
Qed.

Lemma candidate_parent (c : Path) (idx : nat) :
  wf_path c = true → parent (candidate c idx) = parent c.
Proof.
  intros Hc. destruct (candidate_string c idx Hc).
  by apply parent_join_single.
Qed.

Lemma candidate_longer (c : Path) (idx : nat) :
  wf_path c = true →
  String.length (name c) < String.length (name (candidate c idx)).
Proof.
  intros Hc. rewrite name_candidate by done.
  rewrite !length_app. unfold stem, suffix.
  pose proof (length_stem_suffix (name c)). cbn [String.length]. lia.
Qed.

(** ** Termination: every candidate is longer than the ones before, so
    the entries of a finite file system run out. *)

Lemma loop_total (fuel : nat) :
  ∀ (c : Path) (idx : nat) (w : World) (X : gset Path),
    wf_path c = true →
    X ⊆ dom (fs w) →
    (∀ q, q ∈ X → String.length (name q) < String.length (name c)) →
    size (dom (fs w)) < fuel + size X →
    ∃ q, (ensure_new_file_loop fuel c idx w).1 = Ok q.
Proof.
  induction fuel as [|fuel IH]; intros c idx w X Hc HX Hlen Hsize.
  - apply subseteq_size in HX. lia.
  - rewrite loop_step. destruct (bool_decide _) eqn:E; [|by eexists].
    apply bool_decide_eq_true in E.
    assert (c ∉ X) as Hnot by (intros Hin; specialize (Hlen c Hin); lia).
    apply (IH _ _ _ ({[c]} ∪ X)); cbn [fs set_journal].
    + by apply candidate_wf.
    + apply union_subseteq. split; [|done].
      apply singleton_subseteq_l. by apply elem_of_dom.
    + intros q [->%elem_of_singleton | Hq]%elem_of_union.
      * by apply candidate_longer.
      * specialize (Hlen q Hq). pose proof (candidate_longer c idx Hc). lia.
    + rewrite size_union by set_solver. rewrite size_singleton. lia.
Qed.

Lemma ensure_new_file_unfold (p : Path) (w : World) :
  ensure_new_file p w = ensure_new_file_loop (S (size (fs w))) p 1 w.
Proof. reflexivity. Qed.

(** [ensure_new_file] returns for every path [pathlib] can build. *)
Lemma ensure_new_file_total (p : Path) (w : World) :
  wf_path p = true →
  ∃ q evs,
    ensure_new_file p w = (Ok q, set_journal (evs ++ journal w) w) ∧
    Forall is_stat evs ∧ fs w !! q = None.
Proof.
  intros Hp. rewrite ensure_new_file_unfold.
  destruct (loop_total (S (size (fs w))) p 1 w ∅ Hp) as [q Hq].
  - set_solver.
  - set_solver.
  - rewrite size_dom, size_empty. lia.
  - destruct (loop_spec (S (size (fs w))) p 1 w) as (evs & Hw & Hevs & Hr).
    rewrite Hq in Hr. exists q, evs. split; [|done].
    destruct (ensure_new_file_loop _ _ _ _) as [r w']. cbn in *. by subst.
Qed.

Lemma ensure_new_file_free (p : Path) (w : World) :
  fs w !! p = None →
  ensure_new_file p w = (Ok p, set_journal (EvStat p :: journal w) w).
Proof.
  intros Hp. rewrite ensure_new_file_unfold, loop_step.
  rewrite bool_decide_eq_false_2; [done|]. rewrite Hp. by intros [? ?].
Qed.

Lemma ensure_new_file_once (p : Path) (w : World) :
  is_Some (fs w !! p) → fs w !! candidate p 1 = None →
  ensure_new_file p w =
    (Ok (candidate p 1),
     set_journal (EvStat (candidate p 1) :: EvStat p :: journal w) w).
Proof.
  intros Hp Hc. rewrite ensure_new_file_unfold, loop_step.
  rewrite bool_decide_eq_true_2 by done.
  destruct (size (fs w)) as [|n] eqn:En.
  - apply map_size_empty_inv in En. rewrite En, lookup_empty in Hp.
    by destruct Hp.
  - rewrite loop_step. cbn [fs set_journal journal].
    rewrite bool_decide_eq_false_2; [done|]. rewrite Hc. by intros [? ?].
Qed.

End Resolver.

(** * Temporary files *)

Module Temp.
Import StrFacts PathFacts Run.

(** ** The names [tempfile] and [uuid] produce *)

Lemma hexdigit_is_hex (d : N) : is_hex (hexdigit d) = true.
Proof.
  unfold hexdigit. generalize (N.to_nat d) as n. intros n.
  do 16 (destruct n as [|n]; [done|]). by destruct n.
Qed.

Lemma unique_id_hex (u : N) :
  all_hex (unique_id u) = true ∧ String.length (unique_id u) = 8.
Proof.
  unfold unique_id, uuid_hex. cbn [hex_of Str.take all_hex String.length].
  by rewrite !hexdigit_is_hex.
Qed.

Lemma all_hex_mem (c : ascii) (s : string) :
  is_hex c = false → all_hex s = true → Str.mem c s = false.
Proof.
  intros Hc. induction s as [|x s IH]; [done|]. cbn [all_hex Str.mem].
  intros [Hx Hs]%andb_true_iff. rewrite IH, orb_false_r by done.
  apply Ascii.eqb_neq. intros ->. congruence.
Qed.

Lemma tail_facts (u : N) :
  Str.mem "/" (tail u) = false ∧ String.length (tail u) = 13.
Proof.
  destruct (unique_id_hex u) as [Hh Hl]. unfold tail. split.
  - change ("_" ++ unique_id u ++ ".pdf")%string
      with (String "_" (unique_id u ++ ".pdf")).
    cbn [Str.mem]. rewrite mem_app, (all_hex_mem "/" _ eq_refl Hh). done.
  - change ("_" ++ unique_id u ++ ".pdf")%string
      with (String "_" (unique_id u ++ ".pdf")).
    cbn [String.length]. rewrite length_app, Hl. done.
Qed.

Lemma splitroot_prefix (pre rest : string) :
  relative pre = true → splitroot (pre ++ rest) = ("", pre ++ rest)%string.
Proof.
  destruct pre as [|c pre]; [done|]. cbn [relative String.append splitroot].
  intros H%negb_true_iff. by rewrite H.
Qed.

Lemma temp_path_name (dir : Path) (pre : string) (n u : N) :
  relative pre = true →
  name (temp_path dir pre n u) = (temp_stem pre n u ++ ".pdf")%string.
Proof.
  intros Hpre. unfold temp_path, temp_stem.
  destruct (tail_facts u) as [Hm Hl].
  rewrite <- app_assoc.
  rewrite name_Path_join_tail; [| |done|lia].
  - unfold tail. by rewrite !app_assoc.
  - rewrite app_assoc. by apply splitroot_prefix.
Qed.

Lemma temp_stem_not_empty (pre : string) (n u : N) : temp_stem pre n u ≠ "".
Proof.
  unfold temp_stem. intros H. apply (f_equal String.length) in H.
  rewrite length_app in H.
  change ("_" ++ unique_id u)%string with (String "_" (unique_id u)) in H.
  cbn [String.length] in H. lia.
Qed.

Lemma temp_path_suffix (dir : Path) (pre : string) (n u : N) :
  relative pre = true → suffix (temp_path dir pre n u) = ".pdf".
Proof.
  intros Hpre. unfold suffix. rewrite temp_path_name by done.
  apply name_suffix_ext; [apply temp_stem_not_empty | done].
Qed.

Lemma correct_pdf_path_temp (dir : Path) (pre : string) (n u : N) (w : World) :
  relative pre = true →
  correct_pdf_path (temp_path dir pre n u) w = (Ok (temp_path dir pre n u), w).
Proof.
  intros Hpre. unfold correct_pdf_path. by rewrite temp_path_suffix.
Qed.

End Temp.

(** * Invariants of a run *)

Module Frame.
Import StrFacts PathFacts Run Temp.

(** ** Rules *)

Section Rules.
Variable I : World → Prop.

Lemma keeps_ret {A} (a : A) (φ : A → Prop) : φ a → keeps I (mret a) φ.
Proof. intros Ha w Hw. split; [done|]. by intros ? [= <-]. Qed.

Lemma keeps_raise {A} (e : Exception) (φ : A → Prop) : keeps I (raise e) φ.
Proof. intros w Hw. split; done. Qed.

Lemma keeps_bind {A B} (m : M A) (k : A → M B) (φ : A → Prop) (ψ : B → Prop) :
  keeps I m φ → (∀ a, φ a → keeps I (k a) ψ) → keeps I (m ≫= k) ψ.
Proof.
  intros Hm Hk w Hw. rewrite bind_run.
  destruct (Hm w Hw) as [Hw' Ha]. destruct (m w) as [[a|e|] w']; cbn in *.
  - apply Hk; [by apply Ha | done].
  - split; done.
  - split; done.
Qed.

Lemma keeps_weaken {A} (m : M A) (φ ψ : A → Prop) :
  keeps I m φ → (∀ a, φ a → ψ a) → keeps I m ψ.
Proof.
  intros Hm Himp w Hw. destruct (Hm w Hw) as [? Ha]. split; [done|].
  intros a Hr. by apply Himp, Ha.
Qed.

Lemma keeps_ext {A} (m m' : M A) (φ : A → Prop) :
  (∀ w, m w = m' w) → keeps I m φ → keeps I m' φ.
Proof. intros He Hm w Hw. rewrite <- He. by apply Hm. Qed.

Lemma keeps_for_each {A S} (l : list A) (body : A → S → M S) (s : S) :
  (∀ x s, keeps I (body x s) (λ _, True)) →
  keeps I (for_each l body s) (λ _, True).
Proof.
  intros Hb. revert s; induction l as [|x l IH]; intros s.
  - by apply keeps_ret.
  - cbn [for_each]. eapply keeps_bind; [apply Hb|]. intros s' _. apply IH.
Qed.

Lemma keeps_get_world : keeps I get_world (λ _, True).
Proof. intros w Hw. split; done. Qed.

Lemma keeps_assert (b : bool) : keeps I (py_assert b) (λ _, True).
Proof. destruct b; [by apply keeps_ret | apply keeps_raise]. Qed.

Lemma keeps_PdfFileReader (c : Content) : keeps I (PdfFileReader c) (λ _, True).
Proof. destruct c; [by apply keeps_ret | apply keeps_raise]. Qed.

Lemma keeps_getPage (r : list Page) (i : nat) : keeps I (getPage r i) (λ _, True).
Proof.
  unfold getPage. destruct (nth_error r i); [by apply keeps_ret | apply keeps_raise].
Qed.
End Rules.

Lemma bind_assoc {A B C} (m : M A) (k : A → M B) (h : B → M C) (w : World) :
  ((m ≫= k) ≫= h) w = (m ≫= (λ a, k a ≫= h)) w.
Proof. rewrite !bind_run. by destruct (m w) as [[a|e|] w']. Qed.

(** ** Invariants of the file system calls

    [I] is an invariant that survives the system calls as long as the
    paths opened for writing are [fresh]; a path at which nothing is
    found is [fresh]. *)

Section Calls.
Variable I : World → Prop.
Variable fresh : Path → Prop.
Hypothesis I_event : ∀ w ev,
  I w → (∀ q, written ev = Some q → fresh q) → I (set_journal (ev :: journal w) w).
Hypothesis I_insert : ∀ w p e, I w → fresh p → I (set_fs (<[p := e]> (fs w)) w).
Hypothesis I_cursor : ∀ w c, I w → I (set_cursor c w).
Hypothesis I_None : ∀ w p, I w → fs w !! p = None → fresh p.

Lemma keeps_exists (p : Path) :
  keeps I (Path_exists p) (λ b, b = false → fresh p).
Proof.
  intros w Hw. rewrite Path_exists_run. cbn [fst snd]. split.
  - apply I_event; [done | first [apply Hev | by intros ? ?]].
  - intros b [= <-] Hb%bool_decide_eq_false.
    eapply I_None; [done|]. by apply eq_None_not_Some.
Qed.

Lemma keeps_open_rb (p : Path) : keeps I (open_rb p) (λ _, True).
Proof.
  intros w Hw. rewrite open_rb_run. cbn [fst snd]. split; [|done].
  apply I_event; [done | first [apply Hev | by intros ? ?]].
Qed.

Lemma keeps_open_wb (p : Path) : fresh p → keeps I (open_wb p) (λ h, h = p).
Proof.
  intros Hp w Hw. unfold open_wb, check_parent. exec.
  assert (∀ b q, written (EvOpenWrite p b) = Some q → fresh q) as Hev
    by (intros b q [= <-]; done).
  destruct (fs w !! p) as [[|c]|]; exec.
  - split; [|done]. apply I_event; [done | first [apply Hev | by intros ? ?]].
  - split; [|by intros ? [= <-]].
    apply (I_insert (set_journal _ w)); [|done]. apply I_event; [done | first [apply Hev | by intros ? ?]].
  - destruct (fs w !! parent p) as [[|c]|]; exec.
    + split; [|by intros ? [= <-]].
      apply (I_insert (set_journal _ w)); [|done]. apply I_event; [done | first [apply Hev | by intros ? ?]].
    + split; [|done]. apply I_event; [done | first [apply Hev | by intros ? ?]].
    + split; [|done]. apply I_event; [done | first [apply Hev | by intros ? ?]].
Qed.

Lemma keeps_write_file (h : Path) (c : Content) :
  fresh h → keeps I (write_file h c) (λ _, True).
Proof.
  intros Hh w Hw. rewrite write_file_run. cbn [fst snd]. split; [|done].
  by apply I_insert.
Qed.

Lemma keeps_open_excl (p : Path) :
  keeps I (open_excl p) (λ b, b = true → fresh p).
Proof.
  intros w Hw. unfold open_excl, check_parent. exec.
  destruct (fs w !! p) as [e|] eqn:Hp; exec.
  - split; [|by intros ? [= <-]]. apply I_event; [done | first [apply Hev | by intros ? ?]].
  - pose proof (I_None _ _ Hw Hp) as Hp0.
    assert (∀ b q, written (EvOpenExcl p b) = Some q → fresh q) as Hev
      by (intros [] q [= <-]; done).
    destruct (fs w !! parent p) as [[|c]|]; exec.
    + split; [|done].
      apply (I_insert (set_journal _ w)); [|done]. apply I_event; [done | first [apply Hev | by intros ? ?]].
    + split; [|done]. apply I_event; [done | first [apply Hev | by intros ? ?]].
    + split; [|done]. apply I_event; [done | first [apply Hev | by intros ? ?]].
Qed.

Lemma keeps_draw : keeps I draw (λ _, True).
Proof. intros w Hw. rewrite draw_run. split; [by apply I_cursor | done]. Qed.

Lemma keeps_glob (d : Path) : keeps I (glob_pdf d) (λ _, True).
Proof. intros w Hw. unfold glob_pdf. exec. split; [|done]. apply I_event; [done | first [apply Hev | by intros ? ?]]. Qed.

(** ** Invariants of the functions of the script *)

Lemma keeps_mkstemp_inner (tries : nat) (dir : Path) (pre suf : string) :
  keeps I (mkstemp_inner tries dir pre suf)
    (λ p, fresh p ∧ ∃ n, p = Path_join dir (pre ++ name_of 8 n ++ suf)).
Proof.
  induction tries as [|tries IH]; cbn [mkstemp_inner]; [apply keeps_raise|].
  eapply keeps_bind.
  { unfold candidate_name. eapply keeps_bind; [apply keeps_draw|].
    intros n _. apply (keeps_ret _ _ (λ nm, ∃ n, nm = name_of 8 n)). eauto. }
  intros nm [n ->]. eapply keeps_bind; [apply keeps_open_excl|].
  intros [] Hb; [|apply IH]. apply keeps_ret. split; [by apply Hb | eauto].
Qed.

Lemma keeps_temp (pre : string) :
  keeps I (temp_or_given pre None)
    (λ p, fresh p ∧ ∃ d n u, p = temp_path d pre n u).
Proof.
  cbn [temp_or_given]. eapply keeps_bind.
  { unfold uuid4. eapply keeps_bind; [apply keeps_draw|].
    intros n _. apply (keeps_ret _ _ (λ _, True)). done. }
  intros u _. eapply keeps_bind.
  { unfold gettempdir. eapply keeps_bind; [apply keeps_get_world|].
    intros w _. apply (keeps_ret _ _ (λ _, True)). done. }
  intros dir _. unfold mkstemp.
  eapply keeps_bind; [apply keeps_get_world|]. intros w _.
  eapply keeps_weaken; [apply keeps_mkstemp_inner|].
  intros p [Hp [n ->]]. split; [done|]. by exists dir, n, u.
Qed.

Lemma keeps_temp_pdf (pre : string) :
  relative pre = true →
  keeps I (temp_or_given pre None ≫= correct_pdf_path) (λ p, fresh p).
Proof.
  intros Hpre. eapply keeps_bind; [apply keeps_temp|].
  intros p [Hp (d & n & u & ->)] w Hw.
  rewrite correct_pdf_path_temp by done. split; [done|]. by intros ? [= <-].
Qed.

Lemma keeps_Canvas_save (c : Canvas) :
  fresh (filename c) → keeps I (Canvas_save c) (λ _, True).
Proof.
  intros Hc. unfold Canvas_save.
  eapply keeps_bind; [by apply keeps_open_wb|].
  intros f ->. by apply keeps_write_file.
Qed.

Lemma keeps_create_watermark (text : string) :
  keeps I (create_watermark text None) (λ p, fresh p).
Proof.
  unfold create_watermark.
  eapply keeps_bind; [apply keeps_assert|]. intros _ _.
  eapply keeps_ext; [intros w; apply bind_assoc|].
  eapply keeps_bind; [by apply keeps_temp_pdf|]. intros p Hp.
  eapply keeps_bind; [by apply keeps_Canvas_save|]. intros _ _.
  by apply keeps_ret.
Qed.

Lemma keeps_duplicate_watermark (wm : PathLike) (n : Z) :
  keeps I (duplicate_watermark wm n None) (λ p, fresh p).
Proof.
  unfold duplicate_watermark.
  eapply keeps_ext; [intros w; apply bind_assoc|].
  eapply keeps_bind; [by apply keeps_temp_pdf|]. intros p Hp.
  eapply keeps_bind; [apply keeps_open_rb|]. intros c _.
  eapply keeps_bind; [apply keeps_PdfFileReader|]. intros r _.
  eapply keeps_bind; [apply keeps_getPage|]. intros pg _.
  eapply keeps_bind.
  { apply keeps_for_each. intros x s. by apply keeps_ret. }
  intros out _.
  eapply keeps_bind; [by apply keeps_open_wb|]. intros h ->.
  eapply keeps_bind; [by apply keeps_write_file|]. intros _ _.
  by apply keeps_ret.
Qed.

Lemma keeps_loop (fuel : nat) (c : Path) (idx : nat) :
  keeps I (ensure_new_file_loop fuel c idx) (λ q, fresh q).
Proof.
  revert c idx; induction fuel as [|fuel IH]; intros c idx.
  - intros w Hw. split; done.
  - cbn [ensure_new_file_loop].
    eapply keeps_bind; [apply keeps_exists|].
    intros [] Hb; [apply IH|]. apply keeps_ret. by apply Hb.
Qed.

Lemma keeps_ensure_new_file (p : Path) :
  keeps I (ensure_new_file p) (λ q, fresh q).
Proof.
  unfold ensure_new_file. eapply keeps_bind; [apply keeps_get_world|].
  intros w _. apply keeps_loop.
Qed.

Lemma keeps_add_watermark (x wm : PathLike) :
  keeps I (add_watermark x wm) (λ _, True).
Proof.
  unfold add_watermark.
  eapply keeps_bind; [apply keeps_ensure_new_file|]. intros out Hout.
  eapply keeps_bind; [apply keeps_open_rb|]. intros c _.
  eapply keeps_bind; [apply keeps_PdfFileReader|]. intros r _.
  eapply keeps_bind; [apply keeps_duplicate_watermark|]. intros tmp _.
  eapply keeps_bind; [apply keeps_open_rb|]. intros c' _.
  eapply keeps_bind; [apply keeps_PdfFileReader|]. intros r' _.
  eapply keeps_bind.
  { apply keeps_for_each. intros i s.
    eapply keeps_bind; [apply keeps_getPage|]. intros pg _.
    eapply keeps_bind; [apply keeps_getPage|]. intros pg' _.
    by apply keeps_ret. }
  intros output _.
  eapply keeps_bind; [by apply keeps_open_wb|]. intros h ->.
  by apply keeps_write_file.
Qed.

Lemma keeps_select_files (args : Args) : keeps I (select_files args) (λ _, True).
Proof.
  unfold select_files.
  eapply keeps_bind.
  { unfold Path_cwd. eapply keeps_bind; [apply keeps_get_world|].
    intros w _. apply (keeps_ret _ _ (λ _, True)). done. }
  intros d _. destruct (match input_files args with None => [] | Some l => l end).
  - eapply keeps_bind; [apply keeps_glob|]. intros found _. by apply keeps_ret.
  - by apply keeps_ret.
Qed.

(** With an invariant that does not mind [logging]: the whole run. *)
Hypothesis I_logging : ∀ w h l r, I w → I (set_logging h l r w).

Lemma keeps_basicConfig (l : option nat) : keeps I (basicConfig l) (λ _, True).
Proof.
  intros w Hw. unfold basicConfig. exec. split; [|done].
  destruct (has_handlers w); [done | by apply I_logging].
Qed.

Lemma keeps_logging_info (m : string) (a : list PathLike) :
  keeps I (logging_info m a) (λ _, True).
Proof.
  unfold logging_info. eapply keeps_bind; [apply keeps_basicConfig|].
  intros _ _ w Hw. exec. split; [|done].
  destruct (root_level w <=? INFO)%nat; [by apply I_logging | done].
Qed.

Lemma keeps_main (args : Args) : keeps I (main args) (λ _, True).
Proof.
  unfold main.
  eapply keeps_bind; [apply keeps_select_files|]. intros file_list _.
  eapply keeps_bind; [apply keeps_create_watermark|]. intros wm _.
  eapply keeps_bind; [apply keeps_basicConfig|]. intros _ _.
  eapply keeps_bind.
  { apply keeps_for_each. intros x s.
    eapply keeps_bind; [apply keeps_logging_info|]. intros _ _.
    apply keeps_add_watermark. }
  intros _ _. apply keeps_logging_info.
Qed.
End Calls.

End Frame.

(** * What was there is left alone *)

Module Untouched.
Import Run Frame.

Lemma Inv_refl (w : World) : Inv w w.
Proof. split; [done|]. exists []. split; [done | constructor]. Qed.

Lemma Inv_event (w0 w : World) (ev : Event) :
  Inv w0 w → harmless (fs w0) ev → Inv w0 (set_journal (ev :: journal w) w).
Proof.
  intros [Hfs (evs & Hj & Hevs)] Hev. split; [done|].
  exists (ev :: evs). cbn [journal set_journal]. rewrite Hj. split; [done|].
  by constructor.
Qed.

Lemma Inv_insert (w0 w : World) (p : Path) (e : Entry) :
  Inv w0 w → fs w0 !! p = None → Inv w0 (set_fs (<[p := e]> (fs w)) w).
Proof.
  intros [Hfs Hj] Hp. split; [|done]. cbn [fs set_fs].
  by apply insert_subseteq_r.
Qed.

Lemma Inv_cursor (w0 w : World) (c : nat) : Inv w0 w → Inv w0 (set_cursor c w).
Proof. by intros [? ?]. Qed.

Lemma Inv_logging (w0 w : World) h l r : Inv w0 w → Inv w0 (set_logging h l r w).
Proof. by intros [? ?]. Qed.

Lemma Inv_None (w0 w : World) (p : Path) :
  Inv w0 w → fs w !! p = None → fs w0 !! p = None.
Proof. intros [Hfs _] Hp. by eapply lookup_weaken_None. Qed.

(** Whatever its outcome, a function that keeps [Inv] leaves every entry
    in place and opens for writing only paths that had none. *)
Lemma untouched {A} (m : M A) (φ : A → Prop) (w : World) :
  (∀ w0, keeps (Inv w0) m φ) →
  fs w ⊆ fs (m w).2 ∧
  ∃ evs, journal (m w).2 = (evs ++ journal w)%list ∧
         ∀ ev q, ev ∈ evs → written ev = Some q → fs w !! q = None.
Proof.
  intros Hm. destruct (Hm w w (Inv_refl w)) as [[Hfs (evs & Hj & Hevs)] _].
  split; [done|]. exists evs. split; [done|].
  intros ev q Hev. rewrite List.Forall_forall in Hevs.
  apply Hevs. by apply list_elem_of_In.
Qed.

Lemma main_keeps (w0 : World) (args : Args) : keeps (Inv w0) (main args) (λ _, True).
Proof.
  apply (keeps_main _ (λ p, fs w0 !! p = None)).
  - apply Inv_event.
  - apply Inv_insert.
  - apply Inv_cursor.
  - apply Inv_None.
  - apply Inv_logging.
Qed.

Lemma add_watermark_keeps (w0 : World) (x wm : PathLike) :
  keeps (Inv w0) (add_watermark x wm) (λ _, True).
Proof.
  apply (keeps_add_watermark _ (λ p, fs w0 !! p = None)).
  - apply Inv_event.
  - apply Inv_insert.
  - apply Inv_cursor.
  - apply Inv_None.
Qed.

Lemma create_watermark_keeps (w0 : World) (text : string) :
  keeps (Inv w0) (create_watermark text None) (λ p, fs w0 !! p = None).
Proof.
  apply (keeps_create_watermark _ (λ p, fs w0 !! p = None)).
  - apply Inv_event.
  - apply Inv_insert.
  - apply Inv_cursor.
  - apply Inv_None.
Qed.

End Untouched.

(** * Nothing but [logging] touches the log *)

Module Quiet.
Import Run Frame.

Lemma add_watermark_quiet (x wm : PathLike) h l r :
  keeps (logs h l r) (add_watermark x wm) (λ _, True).
Proof. by apply (keeps_add_watermark _ (λ _, True)). Qed.

Lemma create_watermark_quiet (text : string) h l r :
  keeps (logs h l r) (create_watermark text None) (λ _, True).
Proof. by apply (keeps_create_watermark _ (λ _, True)). Qed.

Lemma select_files_quiet (args : Args) h l r :
  keeps (logs h l r) (select_files args) (λ _, True).
Proof. by apply (keeps_select_files _ (λ _, True)). Qed.

End Quiet.

(** * Output names and temporary names never meet *)

Module Shapes.
Import StrFacts PathFacts Run Temp Resolver.

Lemma app_inv_tail (a b e : string) : (a ++ e = b ++ e)%string → a = b.
Proof.
  intros H. assert (String.length a = String.length b) as Hl.
  { apply (f_equal String.length) in H. rewrite !length_app in H. lia. }
  rewrite <- (take_app_length a e), H, Hl. apply take_app_length.
Qed.

(** Of two ways to cut a string, the shorter tail ends the longer one. *)
Lemma app_tails (a b c d : string) :
  (a ++ b = c ++ d)%string → (String.length b ≤ String.length d)%nat →
  ∃ z, d = (z ++ b)%string.
Proof.
  revert a; induction c as [|x c IH]; intros a H Hl.
  - cbn [String.append] in H. subst d. by exists a.
  - destruct a as [|y a].
    + cbn [String.append] in H. subst b.
      cbn [String.length] in Hl. rewrite length_app in Hl. lia.
    + cbn [String.append] in H. injection H as _ H. by apply (IH a).
Qed.

Lemma all_hex_app (a b : string) : all_hex (a ++ b) = all_hex a && all_hex b.
Proof.
  induction a as [|x a IH]; [done|]. cbn [String.append all_hex].
  by rewrite IH, andb_assoc.
Qed.

(** ** Temporary names *)

Lemma name_char_not_sep (d : N) : Ascii.eqb (name_char d) "/" = false.
Proof.
  unfold name_char. generalize (N.to_nat d) as n. intros n.
  do 37 (destruct n as [|n]; [done|]). by destruct n.
Qed.

Lemma name_of_8 (n : N) :
  Str.mem "/" (name_of 8 n) = false ∧ String.length (name_of 8 n) = 8.
Proof.
  cbn [name_of Str.mem String.length]. by rewrite !name_char_not_sep.
Qed.

(** The stem of the file [duplicate_watermark] creates: thirty
    characters, the last eight hexadecimal. *)
Lemma temp_stem_tmp (n u : N) :
  String.length (temp_stem "watermark_tmp" n u) = 30 ∧
  ∃ y h, temp_stem "watermark_tmp" n u = (y ++ h)%string ∧
         String.length h = 8 ∧ all_hex h = true.
Proof.
  destruct (name_of_8 n) as [Hm Hl]. destruct (unique_id_hex u) as [Hh Hu].
  unfold temp_stem, last_piece.
  rewrite split_not_mem by (rewrite mem_app, Hm; done).
  cbn [List.last]. split.
  - rewrite !length_app, Hl.
    change ("_" ++ unique_id u)%string with (String "_" (unique_id u)).
    cbn [String.length]. lia.
  - exists (("watermark_tmp" ++ name_of 8 n) ++ "_")%string, (unique_id u).
    split; [|done]. by rewrite !app_assoc.
Qed.

(** ** Output names *)

Lemma shape_start (s0 : string) : shape s0 1 (s0 ++ "_watermarked").
Proof.
  split; [by exists "watermarked"|]. split.
  - rewrite length_app. cbn [String.length]. lia.
  - intros _. exists (s0 ++ "_wate")%string, "rmarked".
    split; [by rewrite app_assoc|]. split; [cbn; lia | done].
Qed.

Lemma of_nat_digit (idx : nat) : (idx ≤ 9)%nat → String.length (Str.of_nat idx) = 1.
Proof.
  intros H. do 10 (destruct idx as [|idx]; [done|]). lia.
Qed.

Lemma shape_next (s0 : string) (idx : nat) (x : string) :
  shape s0 idx x → shape s0 (idx + 1) (x ++ "_" ++ Str.of_nat idx).
Proof.
  intros ([r ->] & Hl & _). split; [|split].
  - exists (r ++ "_" ++ Str.of_nat idx)%string. by rewrite !app_assoc.
  - rewrite !length_app in *. pose proof (of_nat_not_empty idx).
    destruct (Str.of_nat idx); [done|]. cbn [String.length] in *. lia.
  - intros Hi. exists ((s0 ++ "_" ++ r))%string, ("_" ++ Str.of_nat idx)%string.
    split; [done|]. split; [|done].
    change ("_" ++ Str.of_nat idx)%string with (String "_" (Str.of_nat idx)).
    cbn [String.length]. rewrite of_nat_digit by lia. lia.
Qed.

Lemma shape_not_temp (s0 : string) (idx : nat) (x : string) (n u : N) :
  shape s0 idx x → x ≠ temp_stem "watermark_tmp" n u.
Proof.
  intros (_ & Hl & Ht) ->.
  destruct (temp_stem_tmp n u) as (H30 & y & h & Hy & Hh & Hhex).
  destruct Ht as (y' & t & Hx & Hlt & Hnot); [lia|].
  rewrite Hy in Hx. symmetry in Hx.
  destruct (app_tails _ _ _ _ Hx) as [z ->]; [lia|].
  rewrite all_hex_app in Hhex. apply andb_true_iff in Hhex as [_ ?]. congruence.
Qed.

(** The suffix of a name is empty or starts with a dot. *)
Lemma rfind_drop (c : ascii) (s : string) (i : nat) :
  Str.rfind c s = Some i → ∃ r, Str.drop i s = String c r.
Proof.
  revert i; induction s as [|x s IH]; intros i; [done|]. cbn [Str.rfind].
  destruct (Str.rfind c s) as [j|].
  - intros [= <-]. cbn [Str.drop]. by apply IH.
  - destruct (Ascii.eqb_spec x c) as [->|]; [|done].
    intros [= <-]. by eexists.
Qed.

Lemma name_suffix_dot (nm : string) :
  name_suffix nm = "" ∨ ∃ r, name_suffix nm = String "." r.
Proof.
  unfold name_suffix, suffix_index.
  destruct (Str.rfind "." nm) as [i|] eqn:E; [|by left].
  destruct (_ && _); [|by left]. right. by apply rfind_drop.
Qed.

Lemma shape_not_own_name (nm : string) (idx : nat) (x : string) :
  shape (name_stem nm) idx x → (x ++ ".pdf")%string ≠ nm.
Proof.
  intros ([r ->] & _) H. rewrite <- (stem_suffix nm) in H at 2.
  rewrite !app_assoc in H. apply String.app_inj in H.
  destruct (name_suffix_dot nm) as [E|[r' E]]; rewrite E in H; done.
Qed.

(** ** The loop keeps the shape *)

Lemma candidate_shape (s0 : string) (c : Path) (idx : nat) (x : string) :
  wf_path c = true → name c = (x ++ ".pdf")%string → shape s0 idx x →
  name (candidate c idx) = ((x ++ "_" ++ Str.of_nat idx) ++ ".pdf")%string.
Proof.
  intros Hc Hn ([r Hx] & _). rewrite name_candidate by done.
  assert (x ≠ "") as Hne.
  { rewrite Hx. intros H. apply (f_equal String.length) in H.
    rewrite length_app in H. cbn in H. lia. }
  unfold stem, suffix. rewrite Hn.
  rewrite name_stem_ext, name_suffix_ext by done.
  by rewrite !app_assoc.
Qed.

Lemma loop_shape (s0 : string) (fuel : nat) :
  ∀ (c : Path) (idx : nat) (x : string) (w : World) (q : Path),
    wf_path c = true → name c = (x ++ ".pdf")%string → shape s0 idx x →
    (ensure_new_file_loop fuel c idx w).1 = Ok q →
    wf_path q = true ∧ parent q = parent c ∧
    ∃ idx' x', name q = (x' ++ ".pdf")%string ∧ shape s0 idx' x'.
Proof.
  induction fuel as [|fuel IH]; intros c idx x w q Hc Hn Hx; [done|].
  rewrite loop_step. destruct (bool_decide _).
  - intros Hq. eapply IH in Hq as (? & Hp & ?).
    + split; [done|]. split; [|done]. by rewrite Hp, candidate_parent.
    + by apply candidate_wf.
    + by eapply candidate_shape.
    + by apply shape_next.
  - intros [= <-]. eauto 10.
Qed.

Lemma wanted_string (p : Path) :
  wf_path p = true →
  let s := (stem p ++ "_watermarked.pdf")%string in
  Str.mem "/" s = false ∧ is_component s = true.
Proof.
  intros Hp s. split.
  - unfold s, stem. rewrite mem_app, (mem_stem _ _ (mem_name p Hp)). done.
  - apply is_component_long. unfold s. rewrite length_app. cbn. lia.
Qed.

Lemma wanted_facts (p : Path) :
  wf_path p = true →
  wf_path (wanted p) = true ∧ parent (wanted p) = parent p ∧
  name (wanted p) = ((stem p ++ "_watermarked") ++ ".pdf")%string.
Proof.
  intros Hp. destruct (wanted_string p Hp). unfold wanted. split; [|split].
  - apply wf_path_join_single; [by apply wf_parent | done | done].
  - by apply parent_join_single.
  - rewrite name_join_single by done. by rewrite app_assoc.
Qed.

(** What [ensure_new_file] returns for [add_watermark]: a sibling of the
    input, different from the input and from every temporary file of
    [duplicate_watermark]. *)
Lemma resolved_facts (p q : Path) (w : World) :
  wf_path p = true → (ensure_new_file (wanted p) w).1 = Ok q →
  parent q = parent p ∧ q ≠ p ∧
  ∀ d n u, q ≠ temp_path d "watermark_tmp" n u.
Proof.
  intros Hp Hq. destruct (wanted_facts p Hp) as (Hwf & Hpar & Hname).
  rewrite ensure_new_file_unfold in Hq.
  eapply (loop_shape (stem p)) in Hq as (_ & Hpq & idx & x & Hn & Hx);
    [|done|done|apply shape_start].
  split; [by rewrite Hpq|]. split.
  - intros ->. by eapply shape_not_own_name.
  - intros d n u ->. rewrite temp_path_name in Hn by done.
    apply app_inv_tail in Hn. by eapply shape_not_temp.
Qed.

End Shapes.

(** * What the writers of temporary files do when they succeed *)

Module Specs.
Import StrFacts PathFacts Run Temp Resolver Shapes.

Lemma mkstemp_inner_step (tries : nat) (dir : Path) (pre suf : string) (w : World) :
  let file := Path_join dir (pre ++ name_of 8 (entropy (env w) (cursor w)) ++ suf) in
  let w1 := set_cursor (S (cursor w)) w in
  mkstemp_inner (S tries) dir pre suf w =
    match fs w !! file with
    | Some _ =>
        mkstemp_inner tries dir pre suf
          (set_journal (EvOpenExcl file false :: journal w) w1)
    | None =>
        match fs w !! parent file with
        | Some Directory =>
            (Ok file, set_fs (<[file := Regular (RawBytes "")]> (fs w))
                        (set_journal (EvOpenExcl file true :: journal w) w1))
        | Some (Regular _) =>
            (Raise NotADirectoryError,
             set_journal (EvOpenExcl file false :: journal w) w1)
        | None =>
            (Raise FileNotFoundError,
             set_journal (EvOpenExcl file false :: journal w) w1)
        end
    end.
Proof.
  intros file w1. cbn [mkstemp_inner].
  unfold candidate_name, draw, open_excl, check_parent. exec. fold file.
  destruct (fs w !! file) as [e|]; exec; [done|].
  destruct (fs w !! parent file) as [[|c]|]; exec; done.
Qed.

(** The outcome depends on the file system, the environment and the
    random source only. *)
Lemma mkstemp_inner_sim (tries : nat) (dir : Path) (pre suf : string) :
  ∀ w1 w2, env w1 = env w2 → fs w1 = fs w2 → cursor w1 = cursor w2 →
    (mkstemp_inner tries dir pre suf w1).1 = (mkstemp_inner tries dir pre suf w2).1.
Proof.
  induction tries as [|tries IH]; intros w1 w2 He Hf Hc; [done|].
  rewrite !mkstemp_inner_step. rewrite He, Hf, Hc.
  destruct (fs w2 !! _) as [e|].
  - apply IH; cbn; congruence.
  - by destruct (fs w2 !! parent _) as [[|c]|].
Qed.

Lemma mkstemp_inner_ok (tries : nat) (dir : Path) (pre suf : string) :
  ∀ w p, (mkstemp_inner tries dir pre suf w).1 = Ok p →
    ∃ evs c',
      mkstemp_inner tries dir pre suf w =
        (Ok p, set_fs (<[p := Regular (RawBytes "")]> (fs w))
                 (set_cursor c' (set_journal (evs ++ journal w) w))) ∧
      fs w !! p = None ∧ fs w !! parent p = Some Directory ∧
      (∃ n, p = Path_join dir (pre ++ name_of 8 n ++ suf)) ∧
      Forall (excl_for p) evs.
Proof.
  induction tries as [|tries IH]; intros w p; [done|].
  rewrite mkstemp_inner_step.
  set (file := Path_join dir _).
  destruct (fs w !! file) as [e|] eqn:Hfile.
  - intros H. destruct (IH _ _ H) as (evs & c' & Hrun & Hp & Hd & Hn & Hevs).
    exists (evs ++ [EvOpenExcl file false])%list, c'.
    rewrite Hrun. cbn [fs journal set_journal set_cursor set_fs] in *.
    rewrite <- List.app_assoc. split; [done|]. repeat split; try done.
    apply Forall_app. split; [done|]. constructor; [|constructor].
    by exists file, false.
  - destruct (fs w !! parent file) as [[|c]|] eqn:Hd; [|done|done].
    intros [= <-]. exists [EvOpenExcl file true], (S (cursor w)).
    repeat split; try done; [by eexists|].
    constructor; [|constructor]. by exists file, true.
Qed.

Lemma temp_unfold (pre : string) (w : World) :
  temp_or_given pre None w =
    mkstemp_inner (TMP_MAX (env w)) (tempdir (env w)) pre
      (tail (uuid_of_random (entropy (env w) (cursor w))))
      (set_cursor (S (cursor w)) w).
Proof. reflexivity. Qed.

Lemma allocates_sim (pre : string) (w1 w2 : World) :
  env w1 = env w2 → fs w1 = fs w2 → cursor w1 = cursor w2 →
  allocates pre w1 → allocates pre w2.
Proof.
  intros He Hf Hc [p Hp]. exists p. rewrite temp_unfold in *.
  rewrite <- Hp, <- He, <- Hc. apply mkstemp_inner_sim; cbn; congruence.
Qed.

Lemma temp_ok (pre : string) (w : World) :
  allocates pre w →
  ∃ p evs c',
    temp_or_given pre None w =
      (Ok p, set_fs (<[p := Regular (RawBytes "")]> (fs w))
               (set_cursor c' (set_journal (evs ++ journal w) w))) ∧
    fs w !! p = None ∧ fs w !! parent p = Some Directory ∧
    (∃ d n u, p = temp_path d pre n u) ∧
    Forall (excl_for p) evs.
Proof.
  intros [p Hp]. rewrite temp_unfold in *.
  destruct (mkstemp_inner_ok _ _ _ _ _ _ Hp) as (evs & c' & Hrun & H1 & H2 & [n Hn] & H3).
  exists p, evs, c'. rewrite Hrun. repeat split; try done.
  by exists (tempdir (env w)), n, (uuid_of_random (entropy (env w) (cursor w))).
Qed.

(** What is created depends on which paths are taken and which are
    directories, not on what the files hold. *)
Lemma mkstemp_inner_kinds (tries : nat) (dir : Path) (pre suf : string) :
  ∀ w1 w2, env w1 = env w2 → cursor w1 = cursor w2 →
    (∀ q, kind (fs w1 !! q) = kind (fs w2 !! q)) →
    (mkstemp_inner tries dir pre suf w1).1 = (mkstemp_inner tries dir pre suf w2).1.
Proof.
  induction tries as [|tries IH]; intros w1 w2 He Hc Hk; [done|].
  rewrite !mkstemp_inner_step. rewrite He, Hc.
  set (file := Path_join dir _).
  pose proof (Hk file) as Hfile. pose proof (Hk (parent file)) as Hpar.
  destruct (fs w1 !! file) as [[|c1]|], (fs w2 !! file) as [[|c2]|]; try done;
    try (apply IH; cbn; congruence).
  by destruct (fs w1 !! parent file) as [[|d1]|], (fs w2 !! parent file) as [[|d2]|].
Qed.

Lemma temp_kinds (pre : string) (w1 w2 : World) :
  env w1 = env w2 → cursor w1 = cursor w2 →
  (∀ q, kind (fs w1 !! q) = kind (fs w2 !! q)) →
  (temp_or_given pre None w1).1 = (temp_or_given pre None w2).1.
Proof.
  intros He Hc Hk. rewrite !temp_unfold. rewrite He, Hc.
  apply mkstemp_inner_kinds; cbn; congruence.
Qed.

(** ** [create_watermark] *)

Lemma create_watermark_long (text : string) (o : option PathLike) (w : World) :
  (MAX_TEXT_LENGTH ≤ String.length text)%nat →
  create_watermark text o w = (Raise AssertionError, w).
Proof.
  intros H. unfold create_watermark. rewrite bind_run.
  replace (String.length text <? MAX_TEXT_LENGTH)%nat with false; [done|].
  symmetry. apply Nat.ltb_ge. done.
Qed.

Lemma create_watermark_ok (text : string) (w : World) :
  (String.length text < MAX_TEXT_LENGTH)%nat →
  allocates ("watermark_" ++ text) w →
  ∃ p evs c',
    create_watermark text None w =
      (Ok p, set_fs (<[p := Regular (PdfDoc [watermark_page text])]> (fs w))
               (set_cursor c'
                  (set_journal (EvOpenWrite p false :: evs ++ journal w) w))) ∧
    fs w !! p = None ∧ fs w !! parent p = Some Directory ∧
    (∃ d n u, p = temp_path d ("watermark_" ++ text) n u) ∧
    Forall (excl_for p) evs.
Proof.
  intros Hlen Halloc.
  destruct (temp_ok _ _ Halloc) as (p & evs & c' & Hrun & Hp & Hd & Hshape & Hevs).
  exists p, evs, c'. split; [|done].
  unfold create_watermark. rewrite bind_run.
  replace (String.length text <? MAX_TEXT_LENGTH)%nat with true
    by (symmetry; by apply Nat.ltb_lt).
  cbn [py_assert]. rewrite ret_run. cbv beta iota.
  rewrite bind_run, Hrun. cbv beta iota. rewrite bind_run.
  destruct Hshape as (d & n & u & ->).
  rewrite correct_pdf_path_temp by done. cbv beta iota.
  unfold Canvas_save, Canvas_new, draw_op. cbn [code filename pagesize app].
  rewrite !bind_run.
  erewrite open_wb_old by (cbn [fs set_fs]; apply lookup_insert_eq).
  rewrite write_file_run. exec. by rewrite !insert_insert_eq.
Qed.

(** ** [duplicate_watermark] *)

Lemma fold_addPage (pg : Page) (l : list nat) (out : list Page) :
  fold_left (λ s _, addPage pg s) l out = (out ++ repeat pg (List.length l))%list.
Proof.
  revert out; induction l as [|x l IH]; intros out; cbn [fold_left repeat List.length].
  - by rewrite List.app_nil_r.
  - rewrite IH. unfold addPage. by rewrite <- List.app_assoc.
Qed.

Lemma length_range (n : Z) : List.length (range n) = Z.to_nat n.
Proof. unfold range. apply List.length_seq. Qed.

Lemma duplicate_watermark_ok (wm : PathLike) (n : Z) (pg : Page) (rest : list Page)
    (w : World) :
  fs w !! Path_of wm = Some (Regular (PdfDoc (pg :: rest))) →
  allocates "watermark_tmp" w →
  ∃ p evs c',
    duplicate_watermark wm n None w =
      (Ok p, set_fs (<[p := Regular (PdfDoc (repeat pg (Z.to_nat n)))]> (fs w))
               (set_cursor c'
                  (set_journal
                     (EvOpenWrite p false :: EvOpenRead (Path_of wm) :: evs ++ journal w)
                     w))) ∧
    fs w !! p = None ∧ fs w !! parent p = Some Directory ∧
    (∃ d n u, p = temp_path d "watermark_tmp" n u) ∧
    Forall (excl_for p) evs ∧
    (temp_or_given "watermark_tmp" None w).1 = Ok p.
Proof.
  intros Hwm Halloc.
  destruct (temp_ok _ _ Halloc) as (p & evs & c' & Hrun & Hp & Hd & Hshape & Hevs).
  exists p, evs, c'. split; [|by rewrite Hrun].
  unfold duplicate_watermark. rewrite bind_run, Hrun. rewrite bind_run.
  destruct Hshape as (d & k & u & ->).
  rewrite correct_pdf_path_temp by done.
  set (p := temp_path d "watermark_tmp" k u) in *.
  assert (p ≠ Path_of wm) as Hne by (intros E; rewrite E, Hwm in Hp; done).
  cbv beta iota. rewrite bind_run, open_rb_run. cbn [fs set_fs].
  rewrite lookup_insert_ne, Hwm by done. cbv beta iota.
  rewrite bind_run. cbn [PdfFileReader]. rewrite ret_run. cbv beta iota.
  rewrite bind_run. cbn [getPage nth_error]. rewrite ret_run. cbv beta iota.
  rewrite bind_run, for_each_pure, fold_addPage, length_range.
  unfold PdfFileWriter. cbn [app]. cbv beta iota.
  rewrite bind_run.
  erewrite open_wb_old by (cbn [fs set_fs]; apply lookup_insert_eq).
  unfold PdfFileWriter_write. rewrite bind_run, write_file_run. exec.
  by rewrite !insert_insert_eq.
Qed.

(** ** [add_watermark] *)

(** The loop that merges page [i] of the watermarks onto page [i] of the
    input. *)
Lemma for_each_merge (pg : Page) (w : World) :
  ∀ (todo done out : list Page),
    for_each (seq (List.length done) (List.length todo))
      (λ i output,
         pdf_page ← getPage (done ++ todo) i;
         page2 ← getPage (repeat pg (List.length done + List.length todo)) i;
         let pdf_page := merge_page pdf_page page2 in
         mret (addPage pdf_page output))
      out w
    = (Ok (out ++ map (λ page, merge_page page pg) todo)%list, w).
Proof.
  induction todo as [|x todo IH]; intros done out.
  - cbn. by rewrite List.app_nil_r.
  - cbn [List.length seq for_each]. rewrite bind_run.
    rewrite bind_run. unfold getPage at 1.
    rewrite nth_error_app2, Nat.sub_diag by lia. cbn [nth_error].
    rewrite ret_run. cbv beta iota.
    rewrite bind_run. unfold getPage at 1.
    rewrite nth_error_repeat by lia. rewrite !ret_run. cbv beta iota.
    specialize (IH (done ++ [x])%list (addPage (merge_page x pg) out)).
    rewrite List.length_app in IH. cbn [List.length] in IH.
    rewrite <- List.app_assoc in IH. cbn [app] in IH.
    replace (List.length done + 1) with (S (List.length done)) in IH by lia.
    replace (S (List.length done) + List.length todo)
      with (List.length done + S (List.length todo)) in IH by lia.
    rewrite IH. unfold addPage. cbn [map]. by rewrite <- List.app_assoc.
Qed.

Lemma add_watermark_ok (x wm : PathLike) (pages : list Page) (pg : Page)
    (rest : list Page) (w : World) :
  wf_path (Path_of x) = true →
  fs w !! Path_of x = Some (Regular (PdfDoc pages)) →
  fs w !! parent (Path_of x) = Some Directory →
  fs w !! Path_of wm = Some (Regular (PdfDoc (pg :: rest))) →
  allocates "watermark_tmp" w →
  ∃ out tmp stats excls c',
    add_watermark x wm w =
      (Ok tt,
       set_fs (<[out := Regular (PdfDoc (map (λ page, merge_page page pg) pages))]>
                 (<[tmp := Regular (PdfDoc (repeat pg (List.length pages)))]> (fs w)))
         (set_cursor c'
            (set_journal
               (EvOpenWrite out true :: EvOpenRead tmp :: EvOpenWrite tmp false
                  :: EvOpenRead (Path_of wm)
                  :: excls ++ EvOpenRead (Path_of x) :: stats ++ journal w)
               w))) ∧
    ensure_new_file (wanted (Path_of x)) w = (Ok out, set_journal (stats ++ journal w) w) ∧
    fs w !! out = None ∧ fs w !! tmp = None ∧ out ≠ tmp ∧ out ≠ Path_of x ∧
    parent out = parent (Path_of x) ∧
    Forall is_stat stats ∧ Forall (excl_for tmp) excls ∧
    ∃ d n u, tmp = temp_path d "watermark_tmp" n u.
Proof.
  intros Hwf Hx Hdir Hwm Halloc. set (p := Path_of x) in *.
  destruct (wanted_facts p Hwf) as (Hwfw & _ & _).
  destruct (ensure_new_file_total (wanted p) w Hwfw) as (out & stats & Hres & Hstats & Hout).
  destruct (resolved_facts p out w Hwf) as (Hpar & Hne & Htmp);
    [by rewrite Hres|].
  set (w1 := set_journal (stats ++ journal w) w) in *.
  set (w2 := set_journal (EvOpenRead p :: journal w1) w1).
  destruct (duplicate_watermark_ok wm (getNumPages pages) pg rest w2)
    as (tmp & excls & c' & Hdup & Htmp0 & _ & (d & n & u & Hshape) & Hexcls & _).
  { done. }
  { eapply allocates_sim; [| | |exact Halloc]; done. }
  cbn [fs w2 w1 set_journal] in Htmp0.
  assert (out ≠ tmp) as Hot by (rewrite Hshape; apply Htmp).
  assert (tmp ≠ parent p) as Htp by (intros E; rewrite E, Hdir in Htmp0; done).
  exists out, tmp, stats, excls, c'. split; [|by eauto 12].
  unfold add_watermark. fold p. fold (wanted p).
  rewrite bind_run, Hres. cbv beta iota.
  rewrite bind_run, open_rb_run. cbn [fs w1 set_journal]. rewrite Hx.
  fold w1. fold w2. cbv beta iota.
  rewrite bind_run. cbn [PdfFileReader]. rewrite ret_run. cbv beta iota.
  rewrite bind_run, Hdup. cbv beta iota.
  rewrite bind_run, open_rb_run. cbn [fs set_fs]. rewrite lookup_insert_eq.
  cbv beta iota.
  rewrite bind_run. cbn [PdfFileReader]. rewrite ret_run. cbv beta iota.
  unfold getNumPages, range. rewrite Nat2Z.id.
  rewrite bind_run.
  pose proof (λ w', for_each_merge pg w' pages [] PdfFileWriter) as Hloop.
  cbn [List.length app Nat.add] in Hloop.
  rewrite Hloop. unfold PdfFileWriter. cbn [app]. cbv beta iota.
  rewrite bind_run.
  rewrite open_wb_new.
  - unfold PdfFileWriter_write. rewrite write_file_run.
    cbn [fs journal cursor set_fs set_journal set_cursor w2 w1].
    by rewrite insert_insert_eq.
  - cbn [fs set_fs set_journal set_cursor w2 w1].
    by rewrite lookup_insert_ne.
  - cbn [fs set_fs set_journal set_cursor w2 w1].
    rewrite Hpar. by rewrite lookup_insert_ne.
Qed.

End Specs.

(** * The whole run *)

Module Pipeline.
Import StrFacts PathFacts Run Temp Resolver Shapes Frame Untouched Quiet Specs.

(** ** Which files are processed *)

Lemma map_filter {A B} (f : A → B) (g : B → bool) (l : list A) :
  map f (List.filter (λ a, g (f a)) l) = List.filter g (map f l).
Proof.
  induction l as [|a l IH]; [done|]. cbn [List.filter map].
  destruct (g (f a)); cbn [map]; by rewrite IH.
Qed.

Lemma select_files_run (args : Args) (w : World) :
  ∃ evs,
    select_files args w = (Ok (selected args w), set_journal (evs ++ journal w) w) ∧
    Forall (λ ev, written ev = None) evs.
Proof.
  unfold select_files, selected, candidates.
  destruct args as [text [[|f l]|] ex]; cbn [input_files exclude].
  - exists [EvScandir (cwd (env w))]. split; [|by repeat constructor].
    unfold Path_cwd, glob_pdf. exec.
    rewrite <- (map_filter AsPath (λ x, not_in (name (Path_of x)) (default [] ex))).
    by destruct ex.
  - exists []. split; [|constructor]. unfold Path_cwd. exec.
    cbn [app]. rewrite set_journal_id.
    rewrite <- (map_filter AsStr (λ x, not_in (name (Path_of x)) (default [] ex))).
    by destruct ex.
  - exists [EvScandir (cwd (env w))]. split; [|by repeat constructor].
    unfold Path_cwd, glob_pdf. exec.
    rewrite <- (map_filter AsPath (λ x, not_in (name (Path_of x)) (default [] ex))).
    by destruct ex.
Qed.

(** ** What [logging] records *)

Lemma setup_logging_first (w : World) :
  has_handlers w = false →
  setup_logging w = (Ok tt, set_logging true INFO (emitted w) w).
Proof. intros H. unfold setup_logging, basicConfig. exec. by rewrite H. Qed.

Lemma logging_info_on (m : string) (a : list PathLike) (w : World) :
  has_handlers w = true → root_level w = INFO →
  logging_info m a w =
    (Ok tt, set_logging true INFO
              ({| levelno := INFO; msg := m; args := a |} :: emitted w) w).
Proof.
  intros Hh Hl. unfold logging_info, basicConfig. exec. rewrite Hh. exec.
  by rewrite Hl, Hh.
Qed.

Lemma loop_logs (wm : PathLike) (l : list PathLike) :
  ∀ w r w',
    has_handlers w = true → root_level w = INFO →
    for_each l
      (λ input_file _, logging_info "Processing file: %s" [input_file];;
                       add_watermark input_file wm) tt w = (Ok r, w') →
    logs true INFO (rev (map processing l) ++ emitted w)%list w'.
Proof.
  induction l as [|x l IH]; intros w r w' Hh Hl.
  - intros [= <- <-]. done.
  - cbn [for_each]. rewrite bind_run, bind_run, logging_info_on by done.
    cbv beta iota.
    set (w1 := set_logging _ _ _ w).
    destruct (add_watermark_quiet x wm true INFO (processing x :: emitted w) w1)
      as [(H1 & H2 & H3) _]; [done|].
    destruct (add_watermark x wm w1) as [[[]|e|] w2]; [|done|done].
    cbn [snd] in *. intros Hrun.
    apply IH in Hrun as (? & ? & Hem); [|done|done].
    split; [done|]. split; [done|]. rewrite Hem, H3. cbn [map rev].
    by rewrite <- List.app_assoc.
Qed.

Lemma processed_processing (l : list PathLike) :
  flat_map args
    (List.filter (λ r, String.eqb (msg r) "Processing file: %s") (map processing l)) = l.
Proof. induction l as [|x l IH]; [done|]. cbn. by rewrite IH. Qed.

(** A run that completes announces the selected files, in order. *)
Lemma main_processed (args : Args) (w w' : World) :
  has_handlers w = false →
  main args w = (Ok tt, w') →
  processed w' = (processed w ++ selected args w)%list.
Proof.
  intros Hh. unfold main. rewrite bind_run.
  destruct (select_files_run args w) as (evs & Hsel & _).
  destruct (select_files_quiet args (has_handlers w) (root_level w) (emitted w) w)
    as [(S1 & S2 & S3) _]; [done|].
  rewrite Hsel in *. cbn [snd] in *. cbv beta iota. clear Hsel.
  set (w1 := set_journal _ w) in *.
  rewrite bind_run.
  destruct (create_watermark_quiet (watermark_text args)
              (has_handlers w) (root_level w) (emitted w) w1)
    as [(C1 & C2 & C3) _]; [done|].
  destruct (create_watermark _ None w1) as [[wm|e|] w2]; [|done|done].
  cbn [snd] in *. rewrite bind_run, setup_logging_first by congruence.
  cbv beta iota. rewrite bind_run.
  set (w3 := set_logging _ _ _ w2).
  destruct (for_each _ _ tt w3) as [[[]|e|] w4] eqn:Hloop; [|done|done].
  apply loop_logs in Hloop as (L1 & L2 & L3); [|done|done].
  rewrite logging_info_on by done. intros [= <-].
  unfold processed. cbn [emitted set_logging]. rewrite L3. cbn [emitted w3 set_logging].
  rewrite C3. cbn [rev]. rewrite rev_app_distr, rev_involutive.
  rewrite !List.filter_app, !flat_map_app. cbn [List.filter String.eqb].
  cbn. rewrite List.app_nil_r. by rewrite processed_processing.
Qed.

(** ** A run on one file *)

Lemma set_logging_id (w : World) :
  set_logging (has_handlers w) (root_level w) (emitted w) w = w.
Proof. by destruct w. Qed.

Lemma basicConfig_run (l : option nat) (w : World) :
  ∃ h lv r, basicConfig l w = (Ok tt, set_logging h lv r w).
Proof.
  unfold basicConfig. exec. destruct (has_handlers w) eqn:E.
  - exists true, (root_level w), (emitted w). by rewrite <- E, set_logging_id.
  - by eexists _, _, _.
Qed.

Lemma logging_info_run (m : string) (a : list PathLike) (w : World) :
  ∃ h lv r, logging_info m a w = (Ok tt, set_logging h lv r w).
Proof.
  unfold logging_info. rewrite bind_run.
  destruct (basicConfig_run None w) as (h & lv & r & ->). exec.
  destruct (lv <=? INFO)%nat; by eexists _, _, _.
Qed.

Lemma temp_stem_hex (pre : string) (n u : N) :
  ∃ y h, temp_stem pre n u = (y ++ h)%string ∧
         String.length h = 8 ∧ all_hex h = true.
Proof.
  destruct (unique_id_hex u) as [Hh Hu].
  exists (last_piece (pre ++ name_of 8 n) ++ "_")%string, (unique_id u).
  split; [|done]. unfold temp_stem. by rewrite !app_assoc.
Qed.

(** In its first ten rounds [ensure_new_file] tries no name that
    [tempfile] could give to a file of the script. *)
Lemma early_not_temp (s0 : string) (idx : nat) (x : string) (q d : Path)
    (pre : string) (n u : N) :
  relative pre = true → shape s0 idx x → (idx ≤ 10)%nat →
  name q = (x ++ ".pdf")%string → q ≠ temp_path d pre n u.
Proof.
  intros Hpre (_ & _ & Ht) Hidx Hq ->.
  rewrite temp_path_name in Hq by done. apply app_inv_tail in Hq.
  destruct (temp_stem_hex pre n u) as (y & h & Hy & Hh & Hhex).
  destruct (Ht Hidx) as (y' & t & Hx & Hlt & Hnot).
  rewrite Hq, Hx in Hy.
  destruct (app_tails _ _ _ _ Hy) as [z ->]; [lia|].
  rewrite all_hex_app in Hhex. apply andb_true_iff in Hhex as [_ ?]. congruence.
Qed.

Lemma candidate_wanted (p : Path) :
  wf_path p = true → candidate (wanted p) 1 = second p.
Proof.
  intros Hp. destruct (wanted_facts p Hp) as (Hwf & Hpar & Hname).
  unfold candidate, second. rewrite Hpar. f_equal.
  unfold stem at 1, suffix. rewrite Hname.
  assert ((stem p ++ "_watermarked")%string ≠ "") as Hne.
  { intros H. apply (f_equal String.length) in H.
    rewrite length_app in H. cbn in H. lia. }
  rewrite name_stem_ext, name_suffix_ext by done.
  by rewrite !app_assoc.
Qed.

Lemma wanted_not_second (p : Path) : wf_path p = true → wanted p ≠ second p.
Proof.
  intros Hp H. apply (f_equal name) in H.
  destruct (wanted_string p Hp) as [H1 H2].
  unfold wanted, second in H. rewrite name_join_single in H by done.
  rewrite name_join_single in H.
  - apply String.app_inj in H. done.
  - unfold stem. rewrite mem_app, (mem_stem _ _ (mem_name p Hp)). done.
  - apply is_component_long. rewrite length_app. cbn. lia.
Qed.

Lemma second_name (p : Path) :
  wf_path p = true →
  name (second p) = (((stem p ++ "_watermarked") ++ "_" ++ Str.of_nat 1) ++ ".pdf")%string.
Proof.
  intros Hp. rewrite <- candidate_wanted by done.
  destruct (wanted_facts p Hp) as (Hwf & Hpar & Hname).
  by apply (candidate_shape (stem p) _ _ _ Hwf Hname), shape_start.
Qed.

Lemma output_not_temp (p d : Path) (pre : string) (n u : N) :
  wf_path p = true → relative pre = true →
  wanted p ≠ temp_path d pre n u ∧ second p ≠ temp_path d pre n u.
Proof.
  intros Hp Hpre. destruct (wanted_facts p Hp) as (Hwf & Hpar & Hname). split.
  - eapply early_not_temp; [done | apply shape_start | lia | done].
  - eapply early_not_temp; [done | | | by apply second_name].
    + apply shape_next, shape_start.
    + lia.
Qed.

Lemma main_one_file (text s : string) (pages : list Page) (w : World) :
  let p := Path_of_string s in
  (String.length text < MAX_TEXT_LENGTH)%nat →
  fs w !! p = Some (Regular (PdfDoc pages)) →
  fs w !! parent p = Some Directory →
  allocates ("watermark_" ++ text) w →
  allocates "watermark_tmp" (create_watermark text None w).2 →
  ∃ wmp out tmp w1 w' stats,
    main (one_file text s) w = (Ok tt, w') ∧
    fs w' = <[out := Regular (PdfDoc (merged text pages))]>
              (<[tmp := Regular (PdfDoc (repeat (watermark_page text) (List.length pages)))]>
                 (fs w1)) ∧
    fs w1 = <[wmp := Regular (PdfDoc [watermark_page text])]> (fs w) ∧
    ensure_new_file (wanted p) w1 = (Ok out, set_journal (stats ++ journal w1) w1) ∧
    fs w !! wmp = None ∧
    (∃ d n u, wmp = temp_path d ("watermark_" ++ text) n u) ∧
    fs w1 !! tmp = None ∧
    (∃ d n u, tmp = temp_path d "watermark_tmp" n u).
Proof.
  intros p Hlen Hp Hdir Ha1 Ha2.
  destruct (create_watermark_ok text w Hlen Ha1)
    as (wmp & evs & c1 & Hcw & Hwmp & _ & Hshape & _).
  rewrite Hcw in Ha2. cbn [snd] in Ha2.
  set (wC := set_fs _ _) in *.
  destruct (basicConfig_run (Some INFO) wC) as (h1 & l1 & r1 & Hsetup).
  set (wL := set_logging h1 l1 r1 wC) in *.
  destruct (logging_info_run "Processing file: %s" [AsStr s] wL)
    as (h2 & l2 & r2 & Hlog).
  set (w1 := set_logging h2 l2 r2 wL) in *.
  assert (wmp ≠ p) as Hne1 by (intros E; rewrite E, Hp in Hwmp; done).
  assert (wmp ≠ parent p) as Hne2 by (intros E; rewrite E, Hdir in Hwmp; done).
  destruct (add_watermark_ok (AsStr s) (AsPath wmp) pages (watermark_page text) [] w1)
    as (out & tmp & stats & excls & c2 & Hadd & Hres & Hout & Htmp & Hot
        & _ & _ & _ & _ & Htshape).
  { apply wf_Path_of_string. }
  { cbn [Path_of fs w1 wL wC set_logging set_fs]. by rewrite lookup_insert_ne. }
  { cbn [Path_of fs w1 wL wC set_logging set_fs]. by rewrite lookup_insert_ne. }
  { cbn [Path_of fs w1 wL wC set_logging set_fs]. by rewrite lookup_insert_eq. }
  { eapply allocates_sim; [| | |exact Ha2]; done. }
  set (wA := set_fs _ _) in Hadd.
  destruct (logging_info_run "All done!" [] wA) as (h3 & l3 & r3 & Hdone).
  exists wmp, out, tmp, w1, (set_logging h3 l3 r3 wA), stats.
  split; [|done].
  unfold main.
  rewrite bind_run.
  replace (select_files (one_file text s) w) with (Ok [AsStr s], w) by reflexivity.
  cbv beta iota. cbn [watermark_text one_file].
  rewrite bind_run, Hcw. cbv beta iota.
  unfold setup_logging. rewrite bind_run, Hsetup. cbv beta iota.
  rewrite bind_run. cbn [for_each].
  rewrite bind_run, bind_run, Hlog. cbv beta iota. fold w1.
  rewrite Hadd. cbv beta iota. rewrite ret_run. cbv beta iota.
  exact Hdone.
Qed.

End Pipeline.

(** * The claims *)

Import StrFacts PathFacts Run Temp Resolver Shapes Frame Untouched Quiet Specs Pipeline Demo.

(** C1 (the code departs from the claim).  The claim has repeated
    resolutions of one taken path return [_1], [_2], [_3], ... after the
    base name.  [ensure_new_file] appends each index to the candidate it
    just rejected, not to the original name: with [name_watermarked.pdf]
    and [name_watermarked_1.pdf] both there, it returns
    [name_watermarked_1_2.pdf], although [name_watermarked_2.pdf] is free;
    and three runs of the whole script on [name.pdf] leave
    [name_watermarked.pdf], [name_watermarked_1.pdf] and
    [name_watermarked_1_2.pdf], and no [name_watermarked_2.pdf]. *)
Theorem C1_indices_accumulate :
  (ensure_new_file (Path_of_string "/home/u/name_watermarked.pdf") taken_twice).1
    = Ok (Path_of_string "/home/u/name_watermarked_1_2.pdf") ∧
  fs taken_twice !! Path_of_string "/home/u/name_watermarked_2.pdf" = None ∧
  let run := main (one_file "DRAFT" "/home/u/name.pdf") in
  let w3 := (run (restart (run (restart (run demo).2)).2)).2 in
  let output := Some (Regular (PdfDoc (merged "DRAFT" [page "one"; page "two"; page "three"]))) in
  fs w3 !! Path_of_string "/home/u/name_watermarked.pdf" = output ∧
  fs w3 !! Path_of_string "/home/u/name_watermarked_1.pdf" = output ∧
  fs w3 !! Path_of_string "/home/u/name_watermarked_1_2.pdf" = output ∧
  fs w3 !! Path_of_string "/home/u/name_watermarked_2.pdf" = None.
Proof. by vm_compute. Qed.

(** C3 (the code departs from the claim).  The claim has [create_watermark]
    succeed for every text shorter than 28 characters.  The text becomes
    part of the name of the temporary file, so a text with a path separator
    names a file in a directory that is not there: for ["a/b"], three
    characters long, in a world whose temporary directory exists, the call
    raises [FileNotFoundError] and leaves no file. *)
Theorem C3_separator_in_text :
  (String.length "a/b" < MAX_TEXT_LENGTH)%nat ∧
  fs demo !! tempdir (env demo) = Some Directory ∧
  (create_watermark "a/b" None demo).1 = Raise FileNotFoundError ∧
  fs (create_watermark "a/b" None demo).2 = fs demo.
Proof.
  split; [unfold MAX_TEXT_LENGTH; cbn; lia|].
  split; [by vm_compute|]. split; [by vm_compute|].
  vm_cast_no_check (eq_refl (fs demo)).
Qed.

(** C10.  [-f] with no argument behaves as no [-f] at all: the two runs of
    [main] are the same function of the world, and the files selected are
    the [*.pdf] entries of the current directory that are not excluded. *)
Theorem C10_empty_f_is_no_f (text : string) (ex : option (list string)) (w : World) :
  let given_empty := {| watermark_text := text; input_files := Some []; exclude := ex |} in
  let omitted := {| watermark_text := text; input_files := None; exclude := ex |} in
  main given_empty w = main omitted w ∧
  (select_files given_empty w).1 =
    Ok (map AsPath
          (List.filter (λ f, not_in (name f) (default [] ex))
             (pdf_entries (cwd (env w)) (fs w)))).
Proof.
  intros given_empty omitted. split; [reflexivity|].
  destruct (select_files_run given_empty w) as (evs & -> & _). cbn [fst].
  unfold selected, candidates. cbn [input_files exclude given_empty].
  by rewrite <- (map_filter AsPath (λ x, not_in (name (Path_of x)) (default [] ex))).
Qed.

(** C9.  The files [main] processes are the candidates (the arguments of
    [-f], or the [*.pdf] entries of the current directory) whose base name
    is not in the exclude list: that is what lines 148 to 154 compute, a
    path is in it exactly when it is a candidate and its name is not
    excluded, and a run that completes announces those files, in order. *)
Theorem C9_processed_files (args : Args) (w : World) :
  (select_files args w).1 = Ok (selected args w) ∧
  (∀ x, In x (selected args w) ↔
        In x (candidates args w) ∧ ¬ In (name (Path_of x)) (default [] (exclude args))) ∧
  (∀ w', has_handlers w = false → main args w = (Ok tt, w') →
         processed w' = (processed w ++ selected args w)%list).
Proof.
  split; [|split].
  - by destruct (select_files_run args w) as (evs & -> & _).
  - intros x. unfold selected. rewrite List.filter_In. unfold not_in.
    rewrite negb_true_iff. split; intros [Hx Hn]; (split; [done|]).
    + intros Hin. apply not_true_iff_false in Hn. apply Hn.
      apply existsb_exists. exists (name (Path_of x)).
      split; [done | apply String.eqb_refl].
    + apply not_true_iff_false. intros (y & Hy & E%String.eqb_eq)%existsb_exists.
      by subst y.
  - intros w'. apply main_processed.
Qed.

(** A run on the demo directory with [-x empty.pdf]: [name.pdf] alone is
    selected and processed. *)
Lemma C9_processed_files_witness :
  let args := {| watermark_text := "DRAFT"; input_files := None;
                 exclude := Some ["empty.pdf"] |} in
  has_handlers demo = false ∧
  (main args demo).1 = Ok tt ∧
  selected args demo = [AsPath (Path_of_string "/home/u/name.pdf")] ∧
  processed (main args demo).2 = (processed demo ++ selected args demo)%list.
Proof.
  intros args. split; [done|].
  assert ((main args demo).1 = Ok tt) as Hok by (by vm_compute).
  split; [exact Hok|]. split; [by vm_compute|].
  destruct (C9_processed_files args demo) as (_ & _ & H).
  apply H; [done|].
  destruct (main args demo) as [r w']. cbn [fst snd] in *. by rewrite Hok.
Defined.

(** C7.  Whatever its arguments and however it ends, a run of [main]
    leaves every entry of the file system as it found it, and every path it
    opens for writing had no entry when the run began: the inputs are read
    and never written.  The path [add_watermark] resolves for an input
    differs from the input. *)
Theorem C7_inputs_untouched (args : Args) (w : World) :
  let w' := (main args w).2 in
  (∀ p e, fs w !! p = Some e → fs w' !! p = Some e) ∧
  (∃ evs, journal w' = (evs ++ journal w)%list ∧
          ∀ ev q, ev ∈ evs → written ev = Some q → fs w !! q = None) ∧
  (∀ x w0 q, wf_path (Path_of x) = true →
     (ensure_new_file
        (Path_join (parent (Path_of x)) (stem (Path_of x) ++ "_watermarked.pdf")) w0).1 = Ok q →
     q ≠ Path_of x).
Proof.
  intros w'. destruct (untouched (main args) (λ _, True) w) as [Hfs Hj].
  { intros w0. apply main_keeps. }
  split; [|split].
  - intros p e Hp. by eapply lookup_weaken.
  - done.
  - intros x w0 q Hwf Hq. by destruct (resolved_facts (Path_of x) q w0 Hwf Hq) as (_ & ? & _).
Qed.

(** A run on [name.pdf] in the demo directory leaves [name.pdf] as it
    was. *)
Lemma C7_inputs_untouched_witness :
  let args := one_file "DRAFT" "/home/u/name.pdf" in
  let input := Path_of_string "/home/u/name.pdf" in
  let before := Regular (PdfDoc [page "one"; page "two"; page "three"]) in
  fs demo !! input = Some before ∧ fs (main args demo).2 !! input = Some before.
Proof.
  intros args input before.
  assert (fs demo !! input = Some before) as H by (by vm_compute).
  split; [exact H|].
  destruct (C7_inputs_untouched args demo) as (Hkeep & _).
  by apply Hkeep.
Defined.

(** C4.  For a watermark file whose document has a first page, and a page
    count [n >= 0], [duplicate_watermark] returns the path of a new file
    that holds a document of exactly [n] pages, each of them that first
    page.  The pages after the first are not used: with any other pages
    in their place the call returns the same path and writes the same
    document.  (A temporary file must be available, as for every run.) *)
Theorem C4_replicate (wm : PathLike) (n : Z) (pg : Page) (rest : list Page) (w : World) :
  (0 ≤ n)%Z →
  fs w !! Path_of wm = Some (Regular (PdfDoc (pg :: rest))) →
  allocates "watermark_tmp" w →
  ∃ p w' doc,
    duplicate_watermark wm n None w = (Ok p, w') ∧
    fs w !! p = None ∧
    fs w' !! p = Some (Regular (PdfDoc doc)) ∧
    Z.of_nat (List.length doc) = n ∧
    (∀ page, In page doc → page = pg) ∧
    ∀ rest',
      let other := set_fs (<[Path_of wm := Regular (PdfDoc (pg :: rest'))]> (fs w)) w in
      (duplicate_watermark wm n None other).1 = Ok p ∧
      fs (duplicate_watermark wm n None other).2 !! p = Some (Regular (PdfDoc doc)).
Proof.
  intros Hn Hwm Halloc.
  destruct (duplicate_watermark_ok wm n pg rest w Hwm Halloc)
    as (p & evs & c' & Hrun & Hp & _ & _ & _ & Htemp).
  eexists p, _, (repeat pg (Z.to_nat n)). split; [exact Hrun|].
  split; [done|]. split; [cbn [fs set_fs]; apply lookup_insert_eq|].
  split; [rewrite List.repeat_length; lia|]. split.
  { intros page Hin. by apply List.repeat_spec in Hin. }
  intros rest' other.
  assert ((temp_or_given "watermark_tmp" None other).1 = Ok p) as Htemp'.
  { rewrite <- Htemp. apply temp_kinds; [done | done |].
    intros q. cbn [fs other set_fs].
    destruct (decide (Path_of wm = q)) as [<-|Hne].
    - by rewrite lookup_insert_eq, Hwm.
    - by rewrite lookup_insert_ne. }
  destruct (duplicate_watermark_ok wm n pg rest' other)
    as (p' & evs' & c'' & Hrun' & _ & _ & _ & _ & Htemp'').
  { cbn [fs other set_fs]. apply lookup_insert_eq. }
  { by exists p. }
  assert (p' = p) as -> by congruence.
  rewrite Hrun'. split; [done|]. cbn [snd fs set_fs]. apply lookup_insert_eq.
Qed.

Lemma C4_replicate_witness :
  ∃ p w' doc,
    duplicate_watermark (AsStr "/tmp/mark.pdf") 3 None demo = (Ok p, w') ∧
    fs demo !! p = None ∧
    fs w' !! p = Some (Regular (PdfDoc doc)) ∧
    Z.of_nat (List.length doc) = 3%Z ∧
    (∀ pg, In pg doc → pg = page "DRAFT") ∧
    ∀ rest',
      let other :=
        set_fs (<[Path_of (AsStr "/tmp/mark.pdf") := Regular (PdfDoc (page "DRAFT" :: rest'))]>
                  (fs demo)) demo in
      (duplicate_watermark (AsStr "/tmp/mark.pdf") 3 None other).1 = Ok p ∧
      fs (duplicate_watermark (AsStr "/tmp/mark.pdf") 3 None other).2 !! p
        = Some (Regular (PdfDoc doc)).
Proof.
  apply (C4_replicate (AsStr "/tmp/mark.pdf") 3 (page "DRAFT")
           [page "second page of the watermark"] demo).
  - lia.
  - by vm_compute.
  - eexists. by vm_compute.
Defined.

(** C5.  For an input that is a PDF document of [P] pages in an existing
    directory and a watermark document with a first page,
    [add_watermark] completes and writes, at a path where nothing was, a
    document of [P] pages: page [i] of the input with the watermark merged
    onto it.  (A temporary file must be available.) *)
Theorem C5_merge_keeps_page_count (x wm : PathLike) (pages : list Page) (pg : Page)
    (rest : list Page) (w : World) :
  wf_path (Path_of x) = true →
  fs w !! Path_of x = Some (Regular (PdfDoc pages)) →
  fs w !! parent (Path_of x) = Some Directory →
  fs w !! Path_of wm = Some (Regular (PdfDoc (pg :: rest))) →
  allocates "watermark_tmp" w →
  ∃ out w' output,
    add_watermark x wm w = (Ok tt, w') ∧
    fs w !! out = None ∧
    fs w' !! out = Some (Regular (PdfDoc output)) ∧
    List.length output = List.length pages ∧
    (∀ i, nth_error output i = option_map (λ page, merge_page page pg) (nth_error pages i)).
Proof.
  intros Hwf Hx Hdir Hwm Halloc.
  destruct (add_watermark_ok x wm pages pg rest w Hwf Hx Hdir Hwm Halloc)
    as (out & tmp & stats & excls & c' & Hrun & _ & Hout & _).
  eexists out, _, (map (λ page, merge_page page pg) pages).
  split; [exact Hrun|]. split; [done|].
  split; [cbn [fs set_fs]; apply lookup_insert_eq|].
  split; [apply List.length_map|]. intros i. apply List.nth_error_map.
Qed.

Lemma C5_merge_keeps_page_count_witness :
  ∃ out w' output,
    add_watermark (AsStr "/home/u/name.pdf") (AsStr "/tmp/mark.pdf") demo = (Ok tt, w') ∧
    fs demo !! out = None ∧
    fs w' !! out = Some (Regular (PdfDoc output)) ∧
    List.length output = 3 ∧
    (∀ i, nth_error output i =
          option_map (λ pg, merge_page pg (page "DRAFT"))
            (nth_error [page "one"; page "two"; page "three"] i)).
Proof.
  apply (C5_merge_keeps_page_count (AsStr "/home/u/name.pdf") (AsStr "/tmp/mark.pdf")
           [page "one"; page "two"; page "three"] (page "DRAFT")
           [page "second page of the watermark"] demo).
  - by vm_compute.
  - by vm_compute.
  - by vm_compute.
  - by vm_compute.
  - eexists. by vm_compute.
Defined.

(** C8.  For an input of zero pages [add_watermark] does not raise: the
    replicated watermark document it writes has no page, the merge loop
    has nothing to do, and the output written is a document of zero
    pages. *)
Theorem C8_zero_pages (x wm : PathLike) (pg : Page) (rest : list Page) (w : World) :
  wf_path (Path_of x) = true →
  fs w !! Path_of x = Some (Regular (PdfDoc [])) →
  fs w !! parent (Path_of x) = Some Directory →
  fs w !! Path_of wm = Some (Regular (PdfDoc (pg :: rest))) →
  allocates "watermark_tmp" w →
  range (getNumPages []) = [] ∧
  ∃ out tmp w',
    add_watermark x wm w = (Ok tt, w') ∧
    fs w' !! tmp = Some (Regular (PdfDoc [])) ∧
    fs w' !! out = Some (Regular (PdfDoc [])) ∧
    fs w !! out = None ∧ fs w !! tmp = None ∧ out ≠ tmp.
Proof.
  intros Hwf Hx Hdir Hwm Halloc. split; [done|].
  destruct (add_watermark_ok x wm [] pg rest w Hwf Hx Hdir Hwm Halloc)
    as (out & tmp & stats & excls & c' & Hrun & _ & Hout & Htmp & Hne & _).
  eexists out, tmp, _. split; [exact Hrun|]. cbn [fs set_fs map repeat List.length].
  split; [rewrite lookup_insert_ne by done; apply lookup_insert_eq|].
  split; [apply lookup_insert_eq | done].
Qed.

Lemma C8_zero_pages_witness :
  range (getNumPages []) = [] ∧
  ∃ out tmp w',
    add_watermark (AsStr "/home/u/empty.pdf") (AsStr "/tmp/mark.pdf") demo = (Ok tt, w') ∧
    fs w' !! tmp = Some (Regular (PdfDoc [])) ∧
    fs w' !! out = Some (Regular (PdfDoc [])) ∧
    fs demo !! out = None ∧ fs demo !! tmp = None ∧ out ≠ tmp.
Proof.
  apply (C8_zero_pages (AsStr "/home/u/empty.pdf") (AsStr "/tmp/mark.pdf")
           (page "DRAFT") [page "second page of the watermark"] demo).
  - by vm_compute.
  - by vm_compute.
  - by vm_compute.
  - by vm_compute.
  - eexists. by vm_compute.
Defined.

(** C6.  What [ensure_new_file] returns, for any path, is a path at which
    the file system has nothing when it is called, and the call changes no
    file.  Consequently, for an input as in C5, the file [add_watermark]
    writes last is one it creates ([created] is [true]: nothing was at that
    path, not even a temporary file of the run), and every entry that was
    there before is still there, unchanged. *)
Theorem C6_output_is_new (x wm : PathLike) (pages : list Page) (pg : Page)
    (rest : list Page) (w : World) :
  wf_path (Path_of x) = true →
  fs w !! Path_of x = Some (Regular (PdfDoc pages)) →
  fs w !! parent (Path_of x) = Some Directory →
  fs w !! Path_of wm = Some (Regular (PdfDoc (pg :: rest))) →
  allocates "watermark_tmp" w →
  (∀ p w0 q w1, ensure_new_file p w0 = (Ok q, w1) → fs w0 !! q = None ∧ fs w1 = fs w0) ∧
  ∃ out w' older,
    (ensure_new_file
       (Path_join (parent (Path_of x)) (stem (Path_of x) ++ "_watermarked.pdf")) w).1 = Ok out ∧
    fs w !! out = None ∧
    add_watermark x wm w = (Ok tt, w') ∧
    journal w' = (EvOpenWrite out true :: older ++ journal w)%list ∧
    (∀ ev, In ev older → written ev ≠ Some out) ∧
    (∀ p e, fs w !! p = Some e → fs w' !! p = Some e).
Proof.
  intros Hwf Hx Hdir Hwm Halloc. split.
  - intros p w0 q w1 Hrun. rewrite ensure_new_file_unfold in Hrun.
    destruct (loop_spec (S (size (fs w0))) p 1 w0) as (evs & Hw & _ & Hq).
    rewrite Hrun in Hw, Hq. cbn [fst snd] in *. by subst w1.
  - destruct (add_watermark_ok x wm pages pg rest w Hwf Hx Hdir Hwm Halloc)
      as (out & tmp & stats & excls & c' & Hrun & Hres & Hout & Htmp & Hne & _ & _
          & Hstats & Hexcls & _).
    destruct (untouched (add_watermark x wm) (λ _, True) w) as [Hfs _].
    { intros w0. apply add_watermark_keeps. }
    eexists out, _,
      (EvOpenRead tmp :: EvOpenWrite tmp false :: EvOpenRead (Path_of wm)
         :: excls ++ EvOpenRead (Path_of x) :: stats)%list.
    split; [unfold wanted in Hres; by rewrite Hres|]. split; [done|]. split; [exact Hrun|].
    split; [cbn [journal set_journal set_cursor set_fs];
            by rewrite <- !List.app_comm_cons, <- List.app_assoc|].
    split.
    + intros ev [<-|[<-|[<-|Hin]]]; [done | cbn; congruence | done |].
      apply List.in_app_or in Hin as [Hin|[<-|Hin]]; [| done |].
      * rewrite List.Forall_forall in Hexcls.
        destruct (Hexcls ev Hin) as (q & b & -> & Hb).
        destruct b; cbn; [|done]. rewrite (Hb eq_refl). congruence.
      * rewrite List.Forall_forall in Hstats.
        by destruct (Hstats ev Hin) as (q & ->).
    + intros p e Hp. rewrite Hrun in Hfs. by eapply lookup_weaken.
Qed.

Lemma C6_output_is_new_witness :
  (∀ p w0 q w1, ensure_new_file p w0 = (Ok q, w1) → fs w0 !! q = None ∧ fs w1 = fs w0) ∧
  ∃ out w' older,
    (ensure_new_file
       (Path_join (parent (Path_of_string "/home/u/name.pdf"))
          (stem (Path_of_string "/home/u/name.pdf") ++ "_watermarked.pdf")) demo).1 = Ok out ∧
    fs demo !! out = None ∧
    add_watermark (AsStr "/home/u/name.pdf") (AsStr "/tmp/mark.pdf") demo = (Ok tt, w') ∧
    journal w' = (EvOpenWrite out true :: older ++ journal demo)%list ∧
    (∀ ev, In ev older → written ev ≠ Some out) ∧
    (∀ p e, fs demo !! p = Some e → fs w' !! p = Some e).
Proof.
  apply (C6_output_is_new (AsStr "/home/u/name.pdf") (AsStr "/tmp/mark.pdf")
           [page "one"; page "two"; page "three"] (page "DRAFT")
           [page "second page of the watermark"] demo).
  - by vm_compute.
  - by vm_compute.
  - by vm_compute.
  - by vm_compute.
  - eexists. by vm_compute.
Defined.

(** C2.  Two runs of the whole script on the same input with the same
    text, the second in a process that finds the files the first left,
    starting where neither [<stem>_watermarked.pdf] nor
    [<stem>_watermarked_1.pdf] exists: both runs complete, the first
    writes [<stem>_watermarked.pdf], the second writes
    [<stem>_watermarked_1.pdf], a different path, and the second run never
    opens the first output for writing and leaves it as it was.
    (The input is a PDF document in an existing directory, the text is
    short enough, and temporary files are available to both runs.) *)
Theorem C2_second_run_gets_suffix_1 (text s : string) (pages : list Page) (w v : World) :
  let p := Path_of_string s in
  let first := Path_join (parent p) (stem p ++ "_watermarked.pdf") in
  let second := Path_join (parent p) (stem p ++ "_watermarked_1.pdf") in
  let w1 := (main (one_file text s) w).2 in
  let w2 := (main (one_file text s) v).2 in
  (String.length text < MAX_TEXT_LENGTH)%nat →
  fs w !! p = Some (Regular (PdfDoc pages)) →
  fs w !! parent p = Some Directory →
  fs w !! first = None →
  fs w !! second = None →
  allocates ("watermark_" ++ text) w →
  allocates "watermark_tmp" (create_watermark text None w).2 →
  fs v = fs w1 →
  allocates ("watermark_" ++ text) v →
  allocates "watermark_tmp" (create_watermark text None v).2 →
  (main (one_file text s) w).1 = Ok tt ∧
  (main (one_file text s) v).1 = Ok tt ∧
  fs w1 !! first = Some (Regular (PdfDoc (merged text pages))) ∧
  fs w1 !! second = None ∧
  fs w2 !! second = Some (Regular (PdfDoc (merged text pages))) ∧
  first ≠ second ∧
  fs w2 !! first = fs w1 !! first ∧
  ∃ evs, journal w2 = (evs ++ journal v)%list ∧
         ∀ ev, ev ∈ evs → written ev ≠ Some first.
Proof.
  intros p first second' w1 w2 Hlen Hp Hdir Hfirst Hsecond Ha1 Ha2 Hv Ha3 Ha4.
  assert (wf_path p = true) as Hwf by apply wf_Path_of_string.
  fold (wanted p) in first, Hfirst. fold (second p) in second', Hsecond.
  subst first second'.
  pose proof (wanted_not_second p Hwf) as Hne.
  (* the first run *)
  destruct (main_one_file text s pages w Hlen Hp Hdir Ha1 Ha2)
    as (wmp & out & tmp & wi & w' & stats & Hrun & Hfs & Hfsi & Hres & Hwmp
        & (d1 & n1 & u1 & Hwshape) & Htmp & (d2 & n2 & u2 & Htshape)).
  change (Path_of_string s) with p in Hres.
  destruct (output_not_temp p d1 ("watermark_" ++ text) n1 u1 Hwf eq_refl) as [Hn1 Hn2].
  destruct (output_not_temp p d2 "watermark_tmp" n2 u2 Hwf eq_refl) as [Hn3 Hn4].
  rewrite <- Hwshape in Hn1, Hn2. rewrite <- Htshape in Hn3, Hn4.
  assert (out = (wanted p)) as ->.
  { rewrite ensure_new_file_free in Hres; [by injection Hres|].
    rewrite Hfsi, lookup_insert_ne by done. done. }
  assert (w1 = w') as Hw1 by (unfold w1; by rewrite Hrun).
  assert (fs w1 !! (wanted p) = Some (Regular (PdfDoc (merged text pages)))) as H1.
  { rewrite Hw1, Hfs. apply lookup_insert_eq. }
  assert (fs w1 !! (second p) = None) as H2.
  { rewrite Hw1, Hfs, !lookup_insert_ne, Hfsi, lookup_insert_ne by done. done. }
  (* the second run *)
  destruct (untouched (main (one_file text s)) (λ _, True) w) as [Hframe _].
  { intros w0. apply main_keeps. }
  fold w1 in Hframe.
  assert (fs v !! p = Some (Regular (PdfDoc pages))) as Hp'
    by (rewrite Hv; by eapply lookup_weaken).
  assert (fs v !! parent p = Some Directory) as Hdir'
    by (rewrite Hv; by eapply lookup_weaken).
  destruct (main_one_file text s pages v Hlen Hp' Hdir' Ha3 Ha4)
    as (wmp' & out' & tmp' & vi & v' & stats' & Hrun' & Hfs' & Hfsi' & Hres' & Hwmp'
        & (d3 & n3 & u3 & Hwshape') & Htmp' & _).
  change (Path_of_string s) with p in Hres'.
  destruct (output_not_temp p d3 ("watermark_" ++ text) n3 u3 Hwf eq_refl) as [Hn5 Hn6].
  rewrite <- Hwshape' in Hn5, Hn6.
  assert (out' = (second p)) as ->.
  { rewrite ensure_new_file_once in Hres'.
    - injection Hres' as <- _. by apply candidate_wanted.
    - rewrite Hfsi', lookup_insert_ne, Hv, H1 by done. by eexists.
    - rewrite candidate_wanted by done.
      rewrite Hfsi', lookup_insert_ne, Hv by done. done. }
  assert (w2 = v') as Hw2 by (unfold w2; by rewrite Hrun').
  destruct (untouched (main (one_file text s)) (λ _, True) v) as [Hframe' (evs & Hj & Hevs)].
  { intros w0. apply main_keeps. }
  fold w2 in Hframe', Hj.
  split; [by rewrite Hrun|]. split; [by rewrite Hrun'|]. split; [done|]. split; [done|].
  split; [rewrite Hw2, Hfs'; apply lookup_insert_eq|]. split; [done|].
  split.
  - rewrite H1. eapply lookup_weaken; [|exact Hframe']. by rewrite Hv.
  - exists evs. split; [done|]. intros ev Hev Hwr.
    specialize (Hevs ev (wanted p) Hev Hwr). rewrite Hv, H1 in Hevs. done.
Qed.

Lemma restart_fs (w : World) : fs (restart w) = fs w.
Proof. reflexivity. Qed.

Lemma demo_allocates_first : allocates ("watermark_" ++ "DRAFT") demo.
Proof. eexists. by vm_compute. Qed.

Lemma demo_allocates_second :
  allocates "watermark_tmp" (create_watermark "DRAFT" None demo).2.
Proof. eexists. by vm_compute. Qed.

Lemma demo_allocates_third :
  allocates ("watermark_" ++ "DRAFT")
    (restart (main (one_file "DRAFT" "/home/u/name.pdf") demo).2).
Proof. eexists. by vm_compute. Qed.

Lemma demo_allocates_fourth :
  allocates "watermark_tmp"
    (create_watermark "DRAFT" None
       (restart (main (one_file "DRAFT" "/home/u/name.pdf") demo).2)).2.
Proof. eexists. by vm_compute. Qed.

Lemma C2_second_run_gets_suffix_1_witness :
  let text := "DRAFT" in
  let s := "/home/u/name.pdf" in
  let pages := [page "one"; page "two"; page "three"] in
  let v := restart (main (one_file text s) demo).2 in
  let p := Path_of_string s in
  let first := Path_join (parent p) (stem p ++ "_watermarked.pdf") in
  let second := Path_join (parent p) (stem p ++ "_watermarked_1.pdf") in
  let w1 := (main (one_file text s) demo).2 in
  let w2 := (main (one_file text s) v).2 in
  (main (one_file text s) demo).1 = Ok tt ∧
  (main (one_file text s) v).1 = Ok tt ∧
  fs w1 !! first = Some (Regular (PdfDoc (merged text pages))) ∧
  fs w1 !! second = None ∧
  fs w2 !! second = Some (Regular (PdfDoc (merged text pages))) ∧
  first ≠ second ∧
  fs w2 !! first = fs w1 !! first ∧
  ∃ evs, journal w2 = (evs ++ journal v)%list ∧
         ∀ ev, ev ∈ evs → written ev ≠ Some first.
Proof.
  intros text s pages v.
  apply (C2_second_run_gets_suffix_1 text s pages demo v).
  - unfold MAX_TEXT_LENGTH. cbn. lia.
  - by vm_compute.
  - by vm_compute.
  - by vm_compute.
  - by vm_compute.
  - exact demo_allocates_first.
  - exact demo_allocates_second.
  - apply restart_fs.
  - exact demo_allocates_third.
  - exact demo_allocates_fourth.
Defined.

(** * Further properties *)

(** X1.  The loop of [ensure_new_file] ends on every file system, for
    every path [pathlib] can build: each candidate has a longer name than
    the one before, so only as many as there are entries can be taken.  It
    returns a path that has no entry and changes no file. *)
Theorem X1_resolution_terminates (p : Path) (w : World) :
  wf_path p = true →
  ∃ q w', ensure_new_file p w = (Ok q, w') ∧ fs w !! q = None ∧ fs w' = fs w.
Proof.
  intros Hp. destruct (ensure_new_file_total p w Hp) as (q & evs & Hrun & _ & Hq).
  by eexists q, _.
Qed.

Lemma X1_resolution_terminates_witness :
  wf_path (Path_of_string "/home/u/name_watermarked.pdf") = true ∧
  ∃ q w', ensure_new_file (Path_of_string "/home/u/name_watermarked.pdf") taken_twice
            = (Ok q, w') ∧
          fs taken_twice !! q = None ∧ fs w' = fs taken_twice.
Proof.
  split; [by vm_compute|].
  apply (X1_resolution_terminates (Path_of_string "/home/u/name_watermarked.pdf") taken_twice).
  by vm_compute.
Defined.

(** X2.  A text of 28 characters or more makes [create_watermark] raise
    [AssertionError] at once: the world it leaves is the world it found,
    with no file created and no system call in the journal. *)
Theorem X2_long_text_rejected_first (text : string) (o : option PathLike) (w : World) :
  (MAX_TEXT_LENGTH ≤ String.length text)%nat →
  create_watermark text o w = (Raise AssertionError, w).
Proof. apply create_watermark_long. Qed.

Lemma X2_long_text_rejected_first_witness :
  String.length "0123456789012345678901234567" = 28 ∧
  create_watermark "0123456789012345678901234567" None demo = (Raise AssertionError, demo).
Proof.
  split; [reflexivity|].
  apply (X2_long_text_rejected_first "0123456789012345678901234567" None demo).
  unfold MAX_TEXT_LENGTH. cbn. lia.
Defined.

(** X3.  For a text shorter than 28 characters whose temporary file can
    be created, [create_watermark] returns the path of a new file and the
    file system it leaves differs from the one it found by that file
    alone, which holds a document of one page: the text drawn in gray at
    60% opacity, Helvetica 50, after a rotation of 45 degrees, centred at
    (500, 100) on an A4 page. *)
Theorem X3_render_writes_one_page (text : string) (w : World) :
  (String.length text < MAX_TEXT_LENGTH)%nat →
  allocates ("watermark_" ++ text) w →
  ∃ p w',
    create_watermark text None w = (Ok p, w') ∧
    fs w !! p = None ∧
    fs w' = <[p := Regular (PdfDoc [watermark_page text])]> (fs w).
Proof.
  intros Hlen Halloc.
  destruct (create_watermark_ok text w Hlen Halloc) as (p & evs & c' & Hrun & Hp & _).
  by eexists p, _.
Qed.

Lemma X3_render_writes_one_page_witness :
  ∃ p w',
    create_watermark "CONFIDENTIAL" None demo = (Ok p, w') ∧
    fs demo !! p = None ∧
    fs w' = <[p := Regular (PdfDoc [watermark_page "CONFIDENTIAL"])]> (fs demo).
Proof.
  apply (X3_render_writes_one_page "CONFIDENTIAL" demo).
  - unfold MAX_TEXT_LENGTH. cbn. lia.
  - eexists. by vm_compute.
Defined.

(** ** The extension [correct_pdf_path] gives *)

Module Extension.
Import StrFacts PathFacts Run.

Lemma length_drop (n : nat) (s : string) :
  String.length (Str.drop n s) = String.length s - n.
Proof.
  revert s; induction n as [|n IH]; intros [|c s]; cbn [Str.drop String.length];
    first [done | lia | apply IH].
Qed.

Lemma rfind_None_mem (c : ascii) (s : string) :
  Str.rfind c s = None → Str.mem c s = false.
Proof.
  induction s as [|x s IH]; [done|]. cbn [Str.rfind Str.mem].
  destruct (Str.rfind c s); [done|].
  destruct (Ascii.eqb x c); [done|]. intros _. by apply IH.
Qed.

(** [rfind] finds the last occurrence. *)
Lemma rfind_last (c : ascii) (s : string) (i : nat) :
  Str.rfind c s = Some i → ∃ r, Str.drop i s = String c r ∧ Str.mem c r = false.
Proof.
  revert i; induction s as [|x s IH]; intros i; [done|]. cbn [Str.rfind].
  destruct (Str.rfind c s) as [j|] eqn:E.
  - intros [= <-]. cbn [Str.drop]. by apply IH.
  - destruct (Ascii.eqb_spec x c) as [->|]; [|done].
    intros [= <-]. exists s. split; [done|]. by apply rfind_None_mem.
Qed.

Lemma suffix_index_bounds (nm : string) (i : nat) :
  suffix_index nm = Some i → 0 < i ∧ i < String.length nm - 1 ∧ Str.rfind "." nm = Some i.
Proof.
  unfold suffix_index. destruct (Str.rfind "." nm) as [j|]; [|done].
  destruct (0 <? j)%nat eqn:E1; [|done]. destruct (j <? String.length nm - 1)%nat eqn:E2; [|done].
  intros [= <-]. apply Nat.ltb_lt in E1, E2. done.
Qed.

(** A suffix that is not empty is an extension. *)
Lemma suffix_is_ext (nm : string) : name_suffix nm ≠ "" → is_ext (name_suffix nm) = true.
Proof.
  unfold name_suffix. destruct (suffix_index nm) as [i|] eqn:E; [|done]. intros _.
  destruct (suffix_index_bounds nm i E) as (H0 & H1 & Hr).
  destruct (rfind_last _ _ _ Hr) as (r & Hd & Hm).
  pose proof (length_drop i nm) as Hl. rewrite Hd in *. cbn [String.length] in Hl.
  cbn [is_ext]. rewrite Hm. destruct r; [cbn [String.length] in Hl; lia | done].
Qed.

Lemma stem_not_empty (nm : string) : nm ≠ "" → name_stem nm ≠ "".
Proof.
  intros Hnm. unfold name_stem. destruct (suffix_index nm) as [i|] eqn:E; [|done].
  destruct (suffix_index_bounds nm i E) as (H0 & _).
  destruct i as [|i]; [lia|]. by destruct nm.
Qed.

Lemma stem_of_name (nm : string) :
  Str.take (String.length nm - String.length (name_suffix nm)) nm = name_stem nm.
Proof.
  pose proof (take_app_length (name_stem nm) (name_suffix nm)) as H.
  rewrite stem_suffix in H. pose proof (length_stem_suffix nm).
  by replace (String.length nm - String.length (name_suffix nm))
    with (String.length (name_stem nm)) by lia.
Qed.

Lemma name_parts (p : Path) :
  name p ≠ "" → parts p = (removelast (parts p) ++ [name p])%list.
Proof.
  unfold name. intros H. apply List.app_removelast_last.
  intros E. by rewrite E in H.
Qed.

(** What [correct_pdf_path] returns: the path with the last suffix of
    its name replaced by [.pdf]. *)
Lemma correct_pdf_path_run (p : Path) (w : World) :
  name p ≠ "" →
  ∃ q, correct_pdf_path p w = (Ok q, w) ∧
       root q = root p ∧
       parts q = (removelast (parts p) ++ [stem p ++ ".pdf"]%string)%list ∧
       (suffix p = ".pdf" → q = p).
Proof.
  intros Hn. unfold correct_pdf_path.
  destruct (String.eqb_spec (suffix p) ".pdf") as [E|E].
  - exists p. split; [done|]. split; [done|]. split; [|done].
    rewrite (name_parts p Hn) at 1. do 2 f_equal.
    unfold stem. rewrite <- E. unfold suffix. by rewrite stem_suffix.
  - unfold with_suffix. destruct (String.eqb_spec (name p) "") as [|_]; [done|].
    eexists. split; [reflexivity|]. cbn [root parts]. split; [done|]. split; [|done].
    do 3 f_equal. unfold stem, suffix.
    destruct (String.eqb_spec (name_suffix (name p)) "") as [E0|E0].
    + pose proof (stem_suffix (name p)) as H. rewrite E0, app_nil_r in H. by rewrite H.
    + by rewrite stem_of_name.
Qed.

Lemma corrected_facts (p q : Path) :
  name p ≠ "" → root q = root p →
  parts q = (removelast (parts p) ++ [stem p ++ ".pdf"]%string)%list →
  parent q = parent p ∧ name q = (stem p ++ ".pdf")%string ∧
  suffix q = ".pdf" ∧ stem q = stem p.
Proof.
  intros Hn Hr Hp. destruct q as [r l]. cbn [root parts] in *. subst r l.
  rewrite parent_snoc, name_snoc. split; [done|]. split; [done|].
  pose proof (stem_not_empty (name p) Hn). unfold suffix, stem.
  rewrite name_snoc. by rewrite name_suffix_ext, name_stem_ext.
Qed.

Lemma correct_pdf_path_empty (p : Path) (w : World) :
  name p = "" → correct_pdf_path p w = (Raise ValueError, w).
Proof.
  intros Hn. unfold correct_pdf_path, with_suffix, suffix. by rewrite Hn.
Qed.

Lemma correct_pdf_path_ok (p q : Path) (w : World) :
  (correct_pdf_path p w).1 = Ok q →
  name p ≠ "" ∧ correct_pdf_path p w = (Ok q, w) ∧
  parent q = parent p ∧ name q = (stem p ++ ".pdf")%string ∧ suffix q = ".pdf".
Proof.
  intros Hq. destruct (String.eqb_spec (name p) "") as [E|E].
  { by rewrite correct_pdf_path_empty in Hq. }
  destruct (correct_pdf_path_run p w E) as (q' & Hrun & Hr & Hp & _).
  rewrite Hrun in Hq. injection Hq as <-.
  destruct (corrected_facts p q' E Hr Hp) as (? & ? & ? & _). done.
Qed.

(** [open(p, "wb")] on a path that can be written. *)
Lemma open_wb_writable (p : Path) (w : World) :
  writable (fs w) p = true →
  ∃ b, open_wb p w =
    (Ok p, set_fs (<[p := Regular (RawBytes "")]> (fs w))
             (set_journal (EvOpenWrite p b :: journal w) w)).
Proof.
  unfold writable. destruct (fs w !! p) as [[|c]|] eqn:Hp; [done | |].
  - intros _. exists false. by eapply open_wb_old.
  - destruct (fs w !! parent p) as [[|c]|] eqn:Hd; [|done|done].
    intros _. exists true. by apply open_wb_new.
Qed.

End Extension.

Import Extension.

(** X4.  [correct_pdf_path] on a path with a name returns, without
    touching anything, the path in the same directory whose name is the
    stem of the given name followed by [.pdf]: only the last suffix is
    replaced ([a.tar.gz] becomes [a.tar.pdf]), a name without suffix gets
    one, and the result is the argument exactly when the suffix already
    was [.pdf].  Correcting twice is correcting once. *)
Theorem X4_corrected_path (p : Path) (w : World) :
  name p ≠ "" →
  ∃ q, correct_pdf_path p w = (Ok q, w) ∧
       parent q = parent p ∧
       name q = (stem p ++ ".pdf")%string ∧
       suffix q = ".pdf" ∧ stem q = stem p ∧
       (q = p ↔ suffix p = ".pdf") ∧
       correct_pdf_path q w = (Ok q, w).
Proof.
  intros Hn. destruct (correct_pdf_path_run p w Hn) as (q & Hrun & Hr & Hp & Hid).
  destruct (corrected_facts p q Hn Hr Hp) as (H1 & H2 & H3 & H4).
  exists q. repeat split; try done.
  - by intros <-.
  - unfold correct_pdf_path. by rewrite H3.
Qed.

Lemma X4_corrected_path_witness :
  name (Path_of_string "/home/u/a.tar.gz") ≠ "" ∧
  ∃ q, correct_pdf_path (Path_of_string "/home/u/a.tar.gz") demo = (Ok q, demo) ∧
       parent q = parent (Path_of_string "/home/u/a.tar.gz") ∧
       name q = "a.tar.pdf" ∧
       suffix q = ".pdf" ∧ stem q = "a.tar" ∧
       (q = Path_of_string "/home/u/a.tar.gz"
          ↔ suffix (Path_of_string "/home/u/a.tar.gz") = ".pdf") ∧
       correct_pdf_path q demo = (Ok q, demo).
Proof.
  split; [by vm_compute|].
  apply (X4_corrected_path (Path_of_string "/home/u/a.tar.gz") demo). by vm_compute.
Defined.

(** X5.  A given output path without a name ([""], ["."], ["/"]) is
    refused by both writers before they read or write anything:
    [with_suffix] raises [ValueError]. *)
Theorem X5_output_path_without_name (text : string) (wm out : PathLike) (n : Z) (w : World) :
  (String.length text < MAX_TEXT_LENGTH)%nat →
  name (Path_of out) = "" →
  create_watermark text (Some out) w = (Raise ValueError, w) ∧
  duplicate_watermark wm n (Some out) w = (Raise ValueError, w).
Proof.
  intros Hlen Hn. split.
  - unfold create_watermark. rewrite bind_run.
    replace (String.length text <? MAX_TEXT_LENGTH)%nat with true
      by (symmetry; by apply Nat.ltb_lt).
    cbn [py_assert temp_or_given]. rewrite ret_run. cbv beta iota.
    rewrite bind_run, ret_run. cbv beta iota.
    by rewrite bind_run, correct_pdf_path_empty.
  - unfold duplicate_watermark. cbn [temp_or_given].
    rewrite bind_run, ret_run. cbv beta iota.
    by rewrite bind_run, correct_pdf_path_empty.
Qed.

Lemma X5_output_path_without_name_witness :
  create_watermark "DRAFT" (Some (AsStr ".")) demo = (Raise ValueError, demo) ∧
  duplicate_watermark (AsStr "/tmp/mark.pdf") 3 (Some (AsStr ".")) demo
    = (Raise ValueError, demo).
Proof.
  apply (X5_output_path_without_name "DRAFT" (AsStr "/tmp/mark.pdf") (AsStr ".") 3 demo).
  - unfold MAX_TEXT_LENGTH. cbn. lia.
  - reflexivity.
Defined.

(** X6.  With an output path given, [create_watermark] draws on no
    temporary file and uses no randomness: it writes the one-page
    watermark at the given path with its suffix corrected to [.pdf],
    replacing whatever file was there, and returns that path.  The file
    system changes at that path only. *)
Theorem X6_watermark_at_given_path (text : string) (out : PathLike) (q : Path) (w : World) :
  (String.length text < MAX_TEXT_LENGTH)%nat →
  (correct_pdf_path (Path_of out) w).1 = Ok q →
  writable (fs w) q = true →
  ∃ w',
    create_watermark text (Some out) w = (Ok q, w') ∧
    fs w' = <[q := Regular (PdfDoc [watermark_page text])]> (fs w) ∧
    cursor w' = cursor w ∧
    parent q = parent (Path_of out) ∧
    name q = (stem (Path_of out) ++ ".pdf")%string.
Proof.
  intros Hlen Hq Hw.
  destruct (correct_pdf_path_ok _ _ _ Hq) as (_ & Hrun & Hpar & Hname & _).
  destruct (open_wb_writable q w Hw) as [b Hopen].
  eexists. split; [|split; [|split; [|split; [exact Hpar | exact Hname]]]].
  - unfold create_watermark. rewrite bind_run.
    replace (String.length text <? MAX_TEXT_LENGTH)%nat with true
      by (symmetry; by apply Nat.ltb_lt).
    cbn [py_assert temp_or_given]. rewrite ret_run. cbv beta iota.
    rewrite bind_run, ret_run. cbv beta iota.
    rewrite bind_run, Hrun. cbv beta iota.
    unfold Canvas_save, Canvas_new, draw_op. cbn [code filename pagesize app].
    rewrite !bind_run, Hopen, write_file_run. cbv beta iota. rewrite ret_run.
    reflexivity.
  - cbn [fs set_fs set_journal]. by rewrite insert_insert_eq.
  - reflexivity.
Qed.

Lemma X6_watermark_at_given_path_witness :
  let q := Path_of_string "/home/u/notes.pdf" in
  ∃ w',
    create_watermark "DRAFT" (Some (AsStr "/home/u/notes.txt")) demo = (Ok q, w') ∧
    fs w' = <[q := Regular (PdfDoc [watermark_page "DRAFT"])]> (fs demo) ∧
    cursor w' = cursor demo ∧
    parent q = parent (Path_of (AsStr "/home/u/notes.txt")) ∧
    name q = (stem (Path_of (AsStr "/home/u/notes.txt")) ++ ".pdf")%string.
Proof.
  intros q.
  apply (X6_watermark_at_given_path "DRAFT" (AsStr "/home/u/notes.txt") q demo).
  - unfold MAX_TEXT_LENGTH. cbn. lia.
  - by vm_compute.
  - by vm_compute.
Defined.

(** X7.  With an output path given, and for every integer [n],
    [duplicate_watermark] writes at the corrected path a document of
    [max(n, 0)] copies of the first page of the watermark, replacing
    whatever file was there; for [n <= 0] that is a document without
    pages.  (The output path is not the watermark file itself.) *)
Theorem X7_replica_at_given_path (wm out : PathLike) (n : Z) (q : Path) (pg : Page)
    (rest : list Page) (w : World) :
  fs w !! Path_of wm = Some (Regular (PdfDoc (pg :: rest))) →
  (correct_pdf_path (Path_of out) w).1 = Ok q →
  q ≠ Path_of wm →
  writable (fs w) q = true →
  ∃ w',
    duplicate_watermark wm n (Some out) w = (Ok q, w') ∧
    fs w' = <[q := Regular (PdfDoc (repeat pg (Z.to_nat n)))]> (fs w) ∧
    cursor w' = cursor w ∧
    ((n ≤ 0)%Z → fs w' !! q = Some (Regular (PdfDoc []))).
Proof.
  intros Hwm Hq Hne Hw.
  destruct (correct_pdf_path_ok _ _ _ Hq) as (_ & Hrun & _).
  set (w1 := set_journal (EvOpenRead (Path_of wm) :: journal w) w).
  destruct (open_wb_writable q w1 Hw) as [b Hopen].
  eexists. split; [|split; [|split]].
  - unfold duplicate_watermark. cbn [temp_or_given].
    rewrite bind_run, ret_run. cbv beta iota.
    rewrite bind_run, Hrun. cbv beta iota.
    rewrite bind_run, open_rb_run, Hwm. fold w1. cbv beta iota.
    rewrite bind_run. cbn [PdfFileReader]. rewrite ret_run. cbv beta iota.
    rewrite bind_run. cbn [getPage nth_error]. rewrite ret_run. cbv beta iota.
    rewrite bind_run, for_each_pure, fold_addPage, length_range.
    unfold PdfFileWriter. cbn [app]. cbv beta iota.
    rewrite bind_run, Hopen. cbv beta iota.
    unfold PdfFileWriter_write. rewrite bind_run, write_file_run. cbv beta iota.
    rewrite ret_run. reflexivity.
  - cbn [fs set_fs set_journal w1]. by rewrite insert_insert_eq.
  - reflexivity.
  - intros Hn. cbn [fs set_fs set_journal w1].
    rewrite insert_insert_eq, lookup_insert_eq.
    by replace (Z.to_nat n) with 0 by lia.
Qed.

Lemma X7_replica_at_given_path_witness :
  let q := Path_of_string "/home/u/name.pdf" in
  ∃ w',
    duplicate_watermark (AsStr "/tmp/mark.pdf") (-2) (Some (AsStr "/home/u/name")) demo
      = (Ok q, w') ∧
    fs w' = <[q := Regular (PdfDoc (repeat (page "DRAFT") (Z.to_nat (-2))))]> (fs demo) ∧
    cursor w' = cursor demo ∧
    ((-2 ≤ 0)%Z → fs w' !! q = Some (Regular (PdfDoc []))).
Proof.
  intros q.
  apply (X7_replica_at_given_path (AsStr "/tmp/mark.pdf") (AsStr "/home/u/name") (-2) q
           (page "DRAFT") [page "second page of the watermark"] demo).
  - by vm_compute.
  - by vm_compute.
  - by vm_compute.
  - by vm_compute.
Defined.

(** ** When a file cannot be read *)

Module Failures.
Import StrFacts PathFacts Run Temp Resolver Shapes Specs.

(** The temporary files are made in the temporary directory itself when
    the prefix has no separator. *)
Lemma temp_in_tempdir (pre : string) (w : World) (p : Path) :
  Str.mem "/" pre = false →
  (temp_or_given pre None w).1 = Ok p → parent p = tempdir (env w).
Proof.
  intros Hpre Hp. rewrite temp_unfold in Hp.
  destruct (mkstemp_inner_ok _ _ _ _ _ _ Hp) as (evs & c' & _ & _ & _ & [n ->] & _).
  destruct (name_of_8 n) as [Hm Hl].
  destruct (tail_facts (uuid_of_random (entropy (env w) (cursor w)))) as [Ht Htl].
  rewrite Path_join_single.
  - by rewrite parent_snoc, Path_eta.
  - by rewrite !mem_app, Hpre, Hm, Ht.
  - apply is_component_long. rewrite !length_app. lia.
Qed.

Lemma duplicate_watermark_fails (wm : PathLike) (n : Z) (err : Exception) (w : World) :
  allocates "watermark_tmp" w →
  parent (Path_of wm) ≠ tempdir (env w) →
  first_page_error (fs w !! Path_of wm) = Some err →
  ∃ p evs c',
    duplicate_watermark wm n None w =
      (Raise err,
       set_fs (<[p := Regular (RawBytes "")]> (fs w))
         (set_cursor c'
            (set_journal (EvOpenRead (Path_of wm) :: evs ++ journal w) w))) ∧
    fs w !! p = None ∧ parent p = tempdir (env w).
Proof.
  intros Halloc Hout Herr.
  destruct (temp_ok _ _ Halloc) as (p & evs & c' & Hrun & Hp & _ & Hshape & _).
  assert (parent p = tempdir (env w)) as Hpar.
  { apply (temp_in_tempdir "watermark_tmp"); [done | by rewrite Hrun]. }
  assert (p ≠ Path_of wm) as Hne by (intros E; by rewrite <- E in Hout).
  exists p, evs, c'. split; [|done].
  unfold duplicate_watermark. rewrite bind_run, Hrun. rewrite bind_run.
  destruct Hshape as (d & k & u & ->).
  rewrite correct_pdf_path_temp by done. cbv beta iota.
  rewrite bind_run, open_rb_run. cbn [fs set_fs].
  rewrite lookup_insert_ne by done.
  destruct (fs w !! Path_of wm) as [[|[[|pg l]|data]]|]; cbn in Herr;
    try discriminate; injection Herr as <-; reflexivity.
Qed.

End Failures.

Import Failures.

(** X8.  When the first page of the watermark file cannot be read --
    the file is missing, is a directory, is not a PDF document, or is a
    document without pages -- [duplicate_watermark] raises the
    corresponding exception, whatever the page count, zero included, and
    the temporary file it had already created stays behind, empty, in the
    temporary directory.  (The watermark path is outside that
    directory.) *)
Theorem X8_failed_replica_is_left_behind (wm : PathLike) (n : Z) (err : Exception)
    (w : World) :
  allocates "watermark_tmp" w →
  parent (Path_of wm) ≠ tempdir (env w) →
  first_page_error (fs w !! Path_of wm) = Some err →
  ∃ p w',
    duplicate_watermark wm n None w = (Raise err, w') ∧
    fs w !! p = None ∧
    parent p = tempdir (env w) ∧
    fs w' = <[p := Regular (RawBytes "")]> (fs w).
Proof.
  intros Halloc Hout Herr.
  destruct (duplicate_watermark_fails wm n err w Halloc Hout Herr)
    as (p & evs & c' & Hrun & Hp & Hpar).
  by eexists p, _.
Qed.

Lemma X8_failed_replica_is_left_behind_witness :
  ∃ p w',
    duplicate_watermark (AsStr "/home/u/empty.pdf") 0 None demo = (Raise IndexError, w') ∧
    fs demo !! p = None ∧
    parent p = tempdir (env demo) ∧
    fs w' = <[p := Regular (RawBytes "")]> (fs demo).
Proof.
  apply (X8_failed_replica_is_left_behind (AsStr "/home/u/empty.pdf") 0 IndexError demo).
  - eexists. by vm_compute.
  - by vm_compute.
  - by vm_compute.
Defined.

(** X9.  When the input cannot be read as a PDF document -- it is
    missing, is a directory, or is not a PDF document -- [add_watermark]
    raises the corresponding exception before it creates anything: no
    temporary file, no output, no randomness used; it has only looked for
    a free output name. *)
Theorem X9_unreadable_input_creates_nothing (x wm : PathLike) (err : Exception) (w : World) :
  wf_path (Path_of x) = true →
  read_error (fs w !! Path_of x) = Some err →
  ∃ w',
    add_watermark x wm w = (Raise err, w') ∧
    fs w' = fs w ∧ cursor w' = cursor w ∧
    ∀ ev, In ev (journal w') → In ev (journal w) ∨ written ev = None.
Proof.
  intros Hwf Herr. set (p := Path_of x) in *.
  destruct (wanted_facts p Hwf) as (Hwfw & _ & _).
  destruct (ensure_new_file_total (wanted p) w Hwfw) as (out & stats & Hres & Hstats & _).
  eexists. split; [|split; [|split]].
  - unfold add_watermark. fold p. fold (wanted p).
    rewrite bind_run, Hres. cbv beta iota.
    rewrite bind_run, open_rb_run. cbn [fs set_journal].
    destruct (fs w !! p) as [[|[l|data]]|]; cbn in Herr;
      try discriminate; injection Herr as <-; reflexivity.
  - reflexivity.
  - reflexivity.
  - cbn [journal set_journal]. intros ev [<-|Hin]; [by right|].
    apply List.in_app_or in Hin as [Hin|Hin]; [|by left].
    right. rewrite List.Forall_forall in Hstats.
    by destruct (Hstats ev Hin) as [q ->].
Qed.

Lemma X9_unreadable_input_creates_nothing_witness :
  ∃ w',
    add_watermark (AsStr "/home/u/notes.txt") (AsStr "/tmp/mark.pdf") demo
      = (Raise PdfReadError, w') ∧
    fs w' = fs demo ∧ cursor w' = cursor demo ∧
    ∀ ev, In ev (journal w') → In ev (journal demo) ∨ written ev = None.
Proof.
  apply (X9_unreadable_input_creates_nothing (AsStr "/home/u/notes.txt")
           (AsStr "/tmp/mark.pdf") PdfReadError demo).
  - by vm_compute.
  - by vm_compute.
Defined.

(** X10.  When the input is a PDF document but the first page of the
    watermark file cannot be read, [add_watermark] raises the
    corresponding exception and writes no output: the only change to the
    file system is the empty temporary file of [duplicate_watermark],
    which stays behind. *)
Theorem X10_unreadable_watermark_no_output (x wm : PathLike) (pages : list Page)
    (err : Exception) (w : World) :
  wf_path (Path_of x) = true →
  fs w !! Path_of x = Some (Regular (PdfDoc pages)) →
  allocates "watermark_tmp" w →
  parent (Path_of wm) ≠ tempdir (env w) →
  first_page_error (fs w !! Path_of wm) = Some err →
  ∃ tmp w',
    add_watermark x wm w = (Raise err, w') ∧
    fs w !! tmp = None ∧
    parent tmp = tempdir (env w) ∧
    fs w' = <[tmp := Regular (RawBytes "")]> (fs w).
Proof.
  intros Hwf Hx Halloc Hout Herr. set (p := Path_of x) in *.
  destruct (wanted_facts p Hwf) as (Hwfw & _ & _).
  destruct (ensure_new_file_total (wanted p) w Hwfw) as (out & stats & Hres & _ & _).
  set (w1 := set_journal (stats ++ journal w) w) in *.
  set (w2 := set_journal (EvOpenRead p :: journal w1) w1).
  destruct (duplicate_watermark_fails wm (getNumPages pages) err w2)
    as (tmp & evs & c' & Hrun & Htmp & Hpar); [| done | done |].
  { eapply allocates_sim; [| | |exact Halloc]; done. }
  eexists tmp, _. split.
  - unfold add_watermark. fold p. fold (wanted p).
    rewrite bind_run, Hres. cbv beta iota.
    rewrite bind_run, open_rb_run. cbn [fs w1 set_journal]. rewrite Hx.
    fold w1. fold w2. cbv beta iota.
    rewrite bind_run. cbn [PdfFileReader]. rewrite ret_run. cbv beta iota.
    rewrite bind_run, Hrun. reflexivity.
  - split; [exact Htmp | split; [exact Hpar | reflexivity]].
Qed.

Lemma X10_unreadable_watermark_no_output_witness :
  ∃ tmp w',
    add_watermark (AsStr "/home/u/name.pdf") (AsStr "/home/u/missing.pdf") demo
      = (Raise FileNotFoundError, w') ∧
    fs demo !! tmp = None ∧
    parent tmp = tempdir (env demo) ∧
    fs w' = <[tmp := Regular (RawBytes "")]> (fs demo).
Proof.
  apply (X10_unreadable_watermark_no_output (AsStr "/home/u/name.pdf")
           (AsStr "/home/u/missing.pdf") [page "one"; page "two"; page "three"]
           FileNotFoundError demo).
  - by vm_compute.
  - by vm_compute.
  - eexists. by vm_compute.
  - by vm_compute.
  - by vm_compute.
Defined.

(** ** Whole runs *)

Module Runs.
Import StrFacts PathFacts Run Temp Resolver Shapes Frame Untouched Quiet Specs Pipeline.

(** [select_files] scans the current directory exactly when no file was
    given with [-f]. *)
Lemma select_files_journal (args : Args) (w : World) :
  select_files args w =
    (Ok (selected args w),
     set_journal
       match input_files args with
       | Some (_ :: _) => journal w
       | _ => EvScandir (cwd (env w)) :: journal w
       end w).
Proof.
  unfold select_files, selected, candidates.
  destruct args as [text [[|f l]|] ex]; cbn [input_files exclude].
  - unfold Path_cwd, glob_pdf. exec.
    rewrite <- (map_filter AsPath (λ x, not_in (name (Path_of x)) (default [] ex))).
    by destruct ex.
  - unfold Path_cwd. exec. rewrite set_journal_id.
    rewrite <- (map_filter AsStr (λ x, not_in (name (Path_of x)) (default [] ex))).
    by destruct ex.
  - unfold Path_cwd, glob_pdf. exec.
    rewrite <- (map_filter AsPath (λ x, not_in (name (Path_of x)) (default [] ex))).
    by destruct ex.
Qed.

(** However the loop of [main] ends, it has announced the files it
    began to process, in order, and nothing else. *)
Lemma loop_announces (wm : PathLike) (l : list PathLike) :
  ∀ w, has_handlers w = true → root_level w = INFO →
    let run :=
      for_each l
        (λ input_file _, logging_info "Processing file: %s" [input_file];;
                         add_watermark input_file wm) tt w in
    ∃ k, logs true INFO (rev (map processing (firstn k l)) ++ emitted w)%list run.2 ∧
         (∀ u, run.1 = Ok u → firstn k l = l).
Proof.
  induction l as [|x l IH]; intros w Hh Hl run.
  - exists 0. by split.
  - unfold run. cbn [for_each]. rewrite bind_run, bind_run, logging_info_on by done.
    cbv beta iota.
    set (w1 := set_logging _ _ _ w).
    destruct (add_watermark_quiet x wm true INFO (processing x :: emitted w) w1)
      as [(H1 & H2 & H3) _]; [done|].
    destruct (add_watermark x wm w1) as [[[]|e|] w2]; cbn [fst snd] in *.
    + destruct (IH w2 H1 H2) as (k & (L1 & L2 & L3) & Hk).
      exists (S k). cbn [firstn map rev]. split.
      * split; [done|]. split; [done|]. rewrite L3, H3.
        by rewrite <- List.app_assoc.
      * intros u Hu. f_equal. by eapply Hk.
    + exists 1. cbn [firstn map rev app]. by split.
    + exists 1. cbn [firstn map rev app]. by split.
Qed.

Lemma ensure_new_file_None (p q : Path) (w w' : World) :
  ensure_new_file p w = (Ok q, w') → fs w !! q = None.
Proof.
  intros Hrun. rewrite ensure_new_file_unfold in Hrun.
  destruct (loop_spec (S (size (fs w))) p 1 w) as (evs & _ & _ & Hq).
  by rewrite Hrun in Hq.
Qed.

Lemma main_configured (l : nat) (r : list LogRecord) (args : Args) :
  keeps (configured l r) (main args) (λ _, True).
Proof.
  assert (∀ lv, keeps (configured l r) (basicConfig lv) (λ _, True)) as Hbasic.
  { intros lv w (Hh & Hl & He). unfold basicConfig. exec. by rewrite Hh. }
  assert (∀ m a, keeps (configured l r) (logging_info m a) (λ _, True)) as Hinfo.
  { intros m a. unfold logging_info. eapply keeps_bind; [apply Hbasic|].
    intros _ _ w (Hh & Hl & He). exec. split; [|done].
    destruct (root_level w <=? INFO)%nat eqn:E; [|done].
    apply Nat.leb_le in E. split; [done|]. split; [done|].
    cbn [emitted set_logging]. intros ?. lia. }
  unfold main.
  eapply keeps_bind; [by apply (keeps_select_files _ (λ _, True))|]. intros file_list _.
  eapply keeps_bind; [by apply (keeps_create_watermark _ (λ _, True))|]. intros wm _.
  eapply keeps_bind; [apply Hbasic|]. intros _ _.
  eapply keeps_bind.
  { apply keeps_for_each. intros x s.
    eapply keeps_bind; [apply Hinfo|]. intros _ _.
    by apply (keeps_add_watermark _ (λ _, True)). }
  intros _ _. apply Hinfo.
Qed.

End Runs.

Import Runs.

(** X11.  A watermark text of 28 characters or more stops [main] with
    [AssertionError] before any file is created, any randomness is used
    or [logging] is set up; the file list is computed first, though, so
    when no file was given with [-f] the current directory has been
    scanned. *)
Theorem X11_long_text_stops_the_run (args : Args) (w : World) :
  (MAX_TEXT_LENGTH ≤ String.length (watermark_text args))%nat →
  ∃ w',
    main args w = (Raise AssertionError, w') ∧
    fs w' = fs w ∧ cursor w' = cursor w ∧
    has_handlers w' = has_handlers w ∧ root_level w' = root_level w ∧
    emitted w' = emitted w ∧
    journal w' = match input_files args with
                 | Some (_ :: _) => journal w
                 | _ => EvScandir (cwd (env w)) :: journal w
                 end.
Proof.
  intros Hlen. eexists. split.
  - unfold main. rewrite bind_run, select_files_journal. cbv beta iota.
    rewrite bind_run, create_watermark_long by done. reflexivity.
  - done.
Qed.

Lemma X11_long_text_stops_the_run_witness :
  let args := {| watermark_text := "0123456789012345678901234567";
                 input_files := None; exclude := None |} in
  ∃ w',
    main args demo = (Raise AssertionError, w') ∧
    fs w' = fs demo ∧ cursor w' = cursor demo ∧
    has_handlers w' = has_handlers demo ∧ root_level w' = root_level demo ∧
    emitted w' = emitted demo ∧
    journal w' = [EvScandir (cwd (env demo))].
Proof.
  intros args. apply (X11_long_text_stops_the_run args demo).
  unfold MAX_TEXT_LENGTH. cbn. lia.
Defined.

(** X12.  What a run started in a fresh process records through
    [logging]: if it completes, one "Processing file" record for each
    selected file, in order, and then "All done!"; if it stops early,
    "Processing file" records for a prefix of the selected files, the
    files it reached, and no "All done!". *)
Theorem X12_announcements (args : Args) (w : World) :
  has_handlers w = false →
  let w' := (main args w).2 in
  match (main args w).1 with
  | Ok _ =>
      emitted w' = (all_done :: rev (map processing (selected args w)) ++ emitted w)%list
  | _ =>
      ∃ k, emitted w' = (rev (map processing (firstn k (selected args w))) ++ emitted w)%list
  end.
Proof.
  intros Hh w'. unfold w'. clear w'. unfold main. rewrite bind_run.
  destruct (select_files_run args w) as (evs & Hsel & _).
  destruct (select_files_quiet args (has_handlers w) (root_level w) (emitted w) w)
    as [(S1 & S2 & S3) _]; [done|].
  rewrite Hsel in *. cbn [snd] in *. cbv beta iota. clear Hsel.
  set (w1 := set_journal _ w) in *.
  rewrite bind_run.
  destruct (create_watermark_quiet (watermark_text args)
              (has_handlers w) (root_level w) (emitted w) w1)
    as [(C1 & C2 & C3) _]; [done|].
  destruct (create_watermark _ None w1) as [[wm|e|] w2]; cbn [fst snd] in *;
    [| by exists 0 | by exists 0].
  rewrite bind_run, setup_logging_first by congruence.
  cbv beta iota. rewrite bind_run.
  set (w3 := set_logging _ _ _ w2).
  destruct (loop_announces (AsPath wm) (selected args w) w3 eq_refl eq_refl)
    as (k & (L1 & L2 & L3) & Hk).
  destruct (for_each _ _ tt w3) as [[[]|e|] w4]; cbn [fst snd] in *.
  - rewrite logging_info_on by done. cbn [fst snd emitted set_logging].
    rewrite L3, (Hk tt eq_refl). cbn [emitted w3 set_logging]. by rewrite C3.
  - exists k. rewrite L3. cbn [emitted w3 set_logging]. by rewrite C3.
  - exists k. rewrite L3. cbn [emitted w3 set_logging]. by rewrite C3.
Qed.

Lemma X12_announcements_witness :
  let args := {| watermark_text := "DRAFT";
                 input_files := Some ["/home/u/name.pdf"; "/home/u/notes.txt";
                                      "/home/u/empty.pdf"];
                 exclude := None |} in
  (main args demo).1 = Raise PdfReadError ∧
  ∃ k, emitted (main args demo).2
       = (rev (map processing (firstn k (selected args demo))) ++ emitted demo)%list.
Proof.
  intros args.
  assert ((main args demo).1 = Raise PdfReadError) as Hr by (by vm_compute).
  split; [exact Hr|].
  pose proof (X12_announcements args demo eq_refl) as H. cbv zeta in H.
  by rewrite Hr in H.
Defined.

(** X13.  When no file is selected -- an empty directory, or every
    candidate excluded -- a run in a fresh process still completes: it
    creates the one-page watermark in a temporary file, which is the only
    change to the file system, and records "All done!" alone. *)
Theorem X13_nothing_to_process (args : Args) (w : World) :
  has_handlers w = false →
  selected args w = [] →
  (String.length (watermark_text args) < MAX_TEXT_LENGTH)%nat →
  allocates ("watermark_" ++ watermark_text args) w →
  ∃ tmp w',
    main args w = (Ok tt, w') ∧
    fs w !! tmp = None ∧
    fs w' = <[tmp := Regular (PdfDoc [watermark_page (watermark_text args)])]> (fs w) ∧
    emitted w' = all_done :: emitted w.
Proof.
  intros Hh Hsel Hlen Halloc.
  pose proof (select_files_journal args w) as Hrun. rewrite Hsel in Hrun.
  set (w1 := set_journal _ w) in Hrun.
  destruct (create_watermark_ok (watermark_text args) w1 Hlen)
    as (tmp & evs & c' & Hcw & Htmp & _).
  { eapply allocates_sim; [| | |exact Halloc]; done. }
  set (w2 := set_fs _ _) in Hcw.
  eexists tmp, _. split.
  - unfold main. rewrite bind_run, Hrun. cbv beta iota.
    rewrite bind_run, Hcw. cbv beta iota.
    rewrite bind_run, setup_logging_first by done. cbv beta iota.
    rewrite bind_run. cbn [for_each]. rewrite ret_run. cbv beta iota.
    by rewrite logging_info_on.
  - done.
Qed.

Lemma X13_nothing_to_process_witness :
  let args := {| watermark_text := "DRAFT"; input_files := None;
                 exclude := Some ["name.pdf"; "empty.pdf"] |} in
  ∃ tmp w',
    main args demo = (Ok tt, w') ∧
    fs demo !! tmp = None ∧
    fs w' = <[tmp := Regular (PdfDoc [watermark_page "DRAFT"])]> (fs demo) ∧
    emitted w' = all_done :: emitted demo.
Proof.
  intros args. apply (X13_nothing_to_process args demo).
  - reflexivity.
  - by vm_compute.
  - unfold MAX_TEXT_LENGTH. cbn. lia.
  - exact demo_allocates_first.
Defined.

(** X14.  A completed run on one file adds exactly three files and
    removes none: the output beside the input, and two temporary files
    that the script never deletes, the one-page watermark and its
    replica of as many pages as the input. *)
Theorem X14_temporary_files_stay (text s : string) (pages : list Page) (w : World) :
  let p := Path_of_string s in
  (String.length text < MAX_TEXT_LENGTH)%nat →
  fs w !! p = Some (Regular (PdfDoc pages)) →
  fs w !! parent p = Some Directory →
  allocates ("watermark_" ++ text) w →
  allocates "watermark_tmp" (create_watermark text None w).2 →
  ∃ wmp tmp out w',
    main (one_file text s) w = (Ok tt, w') ∧
    fs w !! wmp = None ∧ fs w !! tmp = None ∧ fs w !! out = None ∧
    wmp ≠ tmp ∧ wmp ≠ out ∧ tmp ≠ out ∧
    parent out = parent p ∧
    fs w' = <[out := Regular (PdfDoc (merged text pages))]>
              (<[tmp := Regular (PdfDoc (repeat (watermark_page text) (List.length pages)))]>
                 (<[wmp := Regular (PdfDoc [watermark_page text])]> (fs w))).
Proof.
  intros p Hlen Hp Hdir Ha1 Ha2.
  assert (wf_path p = true) as Hwf by apply wf_Path_of_string.
  destruct (main_one_file text s pages w Hlen Hp Hdir Ha1 Ha2)
    as (wmp & out & tmp & w1 & w' & stats & Hrun & Hfs & Hfs1 & Hres & Hwmp
        & _ & Htmp & (d & n & u & Htshape)).
  change (Path_of_string s) with p in Hres.
  pose proof (ensure_new_file_None _ _ _ _ Hres) as Hout.
  destruct (resolved_facts p out w1 Hwf) as (Hpar & _ & Hnt); [by rewrite Hres|].
  rewrite Hfs1 in Htmp, Hout.
  apply lookup_insert_None in Htmp as [Htmp Hne1].
  apply lookup_insert_None in Hout as [Hout Hne2].
  exists wmp, tmp, out, w'. rewrite Hfs, Hfs1.
  repeat split; try done. rewrite Htshape. intros E. by apply (Hnt d n u).
Qed.

Lemma X14_temporary_files_stay_witness :
  let text := "DRAFT" in
  let s := "/home/u/name.pdf" in
  let pages := [page "one"; page "two"; page "three"] in
  let p := Path_of_string s in
  ∃ wmp tmp out w',
    main (one_file text s) demo = (Ok tt, w') ∧
    fs demo !! wmp = None ∧ fs demo !! tmp = None ∧ fs demo !! out = None ∧
    wmp ≠ tmp ∧ wmp ≠ out ∧ tmp ≠ out ∧
    parent out = parent p ∧
    fs w' = <[out := Regular (PdfDoc (merged text pages))]>
              (<[tmp := Regular (PdfDoc (repeat (watermark_page text) (List.length pages)))]>
                 (<[wmp := Regular (PdfDoc [watermark_page text])]> (fs demo))).
Proof.
  intros text s pages.
  apply (X14_temporary_files_stay text s pages demo).
  - unfold MAX_TEXT_LENGTH. cbn. lia.
  - by vm_compute.
  - by vm_compute.
  - exact demo_allocates_first.
  - exact demo_allocates_second.
Defined.

(** X15.  [setup_logging] changes nothing when the root logger already
    has a handler: a run then leaves the logger configured as it was,
    at the level it had, and if that level is above [INFO] the run
    records nothing, however it ends. *)
Theorem X15_configured_logger_is_kept (args : Args) (w : World) :
  has_handlers w = true →
  let w' := (main args w).2 in
  has_handlers w' = true ∧
  root_level w' = root_level w ∧
  ((INFO < root_level w)%nat → emitted w' = emitted w).
Proof.
  intros Hh w'.
  destruct (main_configured (root_level w) (emitted w) args w) as [H _]; done.
Qed.

Lemma X15_configured_logger_is_kept_witness :
  let args := one_file "DRAFT" "/home/u/name.pdf" in
  let w := set_logging true WARNING [] demo in
  let w' := (main args w).2 in
  has_handlers w' = true ∧
  root_level w' = root_level w ∧
  ((INFO < root_level w)%nat → emitted w' = emitted w).
Proof.
  intros args w. apply (X15_configured_logger_is_kept args w). reflexivity.
Defined.

(** ** The names [ensure_new_file] tries *)

Module Chain.
Import StrFacts PathFacts Run Resolver Shapes Extension.

Lemma index_chain_snoc (start count : nat) :
  index_chain start (S count) =
    (index_chain start count ++ "_" ++ Str.of_nat (start + count))%string.
Proof.
  revert start; induction count as [|count IH]; intros start.
  - cbn [index_chain]. by rewrite app_nil_r, Nat.add_0_r.
  - change (index_chain start (S (S count)))
      with ("_" ++ Str.of_nat start ++ index_chain (S start) (S count))%string.
    rewrite IH.
    change (index_chain start (S count))
      with ("_" ++ Str.of_nat start ++ index_chain (S start) count)%string.
    rewrite Nat.add_succ_r. cbn [Nat.add]. by rewrite !app_assoc.
Qed.

Lemma mem_index_chain (start count : nat) :
  Str.mem "/" (index_chain start count) = false.
Proof.
  revert start; induction count as [|count IH]; intros start; [done|].
  change (index_chain start (S count))
    with (String "_" (Str.of_nat start ++ index_chain (S start) count)).
  cbn [Str.mem]. by rewrite mem_app, mem_of_nat, IH.
Qed.

Lemma length_index_chain (start count : nat) :
  (2 ≤ String.length (index_chain start (S count)))%nat.
Proof.
  change (index_chain start (S count))
    with (String "_" (Str.of_nat start ++ index_chain (S start) count)).
  cbn [String.length]. rewrite length_app. pose proof (of_nat_not_empty start).
  destruct (Str.of_nat start); [done|]. cbn [String.length]. lia.
Qed.

Section Tried.
Variable p : Path.
Hypothesis Hwf : wf_path p = true.
Hypothesis Hext : suffix p ≠ "".

Lemma tried_name_not_empty : name p ≠ "".
Proof. intros E. apply Hext. unfold suffix. by rewrite E. Qed.

Lemma tried_facts (j : nat) :
  wf_path (tried p j) = true ∧ parent (tried p j) = parent p ∧
  name (tried p j) = (stem p ++ index_chain 1 j ++ suffix p)%string.
Proof.
  destruct j as [|j].
  - cbn [tried index_chain]. split; [done|]. split; [done|].
    unfold stem, suffix. cbn [String.append]. by rewrite stem_suffix.
  - cbn [tried]. pose proof (mem_name p Hwf) as Hn.
    assert (Str.mem "/" (stem p ++ index_chain 1 (S j) ++ suffix p) = false) as Hm.
    { unfold stem, suffix.
      by rewrite !mem_app, (mem_stem _ _ Hn), (mem_suffix _ _ Hn), mem_index_chain. }
    assert (is_component (stem p ++ index_chain 1 (S j) ++ suffix p) = true) as Hc.
    { apply is_component_long. rewrite !length_app.
      pose proof (length_index_chain 1 j). lia. }
    split; [apply wf_path_join_single; [by apply wf_parent | done | done]|].
    split; [by apply parent_join_single | by apply name_join_single].
Qed.

(** The candidate after round [j] is the path of round [j + 1]. *)
Lemma candidate_tried (j : nat) : candidate (tried p j) (j + 1) = tried p (S j).
Proof.
  destruct (tried_facts j) as (_ & Hpar & Hname).
  assert ((stem p ++ index_chain 1 j)%string ≠ "") as Hne.
  { intros E. apply (f_equal String.length) in E. rewrite length_app in E.
    pose proof (stem_not_empty (name p) tried_name_not_empty) as Hs.
    unfold stem in E. destruct (name_stem (name p)); [done|].
    cbn [String.length] in E. lia. }
  assert (is_ext (suffix p) = true) as He by (by apply suffix_is_ext).
  assert ((stem (tried p j) ++ "_" ++ Str.of_nat (j + 1) ++ suffix (tried p j))%string
          = (stem p ++ index_chain 1 (S j) ++ suffix p)%string) as Hs.
  { unfold stem at 1, suffix at 1. rewrite Hname.
    rewrite <- (app_assoc (stem p) (index_chain 1 j) (suffix p)).
    rewrite name_stem_ext, name_suffix_ext by done.
    rewrite index_chain_snoc, (Nat.add_comm 1 j). by rewrite !app_assoc. }
  unfold candidate. by rewrite Hpar, Hs.
Qed.

Lemma loop_tried (k : nat) (f : gmap Path Entry) :
  (∀ j, (j < k)%nat → is_Some (f !! tried p j)) →
  f !! tried p k = None →
  ∀ fuel j w q, (j ≤ k)%nat → fs w = f →
    (ensure_new_file_loop fuel (tried p j) (j + 1) w).1 = Ok q → q = tried p k.
Proof.
  intros Htaken Hfree. induction fuel as [|fuel IH]; intros j w q Hj Hf; [done|].
  rewrite loop_step, Hf. destruct (decide (j = k)) as [->|Hne].
  - rewrite bool_decide_eq_false_2; [by intros [= <-]|].
    rewrite Hfree. by intros [? ?].
  - rewrite bool_decide_eq_true_2 by (apply Htaken; lia).
    rewrite candidate_tried. replace (j + 1 + 1) with (S j + 1) by lia.
    apply IH; [lia | done].
Qed.

End Tried.

(** What [ensure_new_file] returns for [add_watermark] has a name that
    starts with the stem of the input and ends in [.pdf]. *)
Lemma resolved_name (p q : Path) (w : World) :
  wf_path p = true → (ensure_new_file (wanted p) w).1 = Ok q →
  ∃ r, name q = ((stem p ++ "_" ++ r) ++ ".pdf")%string.
Proof.
  intros Hp Hq. destruct (wanted_facts p Hp) as (Hwf & Hpar & Hname).
  rewrite ensure_new_file_unfold in Hq.
  eapply (loop_shape (stem p)) in Hq as (_ & _ & idx & x & Hn & ([r ->] & _));
    [|done|done|apply shape_start].
  by exists r.
Qed.

Lemma endswith_app (a t : string) : Str.endswith (a ++ t) t = true.
Proof.
  unfold Str.endswith. rewrite length_app.
  replace (String.length a + String.length t - String.length t)
    with (String.length a) by lia.
  rewrite drop_app_length. apply String.eqb_refl.
Qed.

Lemma pdf_entries_In (d q : Path) (e : Entry) (f : gmap Path Entry) :
  f !! d = Some Directory → f !! q = Some e → parent q = d → q ≠ d →
  Str.endswith (name q) ".pdf" = true →
  In q (pdf_entries d f).
Proof.
  intros Hd Hq Hpar Hne Hend. unfold pdf_entries. rewrite Hd.
  apply List.filter_In. split.
  - apply List.in_map_iff. exists (q, e). split; [done|].
    apply list_elem_of_In. by apply elem_of_map_to_list.
  - unfold is_child_of. rewrite Hend.
    rewrite bool_decide_eq_true_2, bool_decide_eq_false_2 by done. done.
Qed.

End Chain.

Import Chain.

(** X16.  The names [ensure_new_file] tries, for a path with an
    extension: the path itself, then the stem followed by [_1], by
    [_1_2], by [_1_2_3], ... and the extension, all in the same
    directory -- each index is appended to the name tried before.  When
    the first [k] of these are taken and the next is free, the function
    returns that one. *)
Theorem X16_indices_pile_up (p : Path) (k : nat) (w : World) :
  wf_path p = true →
  suffix p ≠ "" →
  (∀ j, (j < k)%nat → is_Some (fs w !! tried p j)) →
  fs w !! tried p k = None →
  (ensure_new_file p w).1 = Ok (tried p k) ∧
  parent (tried p k) = parent p ∧
  name (tried p k) = (stem p ++ index_chain 1 k ++ suffix p)%string.
Proof.
  intros Hwf Hext Htaken Hfree.
  destruct (tried_facts p Hwf k) as (_ & Hpar & Hname).
  split; [|done].
  destruct (ensure_new_file_total p w Hwf) as (q & evs & Hrun & _).
  rewrite Hrun. cbn [fst]. f_equal.
  apply (loop_tried p Hwf Hext k (fs w) Htaken Hfree (S (size (fs w))) 0 w q);
    [lia | done |].
  rewrite ensure_new_file_unfold in Hrun. cbn [tried Nat.add]. by rewrite Hrun.
Qed.

Lemma X16_indices_pile_up_witness :
  let p := Path_of_string "/home/u/name_watermarked.pdf" in
  (ensure_new_file p taken_twice).1 = Ok (tried p 2) ∧
  parent (tried p 2) = parent p ∧
  name (tried p 2) = "name_watermarked_1_2.pdf".
Proof.
  intros p. apply (X16_indices_pile_up p 2 taken_twice).
  - by vm_compute.
  - by vm_compute.
  - intros [|[|j]] Hj; [vm_compute; by eexists | vm_compute; by eexists | lia].
  - by vm_compute.
Defined.

(** X17.  The output of [add_watermark] for an input in the current
    directory is itself a [*.pdf] entry of that directory: a later run
    without [-f] selects it, unless its name is excluded, and so
    watermarks the watermarked copy again. *)
Theorem X17_outputs_are_selected_next (x wm : PathLike) (pages : list Page) (pg : Page)
    (rest : list Page) (w : World) :
  wf_path (Path_of x) = true →
  fs w !! Path_of x = Some (Regular (PdfDoc pages)) →
  parent (Path_of x) = cwd (env w) →
  fs w !! cwd (env w) = Some Directory →
  fs w !! Path_of wm = Some (Regular (PdfDoc (pg :: rest))) →
  allocates "watermark_tmp" w →
  ∃ out w',
    add_watermark x wm w = (Ok tt, w') ∧
    fs w !! out = None ∧
    ∀ text ex,
      not_in (name out) (default [] ex) = true →
      In (AsPath out)
        (selected {| watermark_text := text; input_files := None; exclude := ex |} w').
Proof.
  intros Hwf Hx Hcwd Hdir Hwm Halloc.
  destruct (add_watermark_ok x wm pages pg rest w Hwf Hx) as
    (out & tmp & stats & excls & c' & Hrun & Hres & Hout & Htmp & Hne & _ & Hpar & _);
    [by rewrite Hcwd | done | done |].
  destruct (resolved_name (Path_of x) out w Hwf) as [r Hname]; [by rewrite Hres|].
  eexists out, _. split; [exact Hrun|]. split; [done|].
  intros text ex Hex. unfold selected, candidates. cbn [input_files exclude].
  apply List.filter_In. split; [|done].
  apply List.in_map. cbn [env fs set_fs set_cursor set_journal].
  eapply pdf_entries_In.
  - rewrite !lookup_insert_ne; [done | |]; intros E; rewrite E in *; congruence.
  - apply lookup_insert_eq.
  - by rewrite Hpar.
  - intros E. rewrite E in *. congruence.
  - rewrite Hname. apply endswith_app.
Qed.

Lemma X17_outputs_are_selected_next_witness :
  ∃ out w',
    add_watermark (AsStr "/home/u/name.pdf") (AsStr "/tmp/mark.pdf") demo = (Ok tt, w') ∧
    fs demo !! out = None ∧
    ∀ text ex,
      not_in (name out) (default [] ex) = true →
      In (AsPath out)
        (selected {| watermark_text := text; input_files := None; exclude := ex |} w').
Proof.
  apply (X17_outputs_are_selected_next (AsStr "/home/u/name.pdf") (AsStr "/tmp/mark.pdf")
           [page "one"; page "two"; page "three"] (page "DRAFT")
           [page "second page of the watermark"] demo).
  - by vm_compute.
  - by vm_compute.
  - by vm_compute.
  - by vm_compute.
  - by vm_compute.
  - eexists. by vm_compute.
Defined.

(** ** What a completed run has written *)

Module Copies.
Import StrFacts PathFacts Run Temp Resolver Shapes Frame Untouched Quiet Specs Pipeline Runs.

(** A call that returned had its temporary file. *)
Lemma create_watermark_done (text : string) (w w' : World) (p : Path) :
  create_watermark text None w = (Ok p, w') →
  fs w !! p = None ∧
  fs w' = <[p := Regular (PdfDoc [watermark_page text])]> (fs w).
Proof.
  intros Hrun.
  destruct (Nat.ltb_spec (String.length text) MAX_TEXT_LENGTH) as [Hlen|Hlen].
  2:{ by rewrite create_watermark_long in Hrun. }
  assert (allocates ("watermark_" ++ text) w) as Halloc.
  { unfold allocates.
    destruct (temp_or_given ("watermark_" ++ text) None w) as [[q|e|] w1] eqn:Ht;
      [by exists q|exfalso..];
      unfold create_watermark in Hrun; rewrite bind_run in Hrun;
      replace (String.length text <? MAX_TEXT_LENGTH)%nat with true in Hrun
        by (symmetry; by apply Nat.ltb_lt);
      cbn [py_assert] in Hrun; rewrite ret_run in Hrun; cbv beta iota in Hrun;
      rewrite bind_run, Ht in Hrun; discriminate. }
  destruct (create_watermark_ok text w Hlen Halloc) as (q & evs & c' & Hcw & Hq & _).
  rewrite Hcw in Hrun. injection Hrun as <- <-. done.
Qed.

Lemma add_watermark_needs_replica (x wm : PathLike) (pages : list Page) (w : World) u :
  wf_path (Path_of x) = true →
  fs w !! Path_of x = Some (Regular (PdfDoc pages)) →
  (add_watermark x wm w).1 = Ok u →
  allocates "watermark_tmp" w.
Proof.
  intros Hwf Hx. set (p := Path_of x) in *.
  destruct (wanted_facts p Hwf) as (Hwfw & _ & _).
  destruct (ensure_new_file_total (wanted p) w Hwfw) as (out & stats & Hres & _ & _).
  unfold add_watermark. fold p. fold (wanted p).
  rewrite bind_run, Hres. cbv beta iota.
  rewrite bind_run, open_rb_run. cbn [fs set_journal]. rewrite Hx. cbv beta iota.
  rewrite bind_run. cbn [PdfFileReader]. rewrite ret_run. cbv beta iota.
  rewrite bind_run. unfold duplicate_watermark at 1. rewrite bind_run.
  set (w2 := set_journal _ (set_journal _ w)).
  destruct (temp_or_given "watermark_tmp" None w2) as [[q|e|] w3] eqn:Ht;
    [intros _|done|done].
  apply (allocates_sim _ w2 w); [done..|]. exists q. by rewrite Ht.
Qed.

(** A call that returned has written the merged document at a path that
    was free. *)
Lemma add_watermark_done (x wm : PathLike) (pages : list Page) (pg : Page)
    (rest : list Page) (w w' : World) :
  wf_path (Path_of x) = true →
  fs w !! Path_of x = Some (Regular (PdfDoc pages)) →
  fs w !! parent (Path_of x) = Some Directory →
  fs w !! Path_of wm = Some (Regular (PdfDoc (pg :: rest))) →
  add_watermark x wm w = (Ok tt, w') →
  ∃ out, fs w !! out = None ∧ parent out = parent (Path_of x) ∧
         fs w' !! out = Some (Regular (PdfDoc (map (λ page, merge_page page pg) pages))).
Proof.
  intros Hwf Hx Hdir Hwm Hrun.
  assert (allocates "watermark_tmp" w) as Halloc.
  { eapply (add_watermark_needs_replica x wm pages w tt); [done | done |].
    by rewrite Hrun. }
  destruct (add_watermark_ok x wm pages pg rest w Hwf Hx Hdir Hwm Halloc)
    as (out & tmp & stats & excls & c' & Hok & _ & Hout & _ & _ & _ & Hpar & _).
  rewrite Hok in Hrun. injection Hrun as <-.
  exists out. split; [done|]. split; [done|]. cbn [fs set_fs]. apply lookup_insert_eq.
Qed.

Lemma loop_copies (wm : Path) (wp : Page) (l : list PathLike) :
  ∀ w w',
    fs w !! wm = Some (Regular (PdfDoc [wp])) →
    for_each l
      (λ input_file _, logging_info "Processing file: %s" [input_file];;
                       add_watermark input_file (AsPath wm)) tt w = (Ok tt, w') →
    fs w ⊆ fs w' ∧
    ∀ x pages,
      In x l → wf_path (Path_of x) = true →
      fs w !! Path_of x = Some (Regular (PdfDoc pages)) →
      fs w !! parent (Path_of x) = Some Directory →
      ∃ out, fs w !! out = None ∧ parent out = parent (Path_of x) ∧
             fs w' !! out
               = Some (Regular (PdfDoc (map (λ page, merge_page page wp) pages))).
Proof.
  induction l as [|x0 l IH]; intros w w' Hwm Hrun.
  - injection Hrun as <-. by split.
  - cbn [for_each] in Hrun. rewrite bind_run, bind_run in Hrun.
    destruct (logging_info_run "Processing file: %s" [x0] w) as (h & lv & r & Hlog).
    rewrite Hlog in Hrun. cbv beta iota in Hrun.
    set (w1 := set_logging h lv r w) in *.
    destruct (untouched (add_watermark x0 (AsPath wm)) (λ _, True) w1) as [Hsub _].
    { intros w0. apply add_watermark_keeps. }
    destruct (add_watermark x0 (AsPath wm) w1) as [[[]|e|] w2] eqn:Hadd;
      [|discriminate..].
    cbn [snd] in Hsub. change (fs w1) with (fs w) in Hsub.
    destruct (IH w2 w') as [Hsub' Hrest]; [by eapply lookup_weaken | done |].
    split; [by etrans|].
    intros x pages [<-|Hin] Hwf Hx Hdir.
    + destruct (add_watermark_done x0 (AsPath wm) pages wp [] w1 w2)
        as (out & Hout & Hpar & Hmerged); try done.
      exists out. split; [done|]. split; [done|]. by eapply lookup_weaken.
    + destruct (Hrest x pages Hin Hwf) as (out & Hout & Hpar & Hmerged).
      { by eapply lookup_weaken. }
      { by eapply lookup_weaken. }
      exists out. split; [by eapply lookup_weaken_None|]. done.
Qed.

End Copies.

Import Copies.

(** X18.  A run of [main] that completes has written, for every
    selected input that was a PDF document in an existing directory, a
    copy in the same directory, at a path where nothing was: the pages of
    the input, in order, each with the watermark page for the text merged
    onto it.  This holds for any number of files; later files of the run
    do not disturb the copies of earlier ones. *)
Theorem X18_every_file_gets_its_copy (args : Args) (w w' : World) :
  main args w = (Ok tt, w') →
  ∀ x pages,
    In x (selected args w) →
    wf_path (Path_of x) = true →
    fs w !! Path_of x = Some (Regular (PdfDoc pages)) →
    fs w !! parent (Path_of x) = Some Directory →
    ∃ out,
      fs w !! out = None ∧
      parent out = parent (Path_of x) ∧
      fs w' !! out = Some (Regular (PdfDoc (merged (watermark_text args) pages))).
Proof.
  intros Hrun x pages Hin Hwf Hx Hdir.
  unfold main in Hrun. rewrite bind_run, select_files_journal in Hrun.
  cbv beta iota in Hrun. set (w1 := set_journal _ w) in Hrun.
  rewrite bind_run in Hrun.
  destruct (create_watermark (watermark_text args) None w1) as [[wm|e|] w2] eqn:Hcw;
    [|discriminate..].
  destruct (create_watermark_done _ _ _ _ Hcw) as [Hwm Hfs2].
  change (fs w1) with (fs w) in Hwm, Hfs2.
  rewrite bind_run in Hrun.
  destruct (basicConfig_run (Some INFO) w2) as (h & lv & r & Hsetup).
  unfold setup_logging in Hrun. rewrite Hsetup in Hrun. cbv beta iota in Hrun.
  set (w3 := set_logging h lv r w2) in Hrun.
  rewrite bind_run in Hrun.
  destruct (for_each _ _ tt w3) as [[[]|e|] w4] eqn:Hloop; [|discriminate..].
  destruct (logging_info_run "All done!" [] w4) as (h' & lv' & r' & Hdone).
  rewrite Hdone in Hrun. injection Hrun as <-.
  assert (wm ≠ Path_of x) as Hne1 by (intros E; rewrite E, Hx in Hwm; done).
  assert (wm ≠ parent (Path_of x)) as Hne2 by (intros E; rewrite E, Hdir in Hwm; done).
  destruct (loop_copies wm (watermark_page (watermark_text args)) (selected args w) w3 w4)
    as [Hsub Hall]; [| done |].
  { cbn [fs w3 set_logging]. rewrite Hfs2. apply lookup_insert_eq. }
  destruct (Hall x pages Hin Hwf) as (out & Hout & Hpar & Hmerged).
  { cbn [fs w3 set_logging]. rewrite Hfs2. by rewrite lookup_insert_ne. }
  { cbn [fs w3 set_logging]. rewrite Hfs2. by rewrite lookup_insert_ne. }
  exists out. split; [|done].
  cbn [fs w3 set_logging] in Hout. rewrite Hfs2 in Hout.
  by apply lookup_insert_None in Hout as [? _].
Qed.

Lemma X18_every_file_gets_its_copy_witness :
  let args := {| watermark_text := "DRAFT";
                 input_files := Some ["/home/u/name.pdf"; "/home/u/empty.pdf"];
                 exclude := None |} in
  let x := AsStr "/home/u/name.pdf" in
  let w' := (main args demo).2 in
  (main args demo).1 = Ok tt ∧
  ∃ out,
    fs demo !! out = None ∧
    parent out = parent (Path_of x) ∧
    fs w' !! out
      = Some (Regular (PdfDoc (merged "DRAFT" [page "one"; page "two"; page "three"]))).
Proof.
  intros args x w'.
  assert ((main args demo).1 = Ok tt) as Hok by (by vm_compute).
  split; [exact Hok|].
  assert (main args demo = (Ok tt, w')) as Hrun.
  { unfold w'. destruct (main args demo) as [r v]. cbn [fst snd] in *. by rewrite Hok. }
  apply (X18_every_file_gets_its_copy args demo w' Hrun x [page "one"; page "two"; page "three"]);
    clear Hrun Hok; clearbody w'.
  - vm_compute. by left.
  - by vm_compute.
  - by vm_compute.
  - by vm_compute.
Defined.
